(** * RealestateDashBoard: sheet parsing and derived metrics

    A shallow embedding of the parsing and metrics layer of the dashboard
    (PortfolioPage, UnitDetailPage and lib/googleSheets types) together with
    the properties its specification states about it.

    Conventions of the embedding

    - A JavaScript string is the list of its UTF-16 code units ([jsstring]).
    - A JavaScript number is an IEEE 754 binary64 value, taken from the
      axiom-free [SpecFloat] of the standard library ([number]); arithmetic is
      [SFadd], [SFsub], [SFmul], [SFdiv] at precision 53 and exponent 1024.
    - [null] / [undefined] results are [None]; a value of type [unknown] is a
      [jsval].
    - Two built-ins whose full tables are outside the repository are taken
      as the fields of [JSBuiltins]: [String.prototype.toLowerCase] and
      [Number::toString]. *)

From Stdlib Require Import ZArith NArith List Bool Lia String Ascii.
From Stdlib Require Import SpecFloat Sorted Permutation DecimalNat.
Import ListNotations.

Local Open Scope Z_scope.

(* ================================================================== *)
(** ** Strings *)

Definition jsstring := list N.

Module JsStr.

(** Decode the UTF-8 bytes of a Rocq string literal into UTF-16 code units
    (one-, two- and three-byte sequences: the Basic Multilingual Plane,
    which holds every literal of the sources). *)
Fixpoint decode (bs : list N) (fuel : nat) : jsstring :=
  match fuel with
  | O => []
  | S fuel' =>
    match bs with
    | [] => []
    | b0 :: rest =>
      if (b0 <? 128)%N then b0 :: decode rest fuel'
      else if (b0 <? 224)%N then
        match rest with
        | b1 :: rest' =>
          ((b0 - 192) * 64 + (b1 - 128))%N :: decode rest' fuel'
        | [] => []
        end
      else
        match rest with
        | b1 :: b2 :: rest' =>
          ((b0 - 224) * 4096 + (b1 - 128) * 64 + (b2 - 128))%N
            :: decode rest' fuel'
        | _ => []
        end
    end
  end.

Definition bytes (s : string) : list N :=
  List.map N_of_ascii (list_ascii_of_string s).

Definition js (s : string) : jsstring :=
  decode (bytes s) (String.length s).

Definition eqb (a b : jsstring) : bool :=
  if list_eq_dec N.eq_dec a b then true else false.

Fixpoint prefixb (p s : jsstring) : bool :=
  match p, s with
  | [], _ => true
  | _ :: _, [] => false
  | a :: p', b :: s' => (a =? b)%N && prefixb p' s'
  end.

(** [String.prototype.includes]: [needle] occurs as a contiguous run. *)
Fixpoint includes (s needle : jsstring) : bool :=
  prefixb needle s ||
  match s with
  | [] => false
  | _ :: s' => includes s' needle
  end.

(** WhiteSpace and LineTerminator code units: the class [\s] of a
    regular expression and the characters removed by [trim]. *)
Definition isSpace (c : N) : bool :=
  ((9 <=? c) && (c <=? 13) || (c =? 32) || (c =? 160) || (c =? 5760)
   || (8192 <=? c) && (c <=? 8202) || (c =? 8232) || (c =? 8233)
   || (c =? 8239) || (c =? 8287) || (c =? 12288) || (c =? 65279))%N.

Fixpoint trimStart (s : jsstring) : jsstring :=
  match s with
  | c :: s' => if isSpace c then trimStart s' else s
  | [] => []
  end.

Definition trimEnd (s : jsstring) : jsstring :=
  rev (trimStart (rev s)).

Definition trim (s : jsstring) : jsstring := trimEnd (trimStart s).

(** [s.replace(/\s+/g, '')]: every whitespace code unit is removed. *)
Definition removeSpaces (s : jsstring) : jsstring :=
  filter (fun c => negb (isSpace c)) s.

Definition isDigit (c : N) : bool := ((48 <=? c) && (c <=? 57))%N.

(** Decimal rendering of an array index, as a template literal prints it. *)
Fixpoint ofUint (d : Decimal.uint) : jsstring :=
  match d with
  | Decimal.Nil => []
  | Decimal.D0 d => 48%N :: ofUint d
  | Decimal.D1 d => 49%N :: ofUint d
  | Decimal.D2 d => 50%N :: ofUint d
  | Decimal.D3 d => 51%N :: ofUint d
  | Decimal.D4 d => 52%N :: ofUint d
  | Decimal.D5 d => 53%N :: ofUint d
  | Decimal.D6 d => 54%N :: ofUint d
  | Decimal.D7 d => 55%N :: ofUint d
  | Decimal.D8 d => 56%N :: ofUint d
  | Decimal.D9 d => 57%N :: ofUint d
  end.

Definition ofNat (n : nat) : jsstring := ofUint (Nat.to_uint n).

End JsStr.

Definition js : string -> jsstring := JsStr.js.

(* ================================================================== *)
(** ** Numbers *)

Definition number := spec_float.

Module Num.

Definition prec : Z := 53.
Definition emax : Z := 1024.

Definition add : number -> number -> number := SFadd prec emax.
Definition sub : number -> number -> number := SFsub prec emax.
Definition mul : number -> number -> number := SFmul prec emax.
Definition div : number -> number -> number := SFdiv prec emax.
Definition ltb : number -> number -> bool := SFltb.

Definition zero : number := S754_zero false.

(** [a > b] *)
Definition gtb (a b : number) : bool := ltb b a.

(** [Number.isFinite] *)
Definition isFinite (x : number) : bool :=
  match x with
  | S754_zero _ | S754_finite _ _ _ => true
  | S754_infinity _ | S754_nan => false
  end.

Definition isZero (x : number) : bool :=
  match x with
  | S754_zero _ => true
  | _ => false
  end.

(** The binary64 value nearest to the integer [z] (ties to even). *)
Definition ofZ (z : Z) : number := binary_normalize prec emax z 0 false.

Fixpoint pow10 (k : nat) : positive :=
  match k with
  | O => 1
  | S k' => 10 * pow10 k'
  end%positive.

(** The binary64 value nearest to [m / 10^k] (ties to even), with the sign
    [neg]: the value of a decimal literal whose digits read [m] and whose
    last [k] digits follow the point. *)
Definition ofDecimal (neg : bool) (m : Z) (k : nat) : number :=
  match m with
  | Zpos p =>
    SFdiv prec emax (S754_finite neg p 0) (S754_finite false (pow10 k) 0)
  | _ => S754_zero neg
  end.

(** Value of a run of decimal digits, most significant first. *)
Fixpoint digitsValue (acc : Z) (ds : jsstring) : Z :=
  match ds with
  | [] => acc
  | d :: ds' => digitsValue (10 * acc + (Z.of_N d - 48)) ds'
  end.

Fixpoint spanDigits (s : jsstring) : jsstring * jsstring :=
  match s with
  | c :: s' =>
    if JsStr.isDigit c then
      let '(ds, rest) := spanDigits s' in (c :: ds, rest)
    else ([], s)
  | [] => ([], [])
  end.

(** [Number(s)] for a string over the alphabet digits, '.', '-' (what
    [replace(/[^\d.-]/g, '')] leaves): StringNumericLiteral reduces to
    [-]? (digits | digits '.' digits? | '.' digits); the empty string is
    [+0]; anything else is [NaN].  A code unit outside the alphabet makes
    the result [NaN] here; the callers never pass one. *)
Definition unsignedLiteral (neg : bool) (s : jsstring) : number :=
  let '(ip, rest) := spanDigits s in
  match rest with
  | [] =>
    match ip with
    | [] => S754_nan
    | _ => ofDecimal neg (digitsValue 0 ip) 0
    end
  | c :: rest' =>
    if (c =? 46)%N then
      let '(fp, rest'') := spanDigits rest' in
      match rest'', ip, fp with
      | _ :: _, _, _ => S754_nan
      | [], [], [] => S754_nan
      | [], _, _ => ofDecimal neg (digitsValue 0 (ip ++ fp)) (List.length fp)
      end
    else S754_nan
  end.

Definition ofString (s : jsstring) : number :=
  match s with
  | [] => zero
  | c :: s' =>
    if (c =? 45)%N then unsignedLiteral true s' else unsignedLiteral false s
  end.

End Num.

(* ================================================================== *)
(** ** Values *)

(** A value of static type [unknown], [string | number | boolean | null],
    or the [undefined] of a missing property. *)
Inductive jsval :=
| Undefined
| Null
| Bool (b : bool)
| Num (n : number)
| Str (s : jsstring).

(** The characters kept by [replace(/[^\d.-]/g, '')]. *)
Definition isNumericChar (c : N) : bool :=
  (JsStr.isDigit c || (c =? 46) || (c =? 45))%N.

Definition stripNonNumeric (s : jsstring) : jsstring :=
  filter isNumericChar s.

(** PortfolioPage: [parseNumericValue(value: unknown): number | null] *)
Definition parseNumericValue (value : jsval) : option number :=
  match value with
  | Num n => if Num.isFinite n then Some n else None
  | Str s =>
    let normalized := stripNonNumeric s in
    match normalized with
    | [] => None
    | _ =>
      let parsed := Num.ofString normalized in
      if Num.isFinite parsed then Some parsed else None
    end
  | _ => None
  end.

(** UnitDetailPage: [toNumber(value: string | number | null): number | null] *)
Definition toNumber (value : jsval) : option number :=
  match value with
  | Num n => if Num.isFinite n then Some n else None
  | Str s =>
    let normalized := stripNonNumeric s in
    match normalized with
    | [] => None
    | _ =>
      let parsed := Num.ofString normalized in
      if Num.isFinite parsed then Some parsed else None
    end
  | _ => None
  end.

(** Built-ins of the language whose tables are not part of the repository:
    [String.prototype.toLowerCase] (Unicode case mapping) and
    [Number::toString] (shortest round-trip decimal rendering). *)
Class JSBuiltins := {
  toLowerCase : jsstring -> jsstring;
  numberToString : number -> jsstring
}.

(** [String(v)] *)
Definition ToString `{JSBuiltins} (v : jsval) : jsstring :=
  match v with
  | Undefined => js "undefined"
  | Null => js "null"
  | Bool true => js "true"
  | Bool false => js "false"
  | Num n => numberToString n
  | Str s => s
  end.

(** [v ?? d] *)
Definition nullish (v d : jsval) : jsval :=
  match v with
  | Undefined | Null => d
  | _ => v
  end.

(** [v ?? 0] on a nullable number. *)
Definition orZero (v : option number) : number :=
  match v with
  | Some n => n
  | None => Num.zero
  end.

(* ================================================================== *)
(** ** Array helpers *)

Section ArrayHelpers.
Context {A B : Type}.

(** [Array.prototype.findIndex]: the first index whose element passes,
    or [-1]. *)
Fixpoint findIndexFrom (p : A -> bool) (l : list A) (i : Z) : Z :=
  match l with
  | [] => -1
  | x :: l' => if p x then i else findIndexFrom p l' (i + 1)
  end.

Definition findIndex (p : A -> bool) (l : list A) : Z := findIndexFrom p l 0.

(** [l.slice(0, n)] for [n >= 0]. *)
Definition slice0 (l : list A) (n : Z) : list A := firstn (Z.to_nat n) l.

(** [l.map((x, index) => f x index)] *)
Fixpoint mapiFrom (f : A -> nat -> B) (l : list A) (i : nat) : list B :=
  match l with
  | [] => []
  | x :: l' => f x i :: mapiFrom f l' (S i)
  end.

Definition mapi (f : A -> nat -> B) (l : list A) : list B := mapiFrom f l 0.

(** [l.reduce((acc, x) => f acc x, init)] *)
Definition reduce (f : B -> A -> B) (init : B) (l : list A) : B :=
  fold_left f l init.
End ArrayHelpers.

(** [Array.prototype.sort(cmp)]: the stable sort of the language, as the
    insertion of each element before the first one it does not exceed. *)
Section Sort.
Context {A : Type} (cmp : A -> A -> Z).

Fixpoint sortInsert (x : A) (l : list A) : list A :=
  match l with
  | [] => [x]
  | y :: l' => if 0 <? cmp x y then y :: sortInsert x l' else x :: y :: l'
  end.

Fixpoint sort (l : list A) : list A :=
  match l with
  | [] => []
  | x :: l' => sortInsert x (sort l')
  end.
End Sort.

(* ================================================================== *)
(** ** Regular expressions

    A backtracking matcher for a sequence of greedily quantified character
    classes, the shape of the date pattern of [parseKoreanDate]. *)

Module Regex.

Record item := {
  cls : N -> bool;
  lo : nat;
  hi : option nat            (* [None]: unbounded *)
}.

Definition within (k : nat) (bound : option nat) : bool :=
  match bound with
  | None => true
  | Some h => (k <? h)%nat
  end.

(** Longest run of [cls] code units at the head of [s], at most [hi]. *)
Fixpoint run (it : item) (s : jsstring) (k : nat) : nat :=
  match s with
  | c :: s' => if cls it c && within k (hi it) then run it s' (S k) else k
  | [] => k
  end.

(** Try [f] at [base + extra], [base + extra - 1], ..., [base]. *)
Fixpoint tryDown {R : Type} (f : nat -> option R) (base extra : nat)
  : option R :=
  match f (base + extra)%nat with
  | Some r => Some r
  | None =>
    match extra with
    | O => None
    | S extra' => tryDown f base extra'
    end
  end.

(** Match the items at the head of [s]; the result lists the text each
    item consumed.  Each item first takes as much as it can and gives
    back one code unit at a time while the rest fails. *)
Fixpoint matchHere (items : list item) (s : jsstring)
  : option (list jsstring) :=
  match items with
  | [] => Some []
  | it :: rest =>
    let n := run it s 0 in
    if (n <? lo it)%nat then None
    else
      tryDown
        (fun k =>
           match matchHere rest (skipn k s) with
           | Some pieces => Some (firstn k s :: pieces)
           | None => None
           end)
        (lo it) (n - lo it)
  end.

(** [s.match(re)] without the [g] flag: the leftmost start that matches. *)
Fixpoint search (items : list item) (s : jsstring)
  : option (list jsstring) :=
  match matchHere items s with
  | Some pieces => Some pieces
  | None =>
    match s with
    | [] => None
    | _ :: s' => search items s'
    end
  end.

Definition digits (lo : nat) (hi : nat) : item :=
  {| cls := JsStr.isDigit; lo := lo; hi := Some hi |}.

Definition nonDigits1 : item :=
  {| cls := fun c => negb (JsStr.isDigit c); lo := 1; hi := None |}.

End Regex.

(* ================================================================== *)
(** ** Dates

    A [Date] is its time value in milliseconds, read in local time.  The
    embedding takes the local zone to have a fixed offset (as Asia/Seoul
    does), so that local midnights are whole days apart; [Zoned] below
    makes the zone explicit. *)

Module JsDate.

Definition msPerDay : Z := 86400000.

(** Day number of a civil date (proleptic Gregorian, month 1..12). *)
Definition daysFromCivil (y m d : Z) : Z :=
  let y' := if m <=? 2 then y - 1 else y in
  let era := y' / 400 in
  let yoe := y' - era * 400 in
  let doy := (153 * (m + (if 2 <? m then -3 else 9)) + 2) / 5 + d - 1 in
  let doe := yoe * 365 + yoe / 4 - yoe / 100 + doy in
  era * 146097 + doe - 719468.

(** Civil date (year, month 1..12, day) of a day number. *)
Definition civilFromDays (z : Z) : Z * Z * Z :=
  let z' := z + 719468 in
  let era := z' / 146097 in
  let doe := z' - era * 146097 in
  let yoe := (doe - doe / 1460 + doe / 36524 - doe / 146096) / 365 in
  let doy := doe - (365 * yoe + yoe / 4 - yoe / 100) in
  let mp := (5 * doy + 2) / 153 in
  let d := doy - (153 * mp + 2) / 5 + 1 in
  let m := if mp <? 10 then mp + 3 else mp - 9 in
  ((yoe + era * 400) + (if m <=? 2 then 1 else 0), m, d).

(** MakeDay: a month index outside 0..11 carries into the year, and the
    day of the month is added to the first of that month as a count. *)
Definition MakeDay (year month date : Z) : Z :=
  let ym := year + month / 12 in
  let mn := month mod 12 in
  daysFromCivil ym (mn + 1) 1 + date - 1.

(** TimeClip: a time value beyond 8.64e15 ms is [NaN] ([None]). *)
Definition TimeClip (t : Z) : option Z :=
  if Z.abs t <=? 8640000000000000 then Some t else None.

(** [new Date(year, monthIndex, day)]; [getTime()] of the result. *)
Definition construct (year monthIndex day : Z) : option Z :=
  let yr := if (0 <=? year) && (year <=? 99) then 1900 + year else year in
  TimeClip (MakeDay yr monthIndex day * msPerDay).

Definition Day (t : Z) : Z := t / msPerDay.

Definition getFullYear (t : Z) : Z := fst (fst (civilFromDays (Day t))).
Definition getMonth (t : Z) : Z := snd (fst (civilFromDays (Day t))) - 1.
Definition getDate (t : Z) : Z := snd (civilFromDays (Day t)).

End JsDate.

(* ================================================================== *)
(** ** lib/googleSheets: table types *)

(** [SheetRow = Record<string, string | number | boolean | null>]: the
    properties of the object in enumeration order. *)
Definition SheetRow := list (jsstring * jsval).

(** [row[key]]; a missing property reads [undefined]. *)
Fixpoint getProp (row : SheetRow) (key : jsstring) : jsval :=
  match row with
  | [] => Undefined
  | (k, v) :: row' => if JsStr.eqb k key then v else getProp row' key
  end.

Definition Object_keys (row : SheetRow) : list jsstring := List.map fst row.

Record GvizCell := { v : jsval; f : option jsstring }.
Record GvizRow := { c : list (option GvizCell) }.
Record GvizCol := { label : option jsstring }.
Record GvizTable := { cols : list GvizCol; rows : list GvizRow }.

(* ================================================================== *)
(** ** PortfolioPage *)

Module Portfolio.
Section WithBuiltins.
Context `{JSBuiltins}.

Record PortfolioUnit := {
  id : jsstring;
  site : jsstring;
  ownership : jsstring;
  tenantStatus : jsstring;
  completionDate : jsstring;
  contractRenewalRaw : jsstring;
  loanRenewalRaw : jsstring;
  note : jsstring;
  businessNumber : jsstring;
  supplyPrice : option number;
  loanAmount : option number;
  interestRate : option number;
  monthlyInterest : option number;
  monthlyRent : option number;
  buildingTax : option number;
  landTax : option number;
  trafficInducementCharge : option number
}.

Inductive AlertKind := ContractRenewal | LoanRenewal.

Record RenewalAlert := {
  alertId : jsstring;
  alertSite : jsstring;
  kind : AlertKind;
  rawDate : jsstring;
  daysLeft : Z
}.

Record PortfolioSummary := {
  totalUnits : nat;
  leasedUnits : nat;
  totalSupplyPrice : number;
  totalLoanAmount : number;
  totalEquity : number;
  avgInterestRate : option number;
  monthlyRentIncome : number;
  monthlyInterestCost : number;
  monthlyNetCashflow : number;
  annualNetCashflow : number;
  annualReturnOnEquity : option number;
  loanToValue : option number
}.

Record TaxSummary := {
  buildingTaxTotal : number;
  landTaxTotal : number;
  trafficChargeTotal : number;
  annualTaxTotal : number
}.

Fixpoint firstKeyMatch (lowered : list (jsstring * jsstring))
         (keys : list jsstring) : jsstring :=
  match keys with
  | [] => []
  | key :: keys' =>
    match find (fun column => JsStr.includes (snd column) key) lowered with
    | Some found => fst found
    | None => firstKeyMatch lowered keys'
    end
  end.

Definition findLikelyColumn (columns keys : list jsstring) : jsstring :=
  let lowered := List.map (fun column => (column, toLowerCase column)) columns in
  firstKeyMatch lowered keys.

Definition koreanDatePattern : list Regex.item :=
  [Regex.digits 2 4; Regex.nonDigits1; Regex.digits 1 2; Regex.nonDigits1;
   Regex.digits 1 2].

(** The captured groups are runs of at most four digits, so [Number] of
    each is the exact integer and the [Number.isFinite] tests pass. *)
Definition parseKoreanDate (raw : jsstring) : option Z :=
  match Regex.search koreanDatePattern raw with
  | Some [g1; _; g2; _; g3] =>
    let year := Num.digitsValue 0 g1 in
    let month := Num.digitsValue 0 g2 in
    let day := Num.digitsValue 0 g3 in
    let year := if year <? 100 then year + 2000 else year in
    JsDate.construct year (month - 1) day
  | _ => None
  end.

(** [today] is the time value of [new Date()].  A [NaN] difference is
    rendered as [None]: like [null], it fails the window test of
    [buildRenewalAlerts]. *)
Definition calculateDaysLeft (today : Z) (rawDate : jsstring) : option Z :=
  match parseKoreanDate rawDate with
  | None => None
  | Some parsed =>
    match JsDate.construct (JsDate.getFullYear today) (JsDate.getMonth today)
                           (JsDate.getDate today),
          JsDate.construct (JsDate.getFullYear parsed) (JsDate.getMonth parsed)
                           (JsDate.getDate parsed) with
    | Some startOfToday, Some target =>
      let diffMs := target - startOfToday in
      Some (diffMs / JsDate.msPerDay)
    | _, _ => None
    end
  end.

(** [String(row[column] ?? fallback)] *)
Definition field (row : SheetRow) (column fallback : jsstring) : jsstring :=
  ToString (nullish (getProp row column) (Str fallback)).

Definition isSumRow (siteColumn : jsstring) (row : SheetRow) : bool :=
  JsStr.includes (JsStr.removeSpaces (field row siteColumn [])) (js "합계").

Definition hasSite (siteColumn : jsstring) (row : SheetRow) : bool :=
  let site := JsStr.trim (field row siteColumn []) in
  (0 <? List.length site)%nat.

Definition toPortfolioUnits (rows : list SheetRow) : list PortfolioUnit :=
  match rows with
  | [] => []
  | row0 :: _ =>
    let columns := Object_keys row0 in
    let siteColumn := findLikelyColumn columns [js "현장"; js "호실"; js "site"] in
    let completionColumn := findLikelyColumn columns [js "준공일"; js "completion"] in
    let supplyColumn := findLikelyColumn columns [js "공급금액"; js "매입"; js "price"] in
    let loanColumn := findLikelyColumn columns [js "대출금"; js "loan"] in
    let rateColumn := findLikelyColumn columns [js "이율"; js "금리"; js "rate"] in
    let interestColumn := findLikelyColumn columns [js "대출이자"; js "interest"] in
    let rentColumn := findLikelyColumn columns [js "월세"; js "임대료"; js "rent"] in
    let contractRenewalColumn := findLikelyColumn columns [js "계약갱신"; js "계약 갱신"] in
    let loanRenewalColumn := findLikelyColumn columns [js "대출갱신"; js "대출 갱신"] in
    let ownershipColumn := findLikelyColumn columns [js "명의"] in
    let tenantColumn := findLikelyColumn columns [js "실입주 여부"; js "입주"; js "임대"] in
    let noteColumn := findLikelyColumn columns [js "비고"; js "note"] in
    let businessNumberColumn := findLikelyColumn columns [js "사업자등록번호"] in
    let buildingTaxColumn := findLikelyColumn columns [js "재산세"; js "건문불"] in
    let landTaxColumn := findLikelyColumn columns [js "토지분"] in
    let trafficChargeColumn := findLikelyColumn columns [js "교통유발부담금"] in
    let sumRowIndex := findIndex (isSumRow siteColumn) rows in
    let sourceRows :=
      filter (hasSite siteColumn)
             (if 0 <=? sumRowIndex then slice0 rows sumRowIndex else rows) in
    mapi (fun row index =>
            {| id := js "unit-" ++ JsStr.ofNat index;
               site := field row siteColumn (js "호실 " ++ JsStr.ofNat (index + 1));
               ownership := field row ownershipColumn (js "-");
               tenantStatus := field row tenantColumn (js "-");
               completionDate := field row completionColumn (js "-");
               contractRenewalRaw := field row contractRenewalColumn [];
               loanRenewalRaw := field row loanRenewalColumn [];
               note := field row noteColumn (js "-");
               businessNumber := field row businessNumberColumn (js "-");
               supplyPrice := parseNumericValue (getProp row supplyColumn);
               loanAmount := parseNumericValue (getProp row loanColumn);
               interestRate := parseNumericValue (getProp row rateColumn);
               monthlyInterest := parseNumericValue (getProp row interestColumn);
               monthlyRent := parseNumericValue (getProp row rentColumn);
               buildingTax := parseNumericValue (getProp row buildingTaxColumn);
               landTax := parseNumericValue (getProp row landTaxColumn);
               trafficInducementCharge :=
                 parseNumericValue (getProp row trafficChargeColumn) |})
         sourceRows
  end.

Definition summarizeTaxes (units : list PortfolioUnit) : TaxSummary :=
  let buildingTaxTotal :=
    reduce (fun acc unit => Num.add acc (orZero (buildingTax unit))) Num.zero units in
  let landTaxTotal :=
    reduce (fun acc unit => Num.add acc (orZero (landTax unit))) Num.zero units in
  let trafficChargeTotal :=
    reduce (fun acc unit => Num.add acc (orZero (trafficInducementCharge unit)))
           Num.zero units in
  {| buildingTaxTotal := buildingTaxTotal;
     landTaxTotal := landTaxTotal;
     trafficChargeTotal := trafficChargeTotal;
     annualTaxTotal :=
       Num.add (Num.add buildingTaxTotal landTaxTotal) trafficChargeTotal |}.

(** The filter of [weightedRateBase]. *)
Definition inWeightedRateBase (unit : PortfolioUnit) : bool :=
  match interestRate unit, loanAmount unit with
  | Some _, Some loan => Num.gtb loan Num.zero
  | _, _ => false
  end.

Definition isLeased (unit : PortfolioUnit) : bool :=
  let value := toLowerCase (tenantStatus unit) in
  JsStr.includes value (js "임대") || JsStr.includes value (js "입주")
  || JsStr.includes value (js "운영").

Definition summarizePortfolio (units : list PortfolioUnit) : PortfolioSummary :=
  match units with
  | [] =>
    {| totalUnits := 0; leasedUnits := 0;
       totalSupplyPrice := Num.zero; totalLoanAmount := Num.zero;
       totalEquity := Num.zero; avgInterestRate := None;
       monthlyRentIncome := Num.zero; monthlyInterestCost := Num.zero;
       monthlyNetCashflow := Num.zero; annualNetCashflow := Num.zero;
       annualReturnOnEquity := None; loanToValue := None |}
  | _ :: _ =>
    let totalSupplyPrice :=
      reduce (fun acc unit => Num.add acc (orZero (supplyPrice unit))) Num.zero units in
    let totalLoanAmount :=
      reduce (fun acc unit => Num.add acc (orZero (loanAmount unit))) Num.zero units in
    let totalEquity := Num.sub totalSupplyPrice totalLoanAmount in
    let monthlyRentIncome :=
      reduce (fun acc unit => Num.add acc (orZero (monthlyRent unit))) Num.zero units in
    let monthlyInterestCost :=
      reduce (fun acc unit => Num.add acc (orZero (monthlyInterest unit))) Num.zero units in
    let monthlyNetCashflow := Num.sub monthlyRentIncome monthlyInterestCost in
    let annualNetCashflow := Num.mul monthlyNetCashflow (Num.ofZ 12) in
    let weightedRateBase := filter inWeightedRateBase units in
    let weightedRateDenom :=
      reduce (fun acc unit => Num.add acc (orZero (loanAmount unit)))
             Num.zero weightedRateBase in
    let weightedRateNumerator :=
      reduce (fun acc unit =>
                Num.add acc (Num.mul (orZero (loanAmount unit))
                                     (orZero (interestRate unit))))
             Num.zero weightedRateBase in
    let avgInterestRate :=
      if Num.gtb weightedRateDenom Num.zero
      then Some (Num.div weightedRateNumerator weightedRateDenom) else None in
    let leasedUnits := List.length (filter isLeased units) in
    let annualReturnOnEquity :=
      if Num.gtb totalEquity Num.zero
      then Some (Num.div annualNetCashflow totalEquity) else None in
    let loanToValue :=
      if Num.gtb totalSupplyPrice Num.zero
      then Some (Num.div totalLoanAmount totalSupplyPrice) else None in
    {| totalUnits := List.length units;
       leasedUnits := leasedUnits;
       totalSupplyPrice := totalSupplyPrice;
       totalLoanAmount := totalLoanAmount;
       totalEquity := totalEquity;
       avgInterestRate := avgInterestRate;
       monthlyRentIncome := monthlyRentIncome;
       monthlyInterestCost := monthlyInterestCost;
       monthlyNetCashflow := monthlyNetCashflow;
       annualNetCashflow := annualNetCashflow;
       annualReturnOnEquity := annualReturnOnEquity;
       loanToValue := loanToValue |}
  end.

(** The alerts pushed while visiting one unit. *)
Definition alertsOfUnit (today : Z) (unit : PortfolioUnit) : list RenewalAlert :=
  let contractDays := calculateDaysLeft today (contractRenewalRaw unit) in
  let loanDays := calculateDaysLeft today (loanRenewalRaw unit) in
  (match contractDays with
   | Some d =>
     if (0 <=? d) && (d <=? 120) then
       [{| alertId := id unit ++ js "-contract";
           alertSite := site unit;
           kind := ContractRenewal;
           rawDate := contractRenewalRaw unit;
           daysLeft := d |}]
     else []
   | None => []
   end)
  ++
  (match loanDays with
   | Some d =>
     if (0 <=? d) && (d <=? 120) then
       [{| alertId := id unit ++ js "-loan";
           alertSite := site unit;
           kind := LoanRenewal;
           rawDate := loanRenewalRaw unit;
           daysLeft := d |}]
     else []
   | None => []
   end).

(** The array [alerts] when the loop over [units] ends. *)
Definition pushedAlerts (today : Z) (units : list PortfolioUnit)
  : list RenewalAlert :=
  flat_map (alertsOfUnit today) units.

Definition buildRenewalAlerts (today : Z) (units : list PortfolioUnit)
  : list RenewalAlert :=
  sort (fun a b => daysLeft a - daysLeft b) (pushedAlerts today units).

(** The figures computed for each row of the per-unit table
    ([units.map((unit) => ...)] in the page). *)
Definition equity (unit : PortfolioUnit) : number :=
  if Num.gtb (orZero (supplyPrice unit)) Num.zero
  then Num.sub (orZero (supplyPrice unit)) (orZero (loanAmount unit))
  else Num.zero.

Definition monthlyNet (unit : PortfolioUnit) : number :=
  Num.sub (orZero (monthlyRent unit)) (orZero (monthlyInterest unit)).

Definition unitRoe (unit : PortfolioUnit) : option number :=
  if Num.gtb (equity unit) Num.zero
  then Some (Num.div (Num.mul (monthlyNet unit) (Num.ofZ 12)) (equity unit))
  else None.

End WithBuiltins.
End Portfolio.

(* ================================================================== *)
(** ** PortfolioPage: dates in the local time zone

    [new Date(year, monthIndex, day)] reads its arguments as local time, and
    [getFullYear], [getMonth] and [getDate] return local fields.  Here the
    zone is explicit.  The date functions of [Portfolio] above are these
    functions in a zone of fixed offset with [today] read as local time
    (lemmas [fixed_offset_days_left] and [fixed_offset_alerts]); across a
    change of offset, as for daylight saving, they differ
    ([offset_change_shortens_days_left]). *)

Module Zoned.
Import Portfolio.

(** The offset of local time from UTC in milliseconds, at a time value
    (LocalTZA(t, true)) and at a local time (LocalTZA(t, false)). *)
Record TimeZone := {
  offsetAt : Z -> Z;
  offsetAtLocal : Z -> Z
}.

Definition fixedZone (offset : Z) : TimeZone :=
  {| offsetAt := fun _ => offset; offsetAtLocal := fun _ => offset |}.

Definition LocalTime (zone : TimeZone) (t : Z) : Z := t + offsetAt zone t.

Definition UTC (zone : TimeZone) (t : Z) : Z := t - offsetAtLocal zone t.

(** [new Date(year, monthIndex, day)]; [getTime()] of the result. *)
Definition construct (zone : TimeZone) (year monthIndex day : Z) : option Z :=
  let yr := if (0 <=? year) && (year <=? 99) then 1900 + year else year in
  JsDate.TimeClip (UTC zone (JsDate.MakeDay yr monthIndex day * JsDate.msPerDay)).

Definition getFullYear (zone : TimeZone) (t : Z) : Z :=
  JsDate.getFullYear (LocalTime zone t).
Definition getMonth (zone : TimeZone) (t : Z) : Z :=
  JsDate.getMonth (LocalTime zone t).
Definition getDate (zone : TimeZone) (t : Z) : Z :=
  JsDate.getDate (LocalTime zone t).

Definition parseKoreanDate (zone : TimeZone) (raw : jsstring) : option Z :=
  match Regex.search koreanDatePattern raw with
  | Some [g1; _; g2; _; g3] =>
    let year := Num.digitsValue 0 g1 in
    let month := Num.digitsValue 0 g2 in
    let day := Num.digitsValue 0 g3 in
    let year := if year <? 100 then year + 2000 else year in
    construct zone year (month - 1) day
  | _ => None
  end.

(** [today] is the time value of [new Date()]. *)
Definition calculateDaysLeft (zone : TimeZone) (today : Z) (rawDate : jsstring)
  : option Z :=
  match parseKoreanDate zone rawDate with
  | None => None
  | Some parsed =>
    match construct zone (getFullYear zone today) (getMonth zone today)
                    (getDate zone today),
          construct zone (getFullYear zone parsed) (getMonth zone parsed)
                    (getDate zone parsed) with
    | Some startOfToday, Some target =>
      let diffMs := target - startOfToday in
      Some (diffMs / JsDate.msPerDay)
    | _, _ => None
    end
  end.

(** The alerts pushed while visiting one unit. *)
Definition alertsOfUnit (zone : TimeZone) (today : Z) (unit : PortfolioUnit)
  : list RenewalAlert :=
  let contractDays := calculateDaysLeft zone today (contractRenewalRaw unit) in
  let loanDays := calculateDaysLeft zone today (loanRenewalRaw unit) in
  (match contractDays with
   | Some d =>
     if (0 <=? d) && (d <=? 120) then
       [{| alertId := id unit ++ js "-contract";
           alertSite := site unit;
           kind := ContractRenewal;
           rawDate := contractRenewalRaw unit;
           daysLeft := d |}]
     else []
   | None => []
   end)
  ++
  (match loanDays with
   | Some d =>
     if (0 <=? d) && (d <=? 120) then
       [{| alertId := id unit ++ js "-loan";
           alertSite := site unit;
           kind := LoanRenewal;
           rawDate := loanRenewalRaw unit;
           daysLeft := d |}]
     else []
   | None => []
   end).

(** The array [alerts] when the loop over [units] ends. *)
Definition pushedAlerts (zone : TimeZone) (today : Z)
           (units : list PortfolioUnit) : list RenewalAlert :=
  flat_map (alertsOfUnit zone today) units.

Definition buildRenewalAlerts (zone : TimeZone) (today : Z)
           (units : list PortfolioUnit) : list RenewalAlert :=
  sort (fun a b => daysLeft a - daysLeft b) (pushedAlerts zone today units).

End Zoned.

(* ================================================================== *)
(** ** UnitDetailPage *)

Module Detail.
Section WithBuiltins.
Context `{JSBuiltins}.

Record UnitScenario := {
  ltv : jsstring;
  loanAmount : option number;
  equity : option number;
  deposit : option number;
  fixedCost : option number;
  investedTotal : option number;
  monthlyRent : option number;
  monthlyInterest : option number;
  monthlyNet : option number;
  monthlyRoi : option number;
  annualProfit : option number;
  annualRoi : option number
}.

Record Anchor := { row : nat; col : nat }.

(** Truthiness of a string: it is not empty. *)
Definition truthy (s : jsstring) : bool :=
  match s with
  | [] => false
  | _ :: _ => true
  end.

Definition cellToString (cell : option GvizCell) : jsstring :=
  match cell with
  | None => []
  | Some cell =>
    match f cell with
    | Some fs =>
      if truthy fs && truthy (JsStr.trim fs) then JsStr.trim fs
      else
        match v cell with
        | Null | Undefined => []
        | value => JsStr.trim (ToString value)
        end
    | None =>
      match v cell with
      | Null | Undefined => []
      | value => JsStr.trim (ToString value)
      end
    end
  end.

Definition normalize (value : jsstring) : jsstring :=
  toLowerCase (JsStr.removeSpaces value).

(** [cells[i]]: the cell at an index, [null] or out of range read alike. *)
Definition cellAt (cells : list (option GvizCell)) (i : nat) : option GvizCell :=
  match nth_error cells i with
  | Some cell => cell
  | None => None
  end.

(** [rows[r]?.c?.[c] ?? null] *)
Definition getCell (table : GvizTable) (r c0 : nat) : option GvizCell :=
  match nth_error (rows table) r with
  | Some gr => cellAt (c gr) c0
  | None => None
  end.

(** [cell?.v] *)
Definition rawValue (cell : option GvizCell) : jsval :=
  match cell with
  | Some cell => v cell
  | None => Undefined
  end.

Fixpoint findInCells (target : jsstring) (cells : list (option GvizCell))
         (c0 : nat) : option nat :=
  match cells with
  | [] => None
  | cell :: cells' =>
    if JsStr.includes (normalize (cellToString cell)) target then Some c0
    else findInCells target cells' (S c0)
  end.

Fixpoint findInRows (target : jsstring) (rs : list GvizRow) (r : nat)
  : option Anchor :=
  match rs with
  | [] => None
  | gr :: rs' =>
    match findInCells target (c gr) 0 with
    | Some c0 => Some {| row := r; col := c0 |}
    | None => findInRows target rs' (S r)
    end
  end.

Definition findCellByKeyword (table : GvizTable) (keyword : jsstring)
  : option Anchor :=
  findInRows (normalize keyword) (rows table) 0.

Definition getNumericAt (table : GvizTable) (r c0 : nat) : option number :=
  let cell := getCell table r c0 in
  match toNumber (rawValue cell) with
  | Some fromValue => Some fromValue
  | None => toNumber (Str (cellToString cell))
  end.

(** The loop of [getNumericBelow] from [offset] on, [steps] rounds left. *)
Fixpoint getNumericBelowFrom (table : GvizTable) (anchor : Anchor)
         (offset steps : nat) : option number :=
  match steps with
  | O => None
  | S steps' =>
    match getNumericAt table (row anchor + offset) (col anchor) with
    | Some value => Some value
    | None => getNumericBelowFrom table anchor (S offset) steps'
    end
  end.

Definition getNumericBelow (table : GvizTable) (anchor : Anchor)
           (maxDepth : nat) : option number :=
  getNumericBelowFrom table anchor 1 maxDepth.

Definition defaultMaxDepth : nat := 4.

(** [toNumber(cell?.v) ?? toNumber(cellToString(cell))] *)
Definition numericOfCell (cell : option GvizCell) : option number :=
  match toNumber (rawValue cell) with
  | Some value => Some value
  | None => toNumber (Str (cellToString cell))
  end.

(** The array [numbers] of [getRegistrationHeuristic]. *)
Fixpoint collectNumbers (cells : list (option GvizCell)) : list number :=
  match cells with
  | [] => []
  | cell :: cells' =>
    match numericOfCell cell with
    | Some value => value :: collectNumbers cells'
    | None => collectNumbers cells'
    end
  end.

Definition getRegistrationHeuristic (table : GvizTable)
           (anchor : option Anchor) : option number :=
  match anchor with
  | None => None
  | Some anchor =>
    let cells :=
      match nth_error (rows table) (row anchor + 1) with
      | Some gr => c gr
      | None => []
      end in
    let numbers := collectNumbers (skipn (col anchor) cells) in
    match numbers with
    | [] => None
    | _ =>
      if (3 <=? List.length numbers)%nat then nth_error numbers 2
      else nth_error numbers (List.length numbers - 1)
    end
  end.

Definition isScenarioRow (gr : GvizRow) : bool :=
  JsStr.includes (cellToString (cellAt (c gr) 1)) (js "%").

Definition toScenario (gr : GvizRow) : UnitScenario :=
  let c := c gr in
  {| ltv := if truthy (cellToString (cellAt c 1))
            then cellToString (cellAt c 1) else js "-";
     loanAmount := toNumber (Str (cellToString (cellAt c 2)));
     equity := toNumber (rawValue (cellAt c 3));
     deposit := toNumber (rawValue (cellAt c 4));
     fixedCost := toNumber (rawValue (cellAt c 5));
     investedTotal := toNumber (rawValue (cellAt c 6));
     monthlyRent := toNumber (rawValue (cellAt c 7));
     monthlyInterest := toNumber (rawValue (cellAt c 8));
     monthlyNet := toNumber (rawValue (cellAt c 9));
     monthlyRoi := toNumber (rawValue (cellAt c 10));
     annualProfit := toNumber (rawValue (cellAt c 11));
     annualRoi := toNumber (rawValue (cellAt c 12)) |}.

Record Building := {
  supplyAreaPyeong : jsstring;
  exclusiveAreaPyeong : jsstring;
  exclusiveRatio : option number;
  landPrice : option number;
  buildingPrice : option number;
  pricePerPyeong : option number;
  supplyAmount : option number;
  vat : option number;
  totalAcquisition : option number
}.

Record Facility := { hvac : jsstring; interior : jsstring }.

Record Lease := {
  leaseDeposit : option number;
  leaseMonthlyRent : option number;
  monthlyRentPerPyeong : option number
}.

Record OtherCosts := {
  registration : option number;
  brokerage : option number;
  propertyBuildingTax : option number;
  propertyLandTax : option number
}.

Record UnitDetail := {
  warningText : jsstring;
  building : Building;
  facility : Facility;
  lease : Lease;
  otherCosts : OtherCosts;
  loanInterestLabel : jsstring;
  scenarios : list UnitScenario
}.

(** [a ?? b] on nullable numbers. *)
Definition orElse (a b : option number) : option number :=
  match a with
  | Some x => Some x
  | None => b
  end.

Definition parseDetail (table : GvizTable) : UnitDetail :=
  let depositLabel := findCellByKeyword table (js "보증금") in
  let rentLabel := findCellByKeyword table (js "월세") in
  let rentPerPyeongLabel := findCellByKeyword table (js "평당월세") in
  let acquisitionTaxLabel := findCellByKeyword table (js "취등록세") in
  let registrationLabel := findCellByKeyword table (js "등기비용") in
  let leaseDeposit :=
    match depositLabel with
    | Some a => getNumericBelow table a defaultMaxDepth
    | None => toNumber (Str (cellToString (getCell table 8 1)))
    end in
  let monthlyRent :=
    match rentLabel with
    | Some a => getNumericBelow table a defaultMaxDepth
    | None =>
      match depositLabel with
      | Some d => getNumericAt table (row d + 1) (col d + 1)
      | None => toNumber (Str (cellToString (getCell table 8 2)))
      end
    end in
  let monthlyRentPerPyeong :=
    match rentPerPyeongLabel with
    | Some a => getNumericBelow table a defaultMaxDepth
    | None =>
      match rentLabel with
      | Some r => getNumericAt table (row r + 1) (col r + 1)
      | None =>
        match depositLabel with
        | Some d => getNumericAt table (row d + 1) (col d + 2)
        | None => None
        end
      end
    end in
  let scenarios := List.map toScenario (filter isScenarioRow (rows table)) in
  let registrationFromAcquisitionTax :=
    match acquisitionTaxLabel with
    | Some a => getNumericBelow table a defaultMaxDepth
    | None => None
    end in
  let registrationFromScenario :=
    match scenarios with
    | first :: _ => fixedCost first
    | [] => None
    end in
  let registrationFallback := getRegistrationHeuristic table registrationLabel in
  {| warningText :=
       match nth_error (cols table) 1 with
       | Some {| label := Some l |} => l
       | _ => []
       end;
     building :=
       {| supplyAreaPyeong := cellToString (getCell table 0 1);
          exclusiveAreaPyeong := cellToString (getCell table 0 2);
          exclusiveRatio := toNumber (rawValue (getCell table 0 3));
          landPrice := toNumber (rawValue (getCell table 0 4));
          buildingPrice := toNumber (rawValue (getCell table 0 5));
          pricePerPyeong := toNumber (rawValue (getCell table 0 6));
          supplyAmount := toNumber (rawValue (getCell table 0 7));
          vat := toNumber (rawValue (getCell table 0 8));
          totalAcquisition := toNumber (rawValue (getCell table 0 9)) |};
     facility :=
       {| hvac := cellToString (getCell table 5 1);
          interior := cellToString (getCell table 5 2) |};
     lease :=
       {| leaseDeposit := leaseDeposit;
          leaseMonthlyRent := monthlyRent;
          monthlyRentPerPyeong := monthlyRentPerPyeong |};
     otherCosts :=
       {| registration :=
            orElse registrationFromAcquisitionTax
                   (orElse registrationFromScenario registrationFallback);
          brokerage := toNumber (Str (cellToString (getCell table 11 2)));
          propertyBuildingTax := toNumber (Str (cellToString (getCell table 12 1)));
          propertyLandTax := toNumber (Str (cellToString (getCell table 12 2))) |};
     loanInterestLabel := cellToString (getCell table 14 2);
     scenarios := scenarios |}.

End WithBuiltins.
End Detail.

(** A concrete choice of the built-ins, used to evaluate examples:
    lower-casing of the Basic Latin letters and the rendering of integral
    values below 2^53 by their decimal digits. *)
Module Sample.

Definition lowerUnit (u : N) : N :=
  if ((65 <=? u) && (u <=? 90))%N then (u + 32)%N else u.

Definition renderNumber (x : number) : jsstring :=
  match x with
  | S754_zero _ => js "0"
  | S754_nan => js "NaN"
  | S754_infinity false => js "Infinity"
  | S754_infinity true => js "-Infinity"
  | S754_finite s m e =>
    (if s then js "-" else [])
      ++ JsStr.ofUint (N.to_uint (Z.to_N (Z.shiftl (Zpos m) e)))
  end.

#[export] Instance builtins : JSBuiltins :=
  {| toLowerCase := List.map lowerUnit; numberToString := renderNumber |}.

End Sample.

(* ================================================================== *)
(** ** Specification-side definitions *)

(** A code unit is kept when it is a decimal digit, '.' or '-'. *)
Definition NumericChar (u : N) : Prop :=
  (48 <= u <= 57 \/ u = 46 \/ u = 45)%N.

(** [Stripped s t]: [t] is [s] with every code unit that is not a digit,
    '.' or '-' removed, the others kept in order. *)
Inductive Stripped : jsstring -> jsstring -> Prop :=
| Stripped_nil : Stripped [] []
| Stripped_keep u s t : NumericChar u -> Stripped s t -> Stripped (u :: s) (u :: t)
| Stripped_drop u s t : ~ NumericChar u -> Stripped s t -> Stripped (u :: s) t.


(** Sum of the loan amounts and of the loan-weighted rates over a list of
    units, accumulated from the left starting at 0 as [reduce] does. *)
Definition loanSum (units : list Portfolio.PortfolioUnit) : number :=
  fold_left (fun acc unit => Num.add acc (orZero (Portfolio.loanAmount unit)))
            units Num.zero.

Definition weightedRateSum (units : list Portfolio.PortfolioUnit) : number :=
  fold_left (fun acc unit =>
               Num.add acc (Num.mul (orZero (Portfolio.loanAmount unit))
                                    (orZero (Portfolio.interestRate unit))))
            units Num.zero.

(** A unit contributes to the weighted rate when both its rate and its loan
    amount are known and the loan amount is positive. *)
Definition Contributes (unit : Portfolio.PortfolioUnit) : Prop :=
  exists rate loan,
    Portfolio.interestRate unit = Some rate
    /\ Portfolio.loanAmount unit = Some loan
    /\ Num.gtb loan Num.zero = true.

(** ** Sample data *)

Module Fixtures.
Import Portfolio.

(** A unit that carries only money figures. *)
Definition unitOf (supply loan rate rent interest : option number)
  : PortfolioUnit :=
  {| id := js "unit-0"; site := js "A"; ownership := js "-";
     tenantStatus := js "-"; completionDate := js "-";
     contractRenewalRaw := []; loanRenewalRaw := [];
     note := js "-"; businessNumber := js "-";
     supplyPrice := supply; loanAmount := loan; interestRate := rate;
     monthlyInterest := interest; monthlyRent := rent;
     buildingTax := None; landTax := None;
     trafficInducementCharge := None |}.

(** The literals [0.03] and [0.05]. *)
Definition rate3 : number := Num.ofDecimal false 3 2.
Definition rate5 : number := Num.ofDecimal false 5 2.

(** Loan amounts [1000, 2000] with rates [0.03, 0.05]. *)
Definition twoLoans : list PortfolioUnit :=
  [unitOf None (Some (Num.ofZ 1000)) (Some rate3) None None;
   unitOf None (Some (Num.ofZ 2000)) (Some rate5) None None].

(** No supply price, a loan of 1000. *)
Definition loanOnly : PortfolioUnit :=
  unitOf None (Some (Num.ofZ 1000)) None None None.

(** Supply price 5000, loan 3000, rent 40, interest 10. *)
Definition leveraged : PortfolioUnit :=
  unitOf (Some (Num.ofZ 5000)) (Some (Num.ofZ 3000)) None
         (Some (Num.ofZ 40)) (Some (Num.ofZ 10)).
End Fixtures.

Module DetailFixtures.
Import Detail.

Definition numCell (raw : Z) : option GvizCell :=
  Some {| v := Num (Num.ofZ raw); f := None |}.

Definition textCell (text : string) : option GvizCell :=
  Some {| v := Str (js text); f := None |}.

(** A cell with raw value 1000 whose display string reads 2,000원. *)
Definition bothCell : GvizCell :=
  {| v := Num (Num.ofZ 1000); f := Some (js "2,000원") |}.

Definition bothTable : GvizTable :=
  {| cols := []; rows := [ {| c := [Some bothCell] |} ] |}.

(** A scenario row whose equity cell (column 3) has raw value 5000 and
    display string 7,000원. *)
Definition bothScenarioRow : GvizRow :=
  {| c := [None; textCell "60%"; numCell 3000;
           Some {| v := Num (Num.ofZ 5000); f := Some (js "7,000원") |}] |}.

(** A scenario row of twelve columns after the leading one. *)
Definition scenarioRow (tier : string) (base : Z) : GvizRow :=
  {| c := None :: textCell tier
            :: List.map (fun k => numCell (base + Z.of_nat k)) (seq 2 11) |}.

(** Three scenario rows among rows of other kinds. *)
Definition threeScenarios : GvizTable :=
  {| cols := [];
     rows := [ {| c := [textCell "구분"; textCell "LTV"; textCell "대출금"] |};
               scenarioRow "50%" 100;
               {| c := [textCell "비고"] |};
               scenarioRow "60%" 200;
               {| c := [] |};
               scenarioRow "70%" 300 ] |}.

(** The registration label with [count] numbers in the row below it. *)
Definition labelOver (count : nat) : GvizTable :=
  {| cols := [];
     rows := [ {| c := [textCell "등기비용"] |};
               {| c := List.map (fun k => numCell (10 * Z.of_nat k)) (seq 1 count) |} ] |}.

(** The acquisition-tax label with its value two rows below, next to the
    registration label and above a scenario row. *)
Definition withAcquisitionTax : GvizTable :=
  {| cols := [];
     rows := [ {| c := [textCell "취등록세"; textCell "등기비용"] |};
               {| c := [None; numCell 7] |};
               {| c := [numCell 4600; numCell 8; numCell 9] |};
               scenarioRow "60%" 500 ] |}.

(** No acquisition-tax label: a scenario row whose fixed cost is 505. *)
Definition withScenarioOnly : GvizTable :=
  {| cols := [];
     rows := [ {| c := [textCell "등기비용"] |};
               {| c := [numCell 10; numCell 20] |};
               scenarioRow "60%" 500 ] |}.

(** Both labels inside the table, after cells that match neither; the
    value of the acquisition tax is two rows below its label. *)
Definition labelsInside : GvizTable :=
  {| cols := [];
     rows := [ {| c := [textCell "구분"; textCell "금액"] |};
               {| c := [textCell "기타"; textCell " 취 등록세 (지방세)";
                        textCell "등기비용"] |};
               {| c := [numCell 1; None; numCell 11] |};
               {| c := [numCell 2; numCell 4600; numCell 12; numCell 13;
                        numCell 14] |} ] |}.

(** No acquisition-tax label and a scenario row without a fixed cost. *)
Definition withLabelOnly : GvizTable :=
  {| cols := [];
     rows := [ {| c := [textCell "등기비용"] |};
               {| c := [numCell 10; numCell 20] |};
               {| c := [None; textCell "60%"; numCell 1] |} ] |}.
End DetailFixtures.

(** ** Scenario rows, as the specification words them *)

Section ScenarioSpec.
Context `{JSBuiltins}.
Import Detail.

(** The numeric fields of a scenario in the order of their columns,
    offsets 2 to 12. *)
Definition scenarioNumbers (s : UnitScenario) : list (option number) :=
  [loanAmount s; equity s; deposit s; fixedCost s; investedTotal s;
   monthlyRent s; monthlyInterest s; monthlyNet s; monthlyRoi s;
   annualProfit s; annualRoi s].

(** A row is selected when the string of its cell at index 1 contains a
    percent sign. *)
Definition HasPercent (gr : GvizRow) : Prop :=
  JsStr.includes (cellToString (cellAt (c gr) 1)) (js "%") = true.

(** The cells of the row directly below an anchor, from its column on. *)
Definition cellsBelow (table : GvizTable) (anchor : Anchor)
  : list (option GvizCell) :=
  skipn (col anchor)
        (match nth_error (rows table) (row anchor + 1) with
         | Some gr => c gr
         | None => []
         end).

(** The third of the numbers when there are at least three, else the last,
    else nothing. *)
Definition thirdOrLast (numbers : list number) : option number :=
  match numbers with
  | [] => None
  | [a] => Some a
  | [_; b] => Some b
  | _ :: _ :: third :: _ => Some third
  end.
End ScenarioSpec.

(** ** Row filtering, as the specification words it *)

Section RowFilterSpec.
Context `{JSBuiltins}.
Import Portfolio.

Definition siteKeys : list jsstring := [js "현장"; js "호실"; js "site"].

(** The column resolved for the site field from the keys of the first row. *)
Definition siteColumnOf (rows : list SheetRow) : jsstring :=
  match rows with
  | [] => []
  | row0 :: _ => findLikelyColumn (Object_keys row0) siteKeys
  end.

(** The site field of a row: [String(row[siteColumn] ?? '')]. *)
Definition siteText (siteColumn : jsstring) (row : SheetRow) : jsstring :=
  field row siteColumn [].

(** The rows in front of the first total row. *)
Fixpoint dataRegion (isTotal : SheetRow -> bool) (rows : list SheetRow)
  : list SheetRow :=
  match rows with
  | [] => []
  | row :: rows' => if isTotal row then [] else row :: dataRegion isTotal rows'
  end.

(** The rows that become units: those of the data region whose site field
    is not blank. *)
Definition keptRows (rows : list SheetRow) : list SheetRow :=
  let siteColumn := siteColumnOf rows in
  filter (hasSite siteColumn) (dataRegion (isSumRow siteColumn) rows).
End RowFilterSpec.

Module RowFixtures.

Definition siteRow (name : string) : SheetRow :=
  [(js "현장", Str (js name)); (js "대출금", Str (js "1,000원"))].

(** Five data rows followed by the total row. *)
Definition fivePlusTotal : list SheetRow :=
  [siteRow "A동 101호"; siteRow "A동 102호"; siteRow "B동 201호";
   siteRow "B동 202호"; siteRow "C동 301호"; siteRow "합 계"].

(** Rows without a total row, the second with a blank site. *)
Definition noTotal : list SheetRow :=
  [siteRow "A동 101호"; siteRow "  "; siteRow "B동 201호"].

(** A table none of whose labels names the site. *)
Definition noSiteColumn : list SheetRow :=
  [[(js "명의", Str (js "갑")); (js "대출금", Str (js "1,000원"))];
   [(js "명의", Str (js "을")); (js "대출금", Str (js "2,000원"))]].
End RowFixtures.

(** ** Regular expression matches *)

(** What one item of a successful match consumed. *)
Definition Consumed (it : Regex.item) (piece : jsstring) : Prop :=
  Forall (fun u => Regex.cls it u = true) piece
  /\ (Regex.lo it <= List.length piece)%nat
  /\ match Regex.hi it with
     | Some h => (List.length piece <= h)%nat
     | None => True
     end.


(** ** Renewal alerts, as the specification words them *)

Section AlertSpec.
Import Portfolio.

Definition contractAlert (unit : PortfolioUnit) (days : Z) : RenewalAlert :=
  {| alertId := id unit ++ js "-contract";
     alertSite := site unit;
     kind := ContractRenewal;
     rawDate := contractRenewalRaw unit;
     daysLeft := days |}.

Definition loanAlert (unit : PortfolioUnit) (days : Z) : RenewalAlert :=
  {| alertId := id unit ++ js "-loan";
     alertSite := site unit;
     kind := LoanRenewal;
     rawDate := loanRenewalRaw unit;
     daysLeft := days |}.

(** The date string [raw] is [days] days ahead of [today], within the
    window of 120 days. *)
Definition Due (today : Z) (raw : jsstring) (days : Z) : Prop :=
  calculateDaysLeft today raw = Some days /\ 0 <= days <= 120.

(** The alert of one kind for one date string: present exactly when the
    date is due. *)
Definition dueAlert (today : Z) (raw : jsstring) (mk : Z -> RenewalAlert)
  : list RenewalAlert :=
  match calculateDaysLeft today raw with
  | Some days => if (0 <=? days) && (days <=? 120) then [mk days] else []
  | None => []
  end.
End AlertSpec.

Module AlertFixtures.
Import Portfolio.

Definition datedUnit (n : nat) (contract loan : string) : PortfolioUnit :=
  {| id := js "unit-" ++ JsStr.ofNat n; site := js "A"; ownership := js "-";
     tenantStatus := js "-"; completionDate := js "-";
     contractRenewalRaw := js contract; loanRenewalRaw := js loan;
     note := js "-"; businessNumber := js "-";
     supplyPrice := None; loanAmount := None; interestRate := None;
     monthlyInterest := None; monthlyRent := None;
     buildingTax := None; landTax := None;
     trafficInducementCharge := None |}.

(** 1 January 2026, 15:30 local time. *)
Definition today : Z := 1767225600000 + 55800000.

(** Dates 120, 121, -1, 0, 60 and 120 days from [today]. *)
Definition units : list PortfolioUnit :=
  [datedUnit 0 "2026년 5월 1일" "2026-05-02";
   datedUnit 1 "2025.12.31" "갱신일 26/1/1";
   datedUnit 2 "2026-3-2" "2026-05-01"].

(** A contract date with month 13 and a loan date with day 32. *)
Definition invalidUnit : PortfolioUnit :=
  datedUnit 0 "2025-13-05" "2026-01-32".
End AlertFixtures.

(** ** Renewal alerts in a time zone *)

Section ZonedAlertSpec.
Import Portfolio.

(** The alert of one kind for the days left of one date: present exactly
    when the days left are within the window of 120 days. *)
Definition dueAlertOf (days : option Z) (mk : Z -> RenewalAlert)
  : list RenewalAlert :=
  match days with
  | Some d => if (0 <=? d) && (d <=? 120) then [mk d] else []
  | None => []
  end.

(** The zone has the same offset at every time. *)
Definition FixedOffset (zone : Zoned.TimeZone) (offset : Z) : Prop :=
  (forall t, Zoned.offsetAt zone t = offset)
  /\ (forall t, Zoned.offsetAtLocal zone t = offset).
End ZonedAlertSpec.

Module ZoneFixtures.

(** Asia/Seoul: nine hours ahead of UTC all year. *)
Definition seoul : Zoned.TimeZone := Zoned.fixedZone 32400000.

(** America/New_York in 2026: five hours behind UTC until 8 March, 07:00
    UTC, four hours behind until 1 November, 06:00 UTC, then five again.  A
    local time that the clock skips or shows twice takes the offset in
    force before the change. *)
Definition springForward : Z := 1772953200000.
Definition fallBack : Z := 1793512800000.

Definition newYork2026 : Zoned.TimeZone :=
  {| Zoned.offsetAt := fun t =>
       if t <? springForward then -18000000
       else if t <? fallBack then -14400000 else -18000000;
     Zoned.offsetAtLocal := fun t =>
       if t <? springForward - 14400000 then -18000000
       else if t <? fallBack - 14400000 then -14400000 else -18000000 |}.

(** 1 January 2026, 15:30 local time in New York. *)
Definition newYorkToday : Z := AlertFixtures.today + 18000000.
End ZoneFixtures.

(* ================================================================== *)
(** ** lib/googleSheets: rows of the summary sheet *)

Module Sheets.

(** A property name that is an array index (a canonical decimal below
    2^32 - 1): such keys enumerate first, in ascending order. *)
Definition isIndexKey (key : jsstring) : bool :=
  match key with
  | [] => false
  | [u] => JsStr.isDigit u
  | u :: _ =>
    forallb JsStr.isDigit key && negb (u =? 48)%N
    && (Num.digitsValue 0 key <=? 4294967294)
  end.

Fixpoint hasProp (row : SheetRow) (key : jsstring) : bool :=
  match row with
  | [] => false
  | (k, _) :: row' => JsStr.eqb k key || hasProp row' key
  end.

Fixpoint replaceProp (row : SheetRow) (key : jsstring) (value : jsval)
  : SheetRow :=
  match row with
  | [] => []
  | (k, x) :: row' =>
    if JsStr.eqb k key then (k, value) :: row'
    else (k, x) :: replaceProp row' key value
  end.

(** Place a new index key behind the smaller index keys. *)
Fixpoint insertIndexProp (row : SheetRow) (key : jsstring) (value : jsval)
  : SheetRow :=
  match row with
  | [] => [(key, value)]
  | (k, x) :: row' =>
    if isIndexKey k && (Num.digitsValue 0 k <? Num.digitsValue 0 key)
    then (k, x) :: insertIndexProp row' key value
    else (key, value) :: (k, x) :: row'
  end.

(** Writing an own data property: an existing property keeps its place; a
    new one goes among the index keys or, for any other name, to the end. *)
Definition setProp (row : SheetRow) (key : jsstring) (value : jsval)
  : SheetRow :=
  if hasProp row key then replaceProp row key value
  else if isIndexKey key then insertIndexProp row key value
  else row ++ [(key, value)].

(** [column.label && column.label.trim() ? column.label.trim()
     : `column_${index + 1}`] *)
Definition headerOf (column : GvizCol) (index : nat) : jsstring :=
  match label column with
  | Some l =>
    if Detail.truthy l && Detail.truthy (JsStr.trim l) then JsStr.trim l
    else js "column_" ++ JsStr.ofNat (index + 1)
  | None => js "column_" ++ JsStr.ofNat (index + 1)
  end.

Definition headersOf (table : GvizTable) : list jsstring :=
  mapi headerOf (cols table).

(** The object [entry] while it is filled: its own properties, and whether
    its prototype is still [Object.prototype] (as it is for [{}]). *)
Record Entry := { props : SheetRow; plain : bool }.

Definition emptyObject : Entry := {| props := []; plain := true |}.

Definition protoKey : jsstring := js "__proto__".

(** [entry[key] = value].  Every property of [Object.prototype] is a
    writable data property, which the assignment shadows with an own
    property, except the accessor [__proto__]: while the entry inherits it
    and has no own property of that name, the assignment runs its setter,
    which creates no property; it takes the prototype away when the value is
    [null] and does nothing for a string, a number or a boolean. *)
Definition assign (entry : Entry) (key : jsstring) (value : jsval) : Entry :=
  if JsStr.eqb key protoKey && negb (hasProp (props entry) key) && plain entry
  then
    match value with
    | Null => {| props := props entry; plain := false |}
    | _ => entry
    end
  else {| props := setProp (props entry) key value; plain := plain entry |}.

(** [headers.forEach((header, index) => ...)] from [index] on. *)
Fixpoint fillFrom (gr : GvizRow) (headers : list jsstring) (index : nat)
         (entry : Entry) : Entry :=
  match headers with
  | [] => entry
  | header :: headers' =>
    let cell := Detail.cellAt (c gr) index in
    fillFrom gr headers' (S index)
             (assign entry header (nullish (Detail.rawValue cell) Null))
  end.

(** The own properties of the filled entry are what [Object.keys] and the
    reads of the pages see. *)
Definition toEntry (headers : list jsstring) (gr : GvizRow) : SheetRow :=
  props (fillFrom gr headers 0 emptyObject).

(** The rows [fetchGoogleSheetRows] returns for a decoded table. *)
Definition sheetRowsOf (table : GvizTable) : list SheetRow :=
  List.map (toEntry (headersOf table)) (rows table).

(** The envelope pattern of [parseGoogleVisualizationResponse]: the text
    "setResponse(", a greedy run of any code units (the captured group), a
    closing parenthesis, an optional semicolon and the end of the text.  It
    is a sequence of greedily quantified classes that must reach the end. *)
Fixpoint matchToEnd (items : list Regex.item) (s : jsstring)
  : option (list jsstring) :=
  match items with
  | [] => match s with [] => Some [] | _ :: _ => None end
  | it :: rest =>
    let n := Regex.run it s 0 in
    if (n <? Regex.lo it)%nat then None
    else
      Regex.tryDown
        (fun k =>
           match matchToEnd rest (skipn k s) with
           | Some pieces => Some (firstn k s :: pieces)
           | None => None
           end)
        (Regex.lo it) (n - Regex.lo it)
  end.

Fixpoint searchToEnd (items : list Regex.item) (s : jsstring)
  : option (list jsstring) :=
  match matchToEnd items s with
  | Some pieces => Some pieces
  | None =>
    match s with
    | [] => None
    | _ :: s' => searchToEnd items s'
    end
  end.

Definition literal (text : jsstring) : list Regex.item :=
  List.map (fun u => {| Regex.cls := N.eqb u; Regex.lo := 1; Regex.hi := Some 1%nat |})
           text.

Definition anyStar : Regex.item :=
  {| Regex.cls := fun _ => true; Regex.lo := 0; Regex.hi := None |}.

Definition optional (u : N) : Regex.item :=
  {| Regex.cls := N.eqb u; Regex.lo := 0; Regex.hi := Some 1%nat |}.

Definition envelopePattern : list Regex.item :=
  literal (js "setResponse(") ++ [anyStar] ++ literal (js ")")
          ++ [optional 59].

(** [match[1]]: the text the group captured. *)
Definition envelopePayload (rawText : jsstring) : option jsstring :=
  match searchToEnd envelopePattern rawText with
  | Some pieces => nth_error pieces (List.length (js "setResponse("))
  | None => None
  end.

Record GvizResponse := { table : GvizTable }.

Section Decoder.
(** [JSON.parse] read at the type of the response; a syntax error is the
    message on the left. *)
Variable JSON_parse : jsstring -> jsstring + GvizResponse.

Definition parseErrorMessage : jsstring :=
  js "Google Sheets 응답을 파싱할 수 없습니다.".

(** A thrown [Error] is its message on the left. *)
Definition parseGoogleVisualizationResponse (rawText : jsstring)
  : jsstring + GvizResponse :=
  match envelopePayload rawText with
  | None => inl parseErrorMessage
  | Some [] => inl parseErrorMessage
  | Some payload => JSON_parse payload
  end.
End Decoder.

End Sheets.

(* ================================================================== *)
(** ** lib/unitDetailRoutes *)

Module Routes.
Section WithBuiltins.
Context `{JSBuiltins}.

Record UnitDetailRoute := {
  slug : jsstring;
  gid : jsstring;
  title : jsstring;
  aliases : list jsstring
}.

Definition UNIT_DETAIL_ROUTES : list UnitDetailRoute :=
  [ {| slug := js "deogeun-riverwalk-b-1016"; gid := js "85403937";
       title := js "덕은 리버워크 B동 1016호";
       aliases := [js "덕은 리버워크 B동 1016호"] |};
    {| slug := js "ace-gwanggyo-b307"; gid := js "103325700";
       title := js "에이스광교타워2차 B307호";
       aliases := [js "에이스광교타워2차 B307호"] |};
    {| slug := js "ace-gwanggyo-b308"; gid := js "833618035";
       title := js "에이스광교타워2차 B308호";
       aliases := [js "에이스광교타워2차 B308호"] |};
    {| slug := js "incheon-u1-c1119"; gid := js "193221968";
       title := js "인천유원 C1119호";
       aliases := [js "인천유원 C1119호"; js "인천테크노밸리 U1센터 C동 1119호"] |};
    {| slug := js "sanghyeon-signature-b318"; gid := js "512239277";
       title := js "상현 시그니처 광교 B318호";
       aliases := [js "상현 시그니처 광교 B318호"] |};
    {| slug := js "deogeun-gl-aa509"; gid := js "323618908";
       title := js "덕은지엘매트로시티 AA509호";
       aliases := [js "덕은지엘매트로시티 AA509호"; js "GL메트로시티 한강 AA-509호"] |};
    {| slug := js "deogeun-gl-ab1005"; gid := js "827101596";
       title := js "덕은지엘매트로시티 AB1005호";
       aliases := [js "덕은지엘매트로시티 AB1005호"; js "GL메트로시티 한강 AB-1005호"] |};
    {| slug := js "mullae-skv1-712"; gid := js "1376039638";
       title := js "문래 SKv1 712호";
       aliases := [js "문래 SKv1 712호"; js "문래SKv1 712호"] |};
    {| slug := js "seonyudo-twentyfirst-b109"; gid := js "1444037565";
       title := js "선유도투웨니퍼스트밸리 B109호";
       aliases := [js "선유도투웨니퍼스트밸리 B109호";
                   js "선유도 투웨니퍼스트 밸리 B109호"] |} ].

(** [value.toLowerCase().replace(/[\s-]/g, '')] *)
Definition normalize (value : jsstring) : jsstring :=
  filter (fun u => negb (JsStr.isSpace u || (u =? 45)%N)) (toLowerCase value).

Definition getUnitDetailBySite (site : jsstring) : option UnitDetailRoute :=
  let target := normalize site in
  find (fun route =>
          existsb (fun alias => JsStr.eqb (normalize alias) target)
                  (aliases route))
       UNIT_DETAIL_ROUTES.

Definition getUnitDetailBySlug (slug0 : jsstring) : option UnitDetailRoute :=
  find (fun item => JsStr.eqb (slug item) slug0) UNIT_DETAIL_ROUTES.

End WithBuiltins.
End Routes.

(** ** Predicates of the further properties *)

(** A nullable number is [null] or finite. *)
Definition finiteOrNull (x : option number) : Prop :=
  match x with
  | Some n => Num.isFinite n = true
  | None => True
  end.

(** The cell at a position of a detail table matches a normalized
    keyword. *)
Definition matchesAt `{JSBuiltins} (table : GvizTable) (target : jsstring)
           (r c0 : nat) : bool :=
  match nth_error (rows table) r with
  | Some gr =>
    match nth_error (c gr) c0 with
    | Some cell =>
      JsStr.includes (Detail.normalize (Detail.cellToString cell)) target
    | None => false
    end
  | None => false
  end.

(** [found] is the first cell of the table, row by row and each row from
    left to right, that matches a normalized keyword, or nothing when no
    cell matches. *)
Definition FirstMatch `{JSBuiltins} (table : GvizTable) (target : jsstring)
           (found : option Detail.Anchor) : Prop :=
  match found with
  | Some anchor =>
    matchesAt table target (Detail.row anchor) (Detail.col anchor) = true
    /\ forall r c0,
        (r < Detail.row anchor)%nat
        \/ (r = Detail.row anchor /\ (c0 < Detail.col anchor)%nat) ->
        matchesAt table target r c0 = false
  | None => forall r c0, matchesAt table target r c0 = false
  end.

(** A column label matches a candidate keyword. *)
Definition labelMatches `{JSBuiltins} (key column : jsstring) : bool :=
  JsStr.includes (toLowerCase column) key.

Module SheetFixtures.

(** A decoded table with a blank second label and a short second row. *)
Definition summaryTable : GvizTable :=
  {| cols := [ {| label := Some (js " 현장 ") |}; {| label := Some (js "  ") |};
               {| label := None |}; {| label := Some (js "대출금") |} ];
     rows := [ {| c := [DetailFixtures.textCell "A동 101호";
                        DetailFixtures.numCell 1; None;
                        DetailFixtures.textCell "1,000원"] |};
               {| c := [DetailFixtures.textCell "A동 102호"] |} ] |}.

(** A decoded table none of whose labels names the site. *)
Definition unnamedTable : GvizTable :=
  {| cols := [ {| label := Some (js "명의") |}; {| label := None |} ];
     rows := [ {| c := [DetailFixtures.textCell "갑"; DetailFixtures.numCell 5] |};
               {| c := [DetailFixtures.textCell "을"; DetailFixtures.numCell 6] |} ] |}.

(** The body of a response as the endpoint sends it. *)
Definition responseText : jsstring :=
  js "/*O_o*/
google.visualization.Query.setResponse({'table':{}});".
End SheetFixtures.
(* ================================================================== *)
(** * Properties *)

(** ** Sorting by an integer key *)

Section SortFacts.
Context {A : Type} (key : A -> Z).

Let cmp : A -> A -> Z := fun a b => key a - key b.
Let le : A -> A -> Prop := fun a b => key a <= key b.

Lemma sortInsert_perm (x : A) (l : list A) :
  Permutation (x :: l) (sortInsert cmp x l).
Proof.
  induction l as [|y l IH]; simpl; [reflexivity|].
  destruct (0 <? cmp x y); [|reflexivity].
  rewrite perm_swap. now constructor.
Qed.

Lemma sort_perm (l : list A) : Permutation l (sort cmp l).
Proof.
  induction l as [|x l IH]; simpl; [constructor|].
  rewrite <- sortInsert_perm. now constructor.
Qed.

Lemma sortInsert_hd (x y : A) (l : list A) :
  key y <= key x -> HdRel le y l -> HdRel le y (sortInsert cmp x l).
Proof.
  intros Hyx Hl. destruct l as [|z l]; simpl.
  - constructor. exact Hyx.
  - destruct (0 <? cmp x z); constructor.
    + now inversion Hl.
    + exact Hyx.
Qed.

Lemma sortInsert_sorted (x : A) (l : list A) :
  Sorted le l -> Sorted le (sortInsert cmp x l).
Proof.
  induction l as [|y l IH]; simpl; intros Hs.
  - repeat constructor.
  - inversion Hs as [|? ? Hl Hhd]; subst.
    destruct (0 <? cmp x y) eqn:E.
    + apply Z.ltb_lt in E. unfold cmp in E.
      constructor; [now apply IH|].
      apply sortInsert_hd; [lia | exact Hhd].
    + apply Z.ltb_ge in E. unfold cmp in E.
      constructor; [exact Hs|]. constructor. unfold le. lia.
Qed.

Lemma sort_sorted (l : list A) : Sorted le (sort cmp l).
Proof.
  induction l as [|x l IH]; simpl; [constructor|].
  now apply sortInsert_sorted.
Qed.

Lemma sort_strongly_sorted (l : list A) : StronglySorted le (sort cmp l).
Proof.
  apply Sorted_StronglySorted; [|apply sort_sorted].
  intros a b c0; unfold le; lia.
Qed.

(** Stability: the elements of any one key keep their relative order. *)
Lemma sortInsert_stable (k : Z) (x : A) (l : list A) :
  filter (fun a => key a =? k) (sortInsert cmp x l)
  = filter (fun a => key a =? k) (x :: l).
Proof.
  induction l as [|y l IH]; simpl; [reflexivity|].
  destruct (0 <? cmp x y) eqn:E; [|reflexivity].
  apply Z.ltb_lt in E. unfold cmp in E.
  simpl. rewrite IH. simpl.
  destruct (key x =? k) eqn:Ex; [|reflexivity].
  apply Z.eqb_eq in Ex.
  assert (Hy : (key y =? k) = false) by (apply Z.eqb_neq; lia).
  now rewrite Hy.
Qed.

Lemma sort_stable (k : Z) (l : list A) :
  filter (fun a => key a =? k) (sort cmp l) = filter (fun a => key a =? k) l.
Proof.
  induction l as [|x l IH]; simpl; [reflexivity|].
  rewrite sortInsert_stable. simpl. now rewrite IH.
Qed.
End SortFacts.

(** ** Numeric coercion *)

Lemma isNumericChar_iff (u : N) : isNumericChar u = true <-> NumericChar u.
Proof.
  unfold isNumericChar, NumericChar, JsStr.isDigit.
  rewrite !orb_true_iff, andb_true_iff, !N.leb_le, !N.eqb_eq. tauto.
Qed.

Lemma stripNonNumeric_Stripped (s : jsstring) : Stripped s (stripNonNumeric s).
Proof.
  induction s as [|u s IH]; simpl; [constructor|].
  destruct (isNumericChar u) eqn:E.
  - apply Stripped_keep; [now apply isNumericChar_iff | exact IH].
  - apply Stripped_drop; [|exact IH].
    intros Hc. apply isNumericChar_iff in Hc. congruence.
Qed.

Lemma Stripped_unique (s t t' : jsstring) :
  Stripped s t -> Stripped s t' -> t = t'.
Proof.
  intros Ht. revert t'.
  induction Ht; intros t' Ht'; inversion Ht'; subst;
    try reflexivity; try contradiction.
  - f_equal. now apply IHHt.
  - now apply IHHt.
Qed.

Lemma toNumber_parseNumericValue (value : jsval) :
  toNumber value = parseNumericValue value.
Proof. destruct value; reflexivity. Qed.

Lemma parseNumericValue_finite (value : jsval) :
  match parseNumericValue value with
  | Some n => Num.isFinite n = true
  | None => True
  end.
Proof.
  destruct value as [| |b|n|s]; simpl; try exact I.
  - destruct (Num.isFinite n) eqn:E; [exact E | exact I].
  - destruct (stripNonNumeric s); [exact I|].
    destruct (Num.isFinite (Num.ofString (n :: j))) eqn:E; [exact E | exact I].
Qed.

(** C8.  Numeric coercion ([parseNumericValue], and [toNumber], which agrees
    with it on every input): a number is kept when finite and is [null]
    otherwise; a string is stripped of every code unit that is not a digit,
    '.' or '-', gives [null] when nothing is left or when what is left does
    not read as a finite number, and the number read otherwise; any other
    value gives [null].  "1,234,500원" gives 1234500, "12.5%" gives 12.5,
    "" and "-" give [null]. *)
Theorem numeric_coercion :
  (forall n : number,
      parseNumericValue (Num n) = if Num.isFinite n then Some n else None)
  /\ (forall s : jsstring,
         exists normalized,
           Stripped s normalized
           /\ parseNumericValue (Str s)
              = match normalized with
                | [] => None
                | _ => if Num.isFinite (Num.ofString normalized)
                       then Some (Num.ofString normalized) else None
                end)
  /\ (forall b, parseNumericValue (Bool b) = None)
  /\ parseNumericValue Null = None
  /\ parseNumericValue Undefined = None
  /\ (forall value, toNumber value = parseNumericValue value)
  /\ (forall value,
         match parseNumericValue value with
         | Some n => Num.isFinite n = true
         | None => True
         end)
  /\ parseNumericValue (Str (js "1,234,500원")) = Some (Num.ofZ 1234500)
  /\ Num.ofZ 1234500 = S754_finite false 5302137126912000 (-32)
  /\ parseNumericValue (Str (js "12.5%"))
     = Some (Num.div (Num.ofZ 25) (Num.ofZ 2))
  /\ Num.div (Num.ofZ 25) (Num.ofZ 2) = S754_finite false 7036874417766400 (-49)
  /\ parseNumericValue (Str (js "")) = None
  /\ parseNumericValue (Str (js "-")) = None.
Proof.
  split; [reflexivity|].
  split.
  { intros s. exists (stripNonNumeric s).
    split; [apply stripNonNumeric_Stripped | reflexivity]. }
  split; [reflexivity|].
  split; [reflexivity|].
  split; [reflexivity|].
  split; [exact toNumber_parseNumericValue|].
  split; [exact parseNumericValue_finite|].
  repeat split; vm_compute; reflexivity.
Qed.

(** ** Weighted average interest rate *)

Section AggregatorFacts.
Context `{JSBuiltins}.
Import Portfolio.

Lemma avgInterestRate_eq (units : list PortfolioUnit) :
  avgInterestRate (summarizePortfolio units)
  = let base := filter inWeightedRateBase units in
    if Num.gtb (loanSum base) Num.zero
    then Some (Num.div (weightedRateSum base) (loanSum base))
    else None.
Proof. destruct units; reflexivity. Qed.

Lemma gtb_zero_of_isZero (x : number) :
  Num.isZero x = true -> Num.gtb x Num.zero = false.
Proof. destruct x; simpl; try discriminate; reflexivity. Qed.

Lemma inWeightedRateBase_iff (unit : PortfolioUnit) :
  inWeightedRateBase unit = true <-> Contributes unit.
Proof.
  unfold inWeightedRateBase, Contributes. split.
  - destruct (interestRate unit) as [r|]; [|discriminate].
    destruct (loanAmount unit) as [l|]; [|discriminate].
    intros Hl. now exists r, l.
  - intros (r & l & -> & -> & Hl). exact Hl.
Qed.

Lemma base_empty_of_no_loans (units : list PortfolioUnit) :
  (forall unit, In unit units ->
                match loanAmount unit with
                | Some loan => Num.isZero loan = true
                | None => True
                end) ->
  filter inWeightedRateBase units = [].
Proof.
  induction units as [|u units IH]; intros Hall; [reflexivity|].
  simpl. assert (Hu := Hall u (or_introl eq_refl)).
  assert (E : inWeightedRateBase u = false).
  { unfold inWeightedRateBase.
    destruct (interestRate u); [|reflexivity].
    destruct (loanAmount u) as [l|]; [|reflexivity].
    now apply gtb_zero_of_isZero. }
  rewrite E. apply IH. intros u' Hin. apply Hall. now right.
Qed.

Lemma filter_idem (units : list PortfolioUnit) :
  filter inWeightedRateBase (filter inWeightedRateBase units)
  = filter inWeightedRateBase units.
Proof.
  induction units as [|u units IH]; simpl; [reflexivity|].
  destruct (inWeightedRateBase u) eqn:E; simpl; [|exact IH].
  now rewrite E, IH.
Qed.

(** C7.  The weighted average interest rate of [summarizePortfolio] is
    taken over exactly the units whose rate and loan amount are both known
    with a positive loan amount; it is the sum of loan x rate divided by the
    sum of the loans over those units, and [null] when that denominator is
    0, in particular when every loan amount is 0 or unknown.  For loans
    [1000, 2000] at rates [0.03, 0.05] it is 130/3000. *)
Theorem weighted_average_rate (units : list PortfolioUnit) :
  let base := filter inWeightedRateBase units in
  (forall unit, In unit base <-> In unit units /\ Contributes unit)
  /\ avgInterestRate (summarizePortfolio units)
     = (if Num.gtb (loanSum base) Num.zero
        then Some (Num.div (weightedRateSum base) (loanSum base))
        else None)
  /\ avgInterestRate (summarizePortfolio units)
     = avgInterestRate (summarizePortfolio base)
  /\ (Num.isZero (loanSum base) = true ->
      avgInterestRate (summarizePortfolio units) = None)
  /\ ((forall unit, In unit units ->
                    match loanAmount unit with
                    | Some loan => Num.isZero loan = true
                    | None => True
                    end) ->
      avgInterestRate (summarizePortfolio units) = None)
  /\ avgInterestRate (summarizePortfolio Fixtures.twoLoans)
     = Some (Num.div (Num.ofZ 130) (Num.ofZ 3000))
  /\ weightedRateSum Fixtures.twoLoans = Num.ofZ 130
  /\ loanSum Fixtures.twoLoans = Num.ofZ 3000.
Proof.
  intros base. split.
  { intros unit. unfold base. rewrite filter_In, inWeightedRateBase_iff.
    reflexivity. }
  split; [apply avgInterestRate_eq|].
  split.
  { rewrite !avgInterestRate_eq. unfold base. cbv zeta.
    now rewrite filter_idem. }
  split.
  { intros Hz. rewrite avgInterestRate_eq. fold base.
    cbv zeta. now rewrite (gtb_zero_of_isZero _ Hz). }
  split.
  { intros Hall. rewrite avgInterestRate_eq.
    rewrite (base_empty_of_no_loans units Hall). reflexivity. }
  repeat split; vm_compute; reflexivity.
Qed.
End AggregatorFacts.

(** Evaluation of [weighted_average_rate] on the units of the example and
    on a list whose loans are all 0 or unknown. *)
Lemma weighted_average_rate_witness :
  Portfolio.avgInterestRate
    (Portfolio.summarizePortfolio (H := Sample.builtins) Fixtures.twoLoans)
  = Some (Num.div (Num.ofZ 130) (Num.ofZ 3000))
  /\ Portfolio.avgInterestRate
       (Portfolio.summarizePortfolio (H := Sample.builtins)
          [Fixtures.unitOf None (Some Num.zero) (Some Fixtures.rate3) None None;
           Fixtures.unitOf None None (Some Fixtures.rate5) None None])
     = None.
Proof.
  split.
  - exact (proj1 (proj2 (proj2 (proj2 (proj2 (proj2
             (weighted_average_rate (H := Sample.builtins) Fixtures.twoLoans))))))).
  - apply (proj1 (proj2 (proj2 (proj2 (proj2
             (weighted_average_rate (H := Sample.builtins) _)))))).
    intros unit [<-|[<-|[]]]; simpl; [reflexivity | exact I].
Defined.

(** ** Per-unit figures of the table *)

Section UnitFigures.
Import Portfolio.

Lemma unitRoe_none_of_zero_equity (unit : PortfolioUnit) :
  equity unit = Num.zero -> unitRoe unit = None.
Proof. unfold unitRoe. intros ->. reflexivity. Qed.

(** C4, as the code has it.  For every unit the table computes: unit equity
    = supplyPrice - loanAmount (unknown figures read as 0) when the supply
    price is positive, and 0 otherwise, whatever the loan; unit monthly net
    = monthlyRent - monthlyInterest with unknown figures read as 0; unit
    annual ROI = (monthly net x 12) / unit equity when the unit equity is
    positive and [null] otherwise.  A unit without a positive supply price
    therefore has equity 0 and no ROI. *)
Theorem unit_figures (unit : PortfolioUnit) :
  equity unit
  = match supplyPrice unit with
    | Some supply =>
      if Num.gtb supply Num.zero
      then Num.sub supply (orZero (loanAmount unit))
      else Num.zero
    | None => Num.zero
    end
  /\ monthlyNet unit
     = Num.sub (orZero (monthlyRent unit)) (orZero (monthlyInterest unit))
  /\ unitRoe unit
     = (if Num.gtb (equity unit) Num.zero
        then Some (Num.div (Num.mul (monthlyNet unit) (Num.ofZ 12)) (equity unit))
        else None)
  /\ (if Num.gtb (orZero (supplyPrice unit)) Num.zero
      then equity unit
           = Num.sub (orZero (supplyPrice unit)) (orZero (loanAmount unit))
      else equity unit = Num.zero /\ unitRoe unit = None)
  /\ equity Fixtures.leveraged = Num.ofZ 2000
  /\ monthlyNet Fixtures.leveraged = Num.ofZ 30
  /\ unitRoe Fixtures.leveraged = Some (Num.div (Num.ofZ 360) (Num.ofZ 2000)).
Proof.
  split.
  { unfold equity. destruct (supplyPrice unit) as [supply|]; reflexivity. }
  split; [reflexivity|].
  split; [reflexivity|].
  split.
  { destruct (Num.gtb (orZero (supplyPrice unit)) Num.zero) eqn:E.
    - unfold equity. now rewrite E.
    - assert (Hz : equity unit = Num.zero) by (unfold equity; now rewrite E).
      split; [exact Hz | now apply unitRoe_none_of_zero_equity]. }
  repeat split; vm_compute; reflexivity.
Qed.

(** C4 as stated fails: a unit with no supply price and a loan of 1000 has
    unit equity 0 in the table, not 0 - 1000. *)
Lemma unit_equity_counterexample :
  equity Fixtures.loanOnly = Num.zero
  /\ Num.sub (orZero (supplyPrice Fixtures.loanOnly))
             (orZero (loanAmount Fixtures.loanOnly))
     = S754_finite true 8796093022208000 (-43)
  /\ equity Fixtures.loanOnly
     <> Num.sub (orZero (supplyPrice Fixtures.loanOnly))
                (orZero (loanAmount Fixtures.loanOnly)).
Proof.
  split; [reflexivity|].
  split; [vm_compute; reflexivity|].
  vm_compute. discriminate.
Qed.
End UnitFigures.

(** ** Numeric reads of a detail cell *)

Section NumericReads.
Context `{JSBuiltins}.
Import Detail.

Lemma truthy_trim (s : jsstring) :
  truthy (JsStr.trim s) = true -> truthy s = true.
Proof. destruct s; [discriminate | reflexivity]. Qed.

Lemma cellToString_formatted (cell : GvizCell) (fs : jsstring) :
  f cell = Some fs -> truthy (JsStr.trim fs) = true ->
  cellToString (Some cell) = JsStr.trim fs.
Proof.
  intros Hf Ht. unfold cellToString. rewrite Hf.
  now rewrite (truthy_trim _ Ht), Ht.
Qed.

Lemma getNumericAt_eq (table : GvizTable) (r c0 : nat) :
  getNumericAt table r c0 = numericOfCell (getCell table r c0).
Proof. reflexivity. Qed.

(** C1, as the code has it.  A numeric read of a cell through
    [getNumericAt] returns the number given by the raw value whenever the raw
    value gives one (in particular every finite numeric raw value is returned
    as it is, whatever the display string says) and reads the display string
    only when the raw value gives none.  In a scenario row the loan amount is
    read from the display string of column 2 (the trimmed formatted string
    when it is not blank), and the fields of columns 3 to 12 are read from
    the raw value alone. *)
Theorem numeric_read_prefers_raw
        (table : GvizTable) (r c0 : nat) (cell : GvizCell)
        (Hcell : getCell table r c0 = Some cell) :
  getNumericAt table r c0
  = match toNumber (v cell) with
    | Some n => Some n
    | None => toNumber (Str (cellToString (Some cell)))
    end
  /\ (forall n, v cell = Num n -> Num.isFinite n = true ->
                getNumericAt table r c0 = Some n)
  /\ (forall fs, f cell = Some fs -> truthy (JsStr.trim fs) = true ->
                 cellToString (Some cell) = JsStr.trim fs)
  /\ (forall gr : GvizRow,
         let raw i := toNumber (rawValue (cellAt (c gr) i)) in
         loanAmount (toScenario gr)
         = toNumber (Str (cellToString (cellAt (c gr) 2)))
         /\ equity (toScenario gr) = raw 3%nat
         /\ deposit (toScenario gr) = raw 4%nat
         /\ fixedCost (toScenario gr) = raw 5%nat
         /\ investedTotal (toScenario gr) = raw 6%nat
         /\ monthlyRent (toScenario gr) = raw 7%nat
         /\ monthlyInterest (toScenario gr) = raw 8%nat
         /\ monthlyNet (toScenario gr) = raw 9%nat
         /\ monthlyRoi (toScenario gr) = raw 10%nat
         /\ annualProfit (toScenario gr) = raw 11%nat
         /\ annualRoi (toScenario gr) = raw 12%nat).
Proof.
  split.
  { rewrite getNumericAt_eq, Hcell. reflexivity. }
  split.
  { intros n Hv Hfin. rewrite getNumericAt_eq, Hcell.
    unfold numericOfCell. simpl. rewrite Hv. simpl. now rewrite Hfin. }
  split; [apply cellToString_formatted|].
  intros gr raw. repeat split.
Qed.
End NumericReads.

(** Evaluation of [numeric_read_prefers_raw] on the cell with raw value 1000
    and display string 2,000원. *)
Lemma numeric_read_prefers_raw_witness :
  Detail.getCell DetailFixtures.bothTable 0 0 = Some DetailFixtures.bothCell
  /\ Detail.getNumericAt (H := Sample.builtins) DetailFixtures.bothTable 0 0
     = Some (Num.ofZ 1000).
Proof.
  split; [reflexivity|].
  exact (proj1 (numeric_read_prefers_raw (H := Sample.builtins)
                  DetailFixtures.bothTable 0 0 DetailFixtures.bothCell eq_refl)).
Defined.

(** C1 as stated fails: the cell with raw value 1000 and display string
    2,000원 reads as 1000, not as the 2000 of its display string; and the
    equity of a scenario row whose cell holds 5000 displayed as 7,000원 is
    5000. *)
Lemma numeric_read_counterexample :
  toNumber (Str (js "2,000원")) = Some (Num.ofZ 2000)
  /\ Detail.getNumericAt (H := Sample.builtins) DetailFixtures.bothTable 0 0
     = Some (Num.ofZ 1000)
  /\ Detail.getNumericAt (H := Sample.builtins) DetailFixtures.bothTable 0 0
     <> toNumber (Str (js "2,000원"))
  /\ Detail.equity (Detail.toScenario (H := Sample.builtins)
                                      DetailFixtures.bothScenarioRow)
     = Some (Num.ofZ 5000)
  /\ Detail.equity (Detail.toScenario (H := Sample.builtins)
                                      DetailFixtures.bothScenarioRow)
     <> toNumber (Str (js "7,000원")).
Proof.
  split; [vm_compute; reflexivity|].
  split; [vm_compute; reflexivity|].
  split; [vm_compute; discriminate|].
  split; [vm_compute; reflexivity|].
  vm_compute; discriminate.
Qed.

(** ** Row normalization *)

Section ArrayFacts.
Context {A B C : Type}.

Lemma mapiFrom_length (g : A -> nat -> B) (l : list A) (i : nat) :
  List.length (mapiFrom g l i) = List.length l.
Proof.
  revert i. induction l as [|x l IH]; intros i; simpl; [reflexivity|].
  now rewrite IH.
Qed.

Lemma map_mapiFrom (h : B -> C) (g : A -> nat -> B) (l : list A) (i : nat) :
  List.map h (mapiFrom g l i) = mapiFrom (fun x k => h (g x k)) l i.
Proof.
  revert i. induction l as [|x l IH]; intros i; simpl; [reflexivity|].
  now rewrite IH.
Qed.

Lemma mapiFrom_ext_in (g : A -> nat -> B) (g' : A -> B) (l : list A) (i : nat) :
  (forall x k, In x l -> g x k = g' x) ->
  mapiFrom g l i = List.map g' l.
Proof.
  revert i. induction l as [|x l IH]; intros i Hg; simpl; [reflexivity|].
  rewrite Hg by now left. f_equal.
  apply IH. intros y k Hy. apply Hg. now right.
Qed.
End ArrayFacts.

Section RowFacts.
Context `{JSBuiltins}.
Import Portfolio.

Lemma findIndexFrom_dataRegion (p : SheetRow -> bool) (l : list SheetRow) (i : Z) :
  0 <= i ->
  (findIndexFrom p l i = -1 /\ dataRegion p l = l)
  \/ (findIndexFrom p l i = i + Z.of_nat (List.length (dataRegion p l))
      /\ firstn (List.length (dataRegion p l)) l = dataRegion p l).
Proof.
  revert i. induction l as [|x l IH]; intros i Hi; simpl.
  - left. split; reflexivity.
  - destruct (p x) eqn:E.
    + right. simpl. split; [lia | reflexivity].
    + destruct (IH (i + 1) ltac:(lia)) as [[Hf Hd]|[Hf Hd]].
      * left. split; [exact Hf | now rewrite Hd].
      * right. simpl. split; [rewrite Hf; lia | now rewrite Hd].
Qed.

(** [findIndex] with [slice] cuts the table in front of the first total
    row. *)
Lemma slice_before_total (p : SheetRow -> bool) (l : list SheetRow) :
  (if 0 <=? findIndex p l then slice0 l (findIndex p l) else l)
  = dataRegion p l.
Proof.
  unfold findIndex, slice0.
  destruct (findIndexFrom_dataRegion p l 0 ltac:(lia)) as [[Hf Hd]|[Hf Hd]].
  - rewrite Hf. simpl. now rewrite Hd.
  - rewrite Hf. simpl.
    destruct (0 <=? Z.of_nat (List.length (dataRegion p l))) eqn:E.
    + now rewrite Nat2Z.id.
    + apply Z.leb_gt in E. lia.
Qed.

Lemma field_of_hasSite (siteColumn fallback : jsstring) (row : SheetRow) :
  hasSite siteColumn row = true ->
  field row siteColumn fallback = field row siteColumn [].
Proof.
  unfold hasSite, field.
  destruct (getProp row siteColumn); simpl; try reflexivity; discriminate.
Qed.

Lemma getProp_absent (row : SheetRow) (key : jsstring) :
  ~ In key (Object_keys row) -> getProp row key = Undefined.
Proof.
  induction row as [|[k0 v0] row IH]; simpl; intros Hn; [reflexivity|].
  unfold JsStr.eqb. destruct (list_eq_dec N.eq_dec k0 key) as [->|Hne].
  - exfalso. apply Hn. now left.
  - apply IH. intros Hin. apply Hn. now right.
Qed.

Lemma toPortfolioUnits_length (rows : list SheetRow) :
  List.length (toPortfolioUnits rows) = List.length (keptRows rows).
Proof.
  destruct rows as [|row0 rows']; [reflexivity|].
  unfold toPortfolioUnits, keptRows, mapi.
  rewrite mapiFrom_length, slice_before_total. reflexivity.
Qed.

Lemma toPortfolioUnits_sites (rows : list SheetRow) :
  List.map site (toPortfolioUnits rows)
  = List.map (siteText (siteColumnOf rows)) (keptRows rows).
Proof.
  destruct rows as [|row0 rows']; [reflexivity|].
  unfold toPortfolioUnits, keptRows, mapi.
  rewrite map_mapiFrom, slice_before_total. simpl site.
  apply mapiFrom_ext_in.
  intros row k Hin. apply filter_In in Hin. destruct Hin as [_ Hs].
  unfold siteText. now apply field_of_hasSite.
Qed.

Lemma keptRows_nonblank (rows : list SheetRow) :
  Forall (fun row => JsStr.trim (siteText (siteColumnOf rows) row) <> [])
         (keptRows rows).
Proof.
  apply Forall_forall. intros row Hin.
  apply filter_In in Hin. destruct Hin as [_ Hs].
  unfold hasSite in Hs. unfold siteText. intros E. rewrite E in Hs.
  discriminate.
Qed.
End RowFacts.

Section RowClaims.
Context `{JSBuiltins}.
Import Portfolio.

Lemma dataRegion_until (p : SheetRow -> bool) (data rest : list SheetRow)
      (total : SheetRow) :
  Forall (fun row => p row = false) data -> p total = true ->
  dataRegion p (data ++ total :: rest) = data.
Proof.
  intros Hdata Htotal. induction Hdata as [|row data Hrow _ IH]; simpl.
  - now rewrite Htotal.
  - now rewrite Hrow, IH.
Qed.

Lemma dataRegion_all (p : SheetRow -> bool) (rows : list SheetRow) :
  (forall row, In row rows -> p row = false) -> dataRegion p rows = rows.
Proof.
  induction rows as [|row rows IH]; intros Hall; simpl; [reflexivity|].
  rewrite (Hall row (or_introl eq_refl)). f_equal.
  apply IH. intros r Hr. apply Hall. now right.
Qed.

Lemma filter_all (p : SheetRow -> bool) (rows : list SheetRow) :
  Forall (fun row => p row = true) rows -> filter p rows = rows.
Proof.
  induction 1 as [|row rows Hrow _ IH]; simpl; [reflexivity|].
  now rewrite Hrow, IH.
Qed.

Lemma filter_none (p : SheetRow -> bool) (rows : list SheetRow) :
  Forall (fun row => p row = false) rows -> filter p rows = [].
Proof.
  induction 1 as [|row rows Hrow _ IH]; simpl; [reflexivity|].
  now rewrite Hrow.
Qed.

Lemma units_nonblank (rows : list SheetRow) :
  Forall (fun unit => JsStr.trim (site unit) <> []) (toPortfolioUnits rows).
Proof.
  apply (proj1 (Forall_map site (fun s => JsStr.trim s <> []) _)).
  rewrite toPortfolioUnits_sites.
  apply (proj2 (Forall_map _ (fun s => JsStr.trim s <> []) _)).
  apply keptRows_nonblank.
Qed.

(** C6.  [toPortfolioUnits] drops the first row whose site field, with all
    whitespace removed, contains "합계" together with every row after it, and
    drops every row whose site field is blank; the units are the remaining
    rows in order, each with the text of its site field.  When the rows in
    front of the total row all have a site, the units are exactly those rows
    (five data rows and a total row give five units); when there is no total
    row, every row with a non-blank site is kept. *)
Theorem row_filtering (rows : list SheetRow) :
  let siteColumn := siteColumnOf rows in
  List.map site (toPortfolioUnits rows)
  = List.map (siteText siteColumn) (keptRows rows)
  /\ List.length (toPortfolioUnits rows) = List.length (keptRows rows)
  /\ (forall data total rest,
         rows = data ++ total :: rest ->
         Forall (fun row => isSumRow siteColumn row = false) data ->
         isSumRow siteColumn total = true ->
         List.map site (toPortfolioUnits rows)
         = List.map (siteText siteColumn) (filter (hasSite siteColumn) data)
         /\ (Forall (fun row => hasSite siteColumn row = true) data ->
             List.map site (toPortfolioUnits rows)
             = List.map (siteText siteColumn) data
             /\ List.length (toPortfolioUnits rows) = List.length data))
  /\ ((forall row, In row rows -> isSumRow siteColumn row = false) ->
      List.map site (toPortfolioUnits rows)
      = List.map (siteText siteColumn) (filter (hasSite siteColumn) rows)).
Proof.
  intros siteColumn.
  split; [apply toPortfolioUnits_sites|].
  split; [apply toPortfolioUnits_length|].
  split.
  - intros data total rest Hrows Hdata Htotal.
    assert (Hkept : keptRows rows = filter (hasSite siteColumn) data).
    { unfold keptRows. fold siteColumn. rewrite Hrows at 1.
      now rewrite dataRegion_until. }
    split.
    + rewrite toPortfolioUnits_sites. fold siteColumn. now rewrite Hkept.
    + intros Hsite. rewrite (filter_all _ _ Hsite) in Hkept. split.
      * rewrite toPortfolioUnits_sites. fold siteColumn. now rewrite Hkept.
      * rewrite toPortfolioUnits_length. now rewrite Hkept.
  - intros Hnone. rewrite toPortfolioUnits_sites. fold siteColumn.
    unfold keptRows. fold siteColumn. now rewrite dataRegion_all.
Qed.

(** C3, as the code has it.  When the site column cannot be resolved, and no
    row has a property named by the empty string, [toPortfolioUnits] returns
    no unit at all: every row reads a blank site and is dropped.  Whatever the
    table, each unit that is produced carries the text of the site field of
    its row, which is not blank. *)
Theorem unresolved_site_column (rows : list SheetRow)
        (Hsite : siteColumnOf rows = [])
        (Hkeys : Forall (fun row => ~ In [] (Object_keys row)) rows) :
  toPortfolioUnits rows = []
  /\ (forall rows' : list SheetRow,
         List.map site (toPortfolioUnits rows')
         = List.map (siteText (siteColumnOf rows')) (keptRows rows')
         /\ Forall (fun unit => JsStr.trim (site unit) <> [])
                   (toPortfolioUnits rows')).
Proof.
  split.
  - apply length_zero_iff_nil. rewrite toPortfolioUnits_length.
    unfold keptRows. rewrite Hsite.
    assert (Hblank : Forall (fun row => hasSite [] row = false) rows).
    { eapply Forall_impl; [|exact Hkeys]. intros row Hrow.
      unfold hasSite, field. now rewrite (getProp_absent _ _ Hrow). }
    assert (Hsub : forall p l, Forall (fun row => hasSite [] row = false) l ->
                               filter (hasSite []) (dataRegion p l) = []).
    { intros p l Hl. induction Hl as [|row l Hrow _ IH]; simpl; [reflexivity|].
      destruct (p row); simpl; [reflexivity|]. now rewrite Hrow. }
    now rewrite Hsub.
  - intros rows'. split; [apply toPortfolioUnits_sites | apply units_nonblank].
Qed.
End RowClaims.

(** Evaluation of [row_filtering] on five data rows followed by a total
    row, and on rows without a total row. *)
Lemma row_filtering_witness :
  List.length (Portfolio.toPortfolioUnits (H := Sample.builtins)
                                          RowFixtures.fivePlusTotal) = 5%nat
  /\ List.map Portfolio.site
              (Portfolio.toPortfolioUnits (H := Sample.builtins)
                                          RowFixtures.noTotal)
     = [js "A동 101호"; js "B동 201호"].
Proof.
  split.
  - refine (proj2 (proj2 (proj1 (proj2 (proj2
              (row_filtering (H := Sample.builtins) RowFixtures.fivePlusTotal)))
              (firstn 5 RowFixtures.fivePlusTotal)
              (RowFixtures.siteRow "합 계") [] eq_refl _ _) _)).
    + repeat constructor.
    + reflexivity.
    + repeat constructor.
  - refine (proj2 (proj2 (proj2
              (row_filtering (H := Sample.builtins) RowFixtures.noTotal))) _).
    intros row [<-|[<-|[<-|[]]]]; reflexivity.
Defined.

(** Evaluation of [unresolved_site_column] on a table none of whose labels
    names the site. *)
Lemma unresolved_site_column_witness :
  siteColumnOf (H := Sample.builtins) RowFixtures.noSiteColumn = []
  /\ Portfolio.toPortfolioUnits (H := Sample.builtins) RowFixtures.noSiteColumn
     = [].
Proof.
  split; [reflexivity|].
  refine (proj1 (unresolved_site_column (H := Sample.builtins)
                   RowFixtures.noSiteColumn eq_refl _)).
  repeat constructor; simpl; intros [E|[E|[]]]; discriminate E.
Defined.

(** C3 as stated fails: in a table of two data rows none of whose labels
    names the site, the site column resolves to nothing and no row is kept. *)
Lemma unresolved_site_column_counterexample :
  Portfolio.findLikelyColumn (H := Sample.builtins)
    (Object_keys (hd [] RowFixtures.noSiteColumn)) siteKeys = []
  /\ List.length RowFixtures.noSiteColumn = 2%nat
  /\ Portfolio.toPortfolioUnits (H := Sample.builtins) RowFixtures.noSiteColumn
     = []
  /\ List.length (Portfolio.toPortfolioUnits (H := Sample.builtins)
                                             RowFixtures.noSiteColumn)
     <> List.length RowFixtures.noSiteColumn.
Proof.
  split; [reflexivity|].
  split; [reflexivity|].
  split; [reflexivity|].
  simpl. discriminate.
Qed.

(** ** The date pattern *)

Section RegexFacts.
Import Regex.

Lemma run_bound (it : item) (h : nat) (s : jsstring) (k : nat) :
  hi it = Some h -> (k <= h)%nat -> (run it s k <= h)%nat.
Proof.
  intros Hh. revert k. induction s as [|u s IH]; intros k Hk; simpl; [exact Hk|].
  destruct (cls it u); simpl; [|exact Hk].
  rewrite Hh. simpl. destruct (k <? h)%nat eqn:E; [|exact Hk].
  apply IH. apply Nat.ltb_lt in E. lia.
Qed.

Lemma run_prefix (it : item) (s : jsstring) (k j : nat) :
  (k + j <= run it s k)%nat -> Forall (fun u => cls it u = true) (firstn j s).
Proof.
  revert k j. induction s as [|u s IH]; intros k j Hj.
  - rewrite firstn_nil. constructor.
  - destruct j as [|j]; [constructor|].
    simpl in Hj. simpl.
    destruct (cls it u) eqn:Eu; simpl in Hj; [|lia].
    destruct (within k (hi it)); [|lia].
    constructor; [exact Eu|]. apply (IH (S k)). lia.
Qed.

Lemma tryDown_some {R : Type} (g : nat -> option R) (base extra : nat) (r : R) :
  tryDown g base extra = Some r ->
  exists k, (base <= k <= base + extra)%nat /\ g k = Some r.
Proof.
  induction extra as [|extra IH]; simpl.
  - destruct (g (base + 0)%nat) eqn:E; [|discriminate].
    intros [= <-]. exists (base + 0)%nat. split; [lia | exact E].
  - destruct (g (base + S extra)%nat) eqn:E.
    + intros [= <-]. exists (base + S extra)%nat. split; [lia | exact E].
    + intros Hr. destruct (IH Hr) as (k & Hk & Hg).
      exists k. split; [lia | exact Hg].
Qed.

Lemma run_le (it : item) (s : jsstring) (k : nat) :
  (run it s k <= k + List.length s)%nat.
Proof.
  revert k. induction s as [|u s IH]; intros k; simpl; [lia|].
  destruct (cls it u && within k (hi it)); [|lia].
  specialize (IH (S k)). lia.
Qed.

Lemma matchHere_pieces (items : list item) (s : jsstring)
      (pieces : list jsstring) :
  matchHere items s = Some pieces -> Forall2 Consumed items pieces.
Proof.
  revert s pieces. induction items as [|it rest IH]; intros s pieces; simpl.
  - intros [= <-]. constructor.
  - destruct (run it s 0 <? lo it)%nat eqn:El; [discriminate|].
    apply Nat.ltb_ge in El. intros Hm.
    apply tryDown_some in Hm. destruct Hm as (k & Hk & Hg).
    destruct (matchHere rest (skipn k s)) as [pieces'|] eqn:Er; [|discriminate].
    injection Hg as <-.
    assert (Hkn : (k <= run it s 0)%nat) by lia.
    assert (Hpre : Forall (fun u => cls it u = true) (firstn k s))
      by (apply (run_prefix it s 0 k); lia).
    assert (Hlen := run_le it s 0).
    constructor; [|exact (IH _ _ Er)].
    split; [exact Hpre|]. rewrite length_firstn. split; [lia|].
    destruct (hi it) as [h|] eqn:Eh; [|exact I].
    assert (Hb := run_bound it h s 0 Eh ltac:(lia)). lia.
Qed.

Lemma search_pieces (items : list item) (s : jsstring) (pieces : list jsstring) :
  search items s = Some pieces -> Forall2 Consumed items pieces.
Proof.
  induction s as [|u s IH]; simpl.
  - destruct (matchHere items []) eqn:E; [|discriminate].
    intros [= <-]. exact (matchHere_pieces _ _ _ E).
  - destruct (matchHere items (u :: s)) eqn:E.
    + intros [= <-]. exact (matchHere_pieces _ _ _ E).
    + exact IH.
Qed.
End RegexFacts.

(** ** Dates *)

Section DateFacts.
Import Portfolio.

Lemma digit_range (u : N) :
  JsStr.isDigit u = true -> 0 <= Z.of_N u - 48 <= 9.
Proof.
  unfold JsStr.isDigit. rewrite andb_true_iff, !N.leb_le. lia.
Qed.

Lemma digitsValue_bound4 (ds : jsstring) :
  Forall (fun u => JsStr.isDigit u = true) ds -> (List.length ds <= 4)%nat ->
  0 <= Num.digitsValue 0 ds <= 9999.
Proof.
  intros Hd Hl.
  destruct ds as [|d1 [|d2 [|d3 [|d4 [|d5 ds]]]]]; simpl in Hl; try lia;
    repeat match goal with
           | Hf : Forall _ (_ :: _) |- _ =>
             let Hu := fresh "Hu" in
             inversion Hf as [|? ? Hu ?]; subst; clear Hf;
             apply digit_range in Hu
           end;
    cbn [Num.digitsValue]; lia.
Qed.

Lemma digitsValue_bound2 (ds : jsstring) :
  Forall (fun u => JsStr.isDigit u = true) ds -> (List.length ds <= 2)%nat ->
  0 <= Num.digitsValue 0 ds <= 99.
Proof.
  intros Hd Hl.
  destruct ds as [|d1 [|d2 [|d3 ds]]]; simpl in Hl; try lia;
    repeat match goal with
           | Hf : Forall _ (_ :: _) |- _ =>
             let Hu := fresh "Hu" in
             inversion Hf as [|? ? Hu ?]; subst; clear Hf;
             apply digit_range in Hu
           end;
    cbn [Num.digitsValue]; lia.
Qed.

Lemma MakeDay_bound (year month date : Z) :
  100 <= year <= 9999 -> -1 <= month <= 98 -> 0 <= date <= 99 ->
  -100000000 <= JsDate.MakeDay year month date <= 100000000.
Proof.
  intros Hy Hm Hd. unfold JsDate.MakeDay, JsDate.daysFromCivil.
  destruct (month mod 12 + 1 <=? 2); destruct (2 <? month mod 12 + 1);
    Z.to_euclidean_division_equations; lia.
Qed.

(** For components in the range of the captured groups the constructor
    always yields a valid date: nothing is rejected. *)
Lemma construct_valid (year month date : Z) :
  100 <= year <= 9999 -> -1 <= month <= 98 -> 0 <= date <= 99 ->
  JsDate.construct year month date
  = Some (JsDate.MakeDay year month date * JsDate.msPerDay).
Proof.
  intros Hy Hm Hd. unfold JsDate.construct, JsDate.TimeClip.
  assert (E : (0 <=? year) && (year <=? 99) = false).
  { apply andb_false_iff. right. apply Z.leb_gt. lia. }
  rewrite E.
  pose proof (MakeDay_bound year month date Hy Hm Hd) as Hb.
  unfold JsDate.msPerDay.
  destruct (Z.abs (JsDate.MakeDay year month date * 86400000)
            <=? 8640000000000000) eqn:Ec; [reflexivity|].
  apply Z.leb_gt in Ec. lia.
Qed.

(** [parseKoreanDate] returns a date for every string in which the pattern
    is found, whatever the month and day read. *)
Lemma parseKoreanDate_of_match (raw : jsstring) (pieces : list jsstring) :
  Regex.search koreanDatePattern raw = Some pieces ->
  exists time, parseKoreanDate raw = Some time.
Proof.
  intros Hs. unfold parseKoreanDate. rewrite Hs.
  apply search_pieces in Hs. unfold koreanDatePattern in Hs.
  inversion Hs as [|? g1 ? ? [Hd1 [_ Hl1]] Hs1]; subst. clear Hs.
  inversion Hs1 as [|? n1 ? ? _ Hs2]; subst. clear Hs1.
  inversion Hs2 as [|? g2 ? ? [Hd2 [_ Hl2]] Hs3]; subst. clear Hs2.
  inversion Hs3 as [|? n2 ? ? _ Hs4]; subst. clear Hs3.
  inversion Hs4 as [|? g3 ? ? [Hd3 [_ Hl3]] Hs5]; subst. clear Hs4.
  inversion Hs5; subst. clear Hs5.
  simpl in Hd1, Hl1, Hd2, Hl2, Hd3, Hl3.
  pose proof (digitsValue_bound4 g1 Hd1 Hl1) as B1.
  pose proof (digitsValue_bound2 g2 Hd2 Hl2) as B2.
  pose proof (digitsValue_bound2 g3 Hd3 Hl3) as B3.
  eexists. apply construct_valid; [|lia|lia].
  destruct (Num.digitsValue 0 g1 <? 100) eqn:E.
  - apply Z.ltb_lt in E. lia.
  - apply Z.ltb_ge in E. lia.
Qed.
End DateFacts.

(** ** Calendar arithmetic *)

Section DateRoundTrip.
Import JsDate.

Lemma civil_bounds (doe : Z) :
  0 <= doe <= 146096 ->
  let yoe := (doe - doe / 1460 + doe / 36524 - doe / 146096) / 365 in
  let doy := doe - (365 * yoe + yoe / 4 - yoe / 100) in
  0 <= yoe <= 399 /\ 0 <= doy <= 365.
Proof.
  intros Hd yoe doy. unfold doy, yoe.
  Z.to_euclidean_division_equations. lia.
Qed.

Lemma daysFromCivil_civilFromDays (z : Z) :
  let '(y, m, d) := civilFromDays z in
  daysFromCivil y m d = z /\ 1 <= m <= 12.
Proof.
  unfold civilFromDays.
  set (z' := z + 719468).
  set (era := z' / 146097).
  set (doe := z' - era * 146097).
  assert (Hdoe : 0 <= doe <= 146096).
  { unfold doe, era. Z.to_euclidean_division_equations. lia. }
  pose proof (civil_bounds doe Hdoe) as Hb. cbv zeta in Hb.
  set (yoe := (doe - doe / 1460 + doe / 36524 - doe / 146096) / 365) in *.
  set (doy := doe - (365 * yoe + yoe / 4 - yoe / 100)) in *.
  destruct Hb as [Hyoe Hdoy].
  set (mp := (5 * doy + 2) / 153).
  assert (Hmp : 0 <= mp <= 11).
  { unfold mp. Z.to_euclidean_division_equations. lia. }
  unfold daysFromCivil.
  destruct (mp <? 10) eqn:E10.
  - apply Z.ltb_lt in E10.
    assert (E1 : (mp + 3 <=? 2) = false) by (apply Z.leb_gt; lia).
    assert (E2 : (2 <? mp + 3) = true) by (apply Z.ltb_lt; lia).
    rewrite E1, E2. split; [|lia].
    replace (yoe + era * 400 + 0) with (yoe + era * 400) by lia.
    assert (Hera : (yoe + era * 400) / 400 = era).
    { Z.to_euclidean_division_equations. lia. }
    rewrite Hera.
    replace (yoe + era * 400 - era * 400) with yoe by lia.
    replace (mp + 3 + -3) with mp by lia.
    unfold doy, doe, z'. lia.
  - apply Z.ltb_ge in E10.
    assert (E1 : (mp - 9 <=? 2) = true) by (apply Z.leb_le; lia).
    assert (E2 : (2 <? mp - 9) = false) by (apply Z.ltb_ge; lia).
    rewrite E1, E2. split; [|lia].
    replace (yoe + era * 400 + 1 - 1) with (yoe + era * 400) by lia.
    assert (Hera : (yoe + era * 400) / 400 = era).
    { Z.to_euclidean_division_equations. lia. }
    rewrite Hera.
    replace (yoe + era * 400 - era * 400) with yoe by lia.
    replace (mp - 9 + 9) with mp by lia.
    unfold doy, doe, z'. lia.
Qed.

(** Rebuilding a date from its year, month index and day gives the day it
    lies in. *)
Lemma MakeDay_fields (t : Z) :
  MakeDay (getFullYear t) (getMonth t) (getDate t) = Day t.
Proof.
  unfold getFullYear, getMonth, getDate, MakeDay.
  pose proof (daysFromCivil_civilFromDays (Day t)) as Hr.
  destruct (civilFromDays (Day t)) as [[y m] d]. simpl.
  destruct Hr as [Hr Hm].
  assert (Hq : (m - 1) / 12 = 0) by (Z.to_euclidean_division_equations; lia).
  assert (Hmod : (m - 1) mod 12 = m - 1)
    by (Z.to_euclidean_division_equations; lia).
  rewrite Hq, Hmod.
  replace (y + 0) with y by lia. replace (m - 1 + 1) with m by lia.
  rewrite <- Hr. unfold daysFromCivil. lia.
Qed.

Lemma construct_fields (t : Z) :
  Z.abs t <= 8640000000000000 -> 100 <= getFullYear t ->
  construct (getFullYear t) (getMonth t) (getDate t) = Some (Day t * msPerDay).
Proof.
  intros Ht Hy. unfold construct.
  assert (E : (0 <=? getFullYear t) && (getFullYear t <=? 99) = false).
  { apply andb_false_iff. right. apply Z.leb_gt. lia. }
  rewrite E, MakeDay_fields. unfold TimeClip, Day, msPerDay.
  destruct (Z.abs (t / 86400000 * 86400000) <=? 8640000000000000) eqn:Ec;
    [reflexivity|].
  apply Z.leb_gt in Ec. Z.to_euclidean_division_equations. lia.
Qed.
Lemma construct_range (year month date t : Z) :
  construct year month date = Some t -> Z.abs t <= 8640000000000000.
Proof.
  unfold construct, TimeClip.
  destruct (Z.abs _ <=? 8640000000000000) eqn:E; [|discriminate].
  intros [= <-]. now apply Z.leb_le.
Qed.
(** The years from 100 on begin on day -683003. *)
Lemma year_ge_100 (z : Z) :
  100 <= fst (fst (JsDate.civilFromDays z)) <-> -683003 <= z.
Proof.
  unfold JsDate.civilFromDays.
  set (z' := z + 719468).
  set (era := z' / 146097).
  set (doe := z' - era * 146097).
  assert (Hdoe : 0 <= doe <= 146096).
  { unfold doe, era. Z.to_euclidean_division_equations. lia. }
  set (yoe := (doe - doe / 1460 + doe / 36524 - doe / 146096) / 365).
  set (doy := doe - (365 * yoe + yoe / 4 - yoe / 100)).
  assert (Hb : 0 <= yoe <= 399 /\ 0 <= doy <= 365).
  { unfold doy, yoe. Z.to_euclidean_division_equations. lia. }
  set (mp := (5 * doy + 2) / 153).
  cbn [fst].
  destruct (mp <? 10) eqn:E10.
  - apply Z.ltb_lt in E10.
    assert (E1 : (mp + 3 <=? 2) = false).
    { apply Z.leb_gt. unfold mp. Z.to_euclidean_division_equations. lia. }
    rewrite E1.
    unfold mp, doy, yoe, doe, era, z' in *.
    Z.to_euclidean_division_equations. lia.
  - apply Z.ltb_ge in E10.
    assert (E1 : (mp - 9 <=? 2) = true).
    { apply Z.leb_le. unfold mp. Z.to_euclidean_division_equations. lia. }
    rewrite E1.
    unfold mp, doy, yoe, doe, era, z' in *.
    Z.to_euclidean_division_equations. lia.
Qed.

End DateRoundTrip.

(** ** Renewal alerts *)

Section AlertFacts.
Import Portfolio.

Lemma alertsOfUnit_eq (today : Z) (unit : PortfolioUnit) :
  alertsOfUnit today unit
  = dueAlert today (contractRenewalRaw unit) (contractAlert unit)
    ++ dueAlert today (loanRenewalRaw unit) (loanAlert unit).
Proof. reflexivity. Qed.

Lemma In_dueAlert (today : Z) (raw : jsstring) (mk : Z -> RenewalAlert)
      (a : RenewalAlert) :
  In a (dueAlert today raw mk) <-> exists days, Due today raw days /\ a = mk days.
Proof.
  unfold dueAlert, Due. split.
  - destruct (calculateDaysLeft today raw) as [d|]; [|intros []].
    destruct ((0 <=? d) && (d <=? 120)) eqn:E; [|intros []].
    apply andb_true_iff in E. destruct E as [E1 E2].
    apply Z.leb_le in E1. apply Z.leb_le in E2.
    intros [<-|[]]. exists d. split; [split; [reflexivity | lia] | reflexivity].
  - intros (d & [Hc [H0 H1]] & ->). rewrite Hc.
    apply Z.leb_le in H0. apply Z.leb_le in H1. rewrite H0, H1. now left.
Qed.

Lemma In_pushedAlerts (today : Z) (units : list PortfolioUnit)
      (a : RenewalAlert) :
  In a (pushedAlerts today units)
  <-> exists unit days,
      In unit units
      /\ ((Due today (contractRenewalRaw unit) days /\ a = contractAlert unit days)
          \/ (Due today (loanRenewalRaw unit) days /\ a = loanAlert unit days)).
Proof.
  unfold pushedAlerts. rewrite in_flat_map. split.
  - intros (unit & Hin & Ha). rewrite alertsOfUnit_eq in Ha.
    apply in_app_or in Ha. destruct Ha as [Ha|Ha];
      apply In_dueAlert in Ha; destruct Ha as (d & Hd & ->);
      exists unit, d; split; auto.
  - intros (unit & d & Hin & Hcase). exists unit. split; [exact Hin|].
    rewrite alertsOfUnit_eq. apply in_or_app.
    destruct Hcase as [[Hd ->]|[Hd ->]]; [left|right];
      apply In_dueAlert; now exists d.
Qed.

Lemma parseKoreanDate_range (raw : jsstring) (parsed : Z) :
  parseKoreanDate raw = Some parsed -> Z.abs parsed <= 8640000000000000.
Proof.
  unfold parseKoreanDate.
  destruct (Regex.search koreanDatePattern raw)
    as [[|g1 [|n1 [|g2 [|n2 [|g3 [|extra rest]]]]]]|]; try discriminate.
  apply construct_range.
Qed.

(** The days left are the whole days between the day of [today] and the
    day of the parsed date. *)
Lemma calculateDaysLeft_days (today : Z) (raw : jsstring) (parsed : Z) :
  Z.abs today <= 8640000000000000 -> 100 <= JsDate.getFullYear today ->
  parseKoreanDate raw = Some parsed -> 100 <= JsDate.getFullYear parsed ->
  calculateDaysLeft today raw = Some (JsDate.Day parsed - JsDate.Day today).
Proof.
  intros Ht Hty Hp Hpy. unfold calculateDaysLeft. rewrite Hp.
  rewrite (construct_fields today Ht Hty).
  rewrite (construct_fields parsed (parseKoreanDate_range _ _ Hp) Hpy).
  f_equal. unfold JsDate.msPerDay.
  rewrite <- Z.mul_sub_distr_r. apply Z.div_mul. discriminate.
Qed.

(** Dates that are valid parse as they read: the year, the month index
    and the day of "2025년 3월 5일" are 2025, 2 (March) and 5, and a year of two
    digits is read in the 2000s. *)
Lemma parseKoreanDate_examples :
  List.map (fun raw =>
              option_map (fun t => (JsDate.getFullYear t, JsDate.getMonth t,
                                    JsDate.getDate t))
                         (parseKoreanDate (js raw)))
           ["2025년 3월 5일"; "갱신일 26/1/1"; "2024.02.29"; "미정"; "2025-123-4"]%string
  = [Some (2025, 2, 5); Some (2026, 0, 1); Some (2024, 1, 29); None; None].
Proof. vm_compute. reflexivity. Qed.

(** C2.  The date parser does not reject a date whose month or day is out
    of range: "2025-13-05" parses to 5 January 2026 and "2026-01-32" to
    1 February 2026, so [calculateDaysLeft] returns a number for them and
    [buildRenewalAlerts] produces alerts for both; more generally
    [parseKoreanDate] returns a date for every string in which the pattern is
    found. *)
Theorem invalid_date_wraps :
  parseKoreanDate (js "2025-13-05") = JsDate.construct 2026 0 5
  /\ option_map (fun t => (JsDate.getFullYear t, JsDate.getMonth t, JsDate.getDate t))
                (parseKoreanDate (js "2025-13-05"))
     = Some (2026, 0, 5)
  /\ option_map (fun t => (JsDate.getFullYear t, JsDate.getMonth t, JsDate.getDate t))
                (parseKoreanDate (js "2026-01-32"))
     = Some (2026, 1, 1)
  /\ calculateDaysLeft AlertFixtures.today (js "2025-13-05") = Some 4
  /\ calculateDaysLeft AlertFixtures.today (js "2026-01-32") = Some 31
  /\ buildRenewalAlerts AlertFixtures.today [AlertFixtures.invalidUnit]
     = [contractAlert AlertFixtures.invalidUnit 4;
        loanAlert AlertFixtures.invalidUnit 31]
  /\ (forall raw,
         match Regex.search koreanDatePattern raw with
         | Some _ => exists time, parseKoreanDate raw = Some time
         | None => parseKoreanDate raw = None
         end).
Proof.
  repeat (split; [vm_compute; reflexivity|]).
  intros raw. destruct (Regex.search koreanDatePattern raw) as [pieces|] eqn:E.
  - exact (parseKoreanDate_of_match raw pieces E).
  - unfold parseKoreanDate. now rewrite E.
Qed.
End AlertFacts.

(** ** Renewal alerts in a time zone *)

Section ZonedDates.
Import Portfolio.

Lemma fields_range (t : Z) :
  0 <= JsDate.getMonth t <= 11 /\ 1 <= JsDate.getDate t <= 31.
Proof.
  unfold JsDate.getMonth, JsDate.getDate, JsDate.civilFromDays.
  set (z' := JsDate.Day t + 719468).
  set (era := z' / 146097).
  set (doe := z' - era * 146097).
  assert (Hdoe : 0 <= doe <= 146096).
  { unfold doe, era. Z.to_euclidean_division_equations. lia. }
  pose proof (civil_bounds doe Hdoe) as Hb. cbv zeta in Hb.
  set (yoe := (doe - doe / 1460 + doe / 36524 - doe / 146096) / 365) in *.
  set (doy := doe - (365 * yoe + yoe / 4 - yoe / 100)) in *.
  destruct Hb as [_ Hdoy]. clearbody doy.
  cbn [fst snd].
  destruct ((5 * doy + 2) / 153 <? 10) eqn:E10;
    [apply Z.ltb_lt in E10 | apply Z.ltb_ge in E10];
    Z.to_euclidean_division_equations; lia.
Qed.

Lemma year_range (z : Z) :
  -700000 <= z <= 3000000 ->
  0 <= fst (fst (JsDate.civilFromDays z)) <= 10500.
Proof.
  intros Hz. unfold JsDate.civilFromDays.
  set (z' := z + 719468).
  set (era := z' / 146097).
  set (doe := z' - era * 146097).
  assert (Hdoe : 0 <= doe <= 146096).
  { unfold doe, era. Z.to_euclidean_division_equations. lia. }
  set (yoe := (doe - doe / 1460 + doe / 36524 - doe / 146096) / 365).
  set (doy := doe - (365 * yoe + yoe / 4 - yoe / 100)).
  assert (Hb : 0 <= yoe <= 399 /\ 0 <= doy <= 365).
  { unfold doy, yoe. Z.to_euclidean_division_equations. lia. }
  assert (Hera : 0 <= era <= 25).
  { unfold era, z'. Z.to_euclidean_division_equations. lia. }
  cbn [fst].
  destruct ((5 * doy + 2) / 153 <? 10);
    [destruct ((5 * doy + 2) / 153 + 3 <=? 2)
    | destruct ((5 * doy + 2) / 153 - 9 <=? 2)];
    unfold era, z' in *; lia.
Qed.

Lemma MakeDay_tight (year month date : Z) :
  100 <= year <= 10500 -> -1 <= month <= 98 -> 0 <= date <= 99 ->
  -700000 <= JsDate.MakeDay year month date <= 4000000.
Proof.
  intros Hy Hm Hd. unfold JsDate.MakeDay, JsDate.daysFromCivil.
  destruct (month mod 12 + 1 <=? 2); destruct (2 <? month mod 12 + 1);
    Z.to_euclidean_division_equations; lia.
Qed.

Lemma MakeDay_parsed (year month date : Z) :
  100 <= year <= 9999 -> -1 <= month <= 98 -> 0 <= date <= 99 ->
  -700000 <= JsDate.MakeDay year month date <= 3000000.
Proof.
  intros Hy Hm Hd. unfold JsDate.MakeDay, JsDate.daysFromCivil.
  destruct (month mod 12 + 1 <=? 2); destruct (2 <? month mod 12 + 1);
    Z.to_euclidean_division_equations; lia.
Qed.

(** A date built from components in the range of a calendar date is valid
    and far from the limits of the time values. *)
Lemma construct_bounded (year month date : Z) :
  0 <= year <= 10500 -> -1 <= month <= 98 -> 0 <= date <= 99 ->
  exists t, JsDate.construct year month date = Some t
            /\ Z.abs t <= 4000000 * JsDate.msPerDay.
Proof.
  intros Hy Hm Hd. unfold JsDate.construct.
  set (yr := if (0 <=? year) && (year <=? 99) then 1900 + year else year).
  assert (Hyr : 100 <= yr <= 10500).
  { unfold yr. destruct (Z.leb_spec 0 year); destruct (Z.leb_spec year 99);
      cbn [andb]; lia. }
  pose proof (MakeDay_tight yr month date Hyr Hm Hd) as Hb.
  unfold JsDate.TimeClip, JsDate.msPerDay.
  destruct (Z.abs (JsDate.MakeDay yr month date * 86400000)
            <=? 8640000000000000) eqn:Ec.
  - eexists. split; [reflexivity | lia].
  - apply Z.leb_gt in Ec. lia.
Qed.

(** In a zone of fixed offset the constructor gives the local midnight
    moved by the offset. *)
Lemma zoned_construct_fixed (zone : Zoned.TimeZone) (offset : Z)
      (year month date t : Z) :
  FixedOffset zone offset ->
  JsDate.construct year month date = Some t ->
  Z.abs (t - offset) <= 8640000000000000 ->
  Zoned.construct zone year month date = Some (t - offset).
Proof.
  intros [_ Hl] Hc Ht. unfold Zoned.construct, Zoned.UTC. rewrite Hl.
  unfold JsDate.construct in Hc. cbv zeta in *.
  set (local := JsDate.MakeDay _ month date * JsDate.msPerDay) in *.
  clearbody local. unfold JsDate.TimeClip in *.
  destruct (Z.abs local <=? 8640000000000000); [|discriminate].
  assert (E0 : local = t) by congruence. subst local.
  destruct (Z.abs (t - offset) <=? 8640000000000000) eqn:E; [reflexivity|].
  apply Z.leb_gt in E. lia.
Qed.

(** Both parsers read the same components from a date string. *)
Lemma parse_cases (raw : jsstring) :
  (parseKoreanDate raw = None
   /\ forall zone, Zoned.parseKoreanDate zone raw = None)
  \/ exists year month date,
      100 <= year <= 9999 /\ -1 <= month <= 98 /\ 0 <= date <= 99
      /\ parseKoreanDate raw = JsDate.construct year month date
      /\ forall zone,
          Zoned.parseKoreanDate zone raw = Zoned.construct zone year month date.
Proof.
  unfold parseKoreanDate, Zoned.parseKoreanDate.
  destruct (Regex.search koreanDatePattern raw)
    as [[|g1 [|n1 [|g2 [|n2 [|g3 [|extra rest]]]]]]|] eqn:Hs;
    try (left; split; [reflexivity | intros zone; reflexivity]).
  right.
  apply search_pieces in Hs. unfold koreanDatePattern in Hs.
  inversion Hs as [|? ? ? ? [Hd1 [_ Hl1]] Hs1]; subst. clear Hs.
  inversion Hs1 as [|? ? ? ? _ Hs2]; subst. clear Hs1.
  inversion Hs2 as [|? ? ? ? [Hd2 [_ Hl2]] Hs3]; subst. clear Hs2.
  inversion Hs3 as [|? ? ? ? _ Hs4]; subst. clear Hs3.
  inversion Hs4 as [|? ? ? ? [Hd3 [_ Hl3]] Hs5]; subst. clear Hs4.
  simpl in Hd1, Hl1, Hd2, Hl2, Hd3, Hl3.
  pose proof (digitsValue_bound4 g1 Hd1 Hl1) as B1.
  pose proof (digitsValue_bound2 g2 Hd2 Hl2) as B2.
  pose proof (digitsValue_bound2 g3 Hd3 Hl3) as B3.
  eexists _, _, _.
  split; [|split; [|split; [|split; [reflexivity | intros zone; reflexivity]]]];
    [|lia|lia].
  destruct (Num.digitsValue 0 g1 <? 100) eqn:E.
  - apply Z.ltb_lt in E. lia.
  - apply Z.ltb_ge in E. lia.
Qed.

(** A parsed date is a local midnight between the years 99 and 10008. *)
Lemma construct_parsed (year month date : Z) :
  100 <= year <= 9999 -> -1 <= month <= 98 -> 0 <= date <= 99 ->
  exists day, JsDate.construct year month date = Some (day * JsDate.msPerDay)
              /\ -700000 <= day <= 3000000.
Proof.
  intros Hy Hm Hd. exists (JsDate.MakeDay year month date).
  split; [now apply construct_valid | now apply MakeDay_parsed].
Qed.

Lemma parse_fixed (zone : Zoned.TimeZone) (offset : Z) (raw : jsstring) :
  FixedOffset zone offset -> Z.abs offset <= JsDate.msPerDay ->
  Zoned.parseKoreanDate zone raw
  = option_map (fun t => t - offset) (parseKoreanDate raw).
Proof.
  intros Hz Hk.
  destruct (parse_cases raw)
    as [[Hp Hzp]|(year & month & date & Hy & Hm & Hd & Hp & Hzp)].
  - now rewrite Hp, Hzp.
  - destruct (construct_parsed year month date Hy Hm Hd) as (day & Hc & Hday).
    rewrite Hp, Hzp, Hc. cbn [option_map].
    apply (zoned_construct_fixed zone offset _ _ _ _ Hz Hc).
    unfold JsDate.msPerDay in *. lia.
Qed.

(** In a zone of fixed offset the days left are those of the dates read as
    local time: [Portfolio.calculateDaysLeft] at the local time of [now]. *)
Lemma fixed_offset_days_left (zone : Zoned.TimeZone) (offset now : Z)
      (raw : jsstring) :
  FixedOffset zone offset -> Z.abs offset <= JsDate.msPerDay ->
  Z.abs now <= 8640000000000000 ->
  0 <= now + offset <= 8640000000000000 ->
  Zoned.calculateDaysLeft zone now raw = calculateDaysLeft (now + offset) raw.
Proof.
  intros Hz Hk Hnow Hlocal.
  unfold Zoned.calculateDaysLeft, calculateDaysLeft.
  rewrite (parse_fixed zone offset raw Hz Hk).
  destruct (parse_cases raw)
    as [[Hp _]|(year & month & date & Hy & Hm & Hd & Hp & _)];
    [now rewrite Hp|].
  destruct (construct_parsed year month date Hy Hm Hd) as (day & Hc & Hday).
  rewrite Hp, Hc. cbn [option_map].
  unfold Zoned.getFullYear, Zoned.getMonth, Zoned.getDate, Zoned.LocalTime.
  rewrite !(proj1 Hz).
  replace (day * JsDate.msPerDay - offset + offset)
    with (day * JsDate.msPerDay) by lia.
  (* the start of today *)
  assert (Hyear : 100 <= JsDate.getFullYear (now + offset)).
  { unfold JsDate.getFullYear. apply year_ge_100.
    unfold JsDate.Day, JsDate.msPerDay.
    Z.to_euclidean_division_equations. lia. }
  assert (Habs : Z.abs (now + offset) <= 8640000000000000) by lia.
  pose proof (construct_fields (now + offset) Habs Hyear) as Hstart.
  rewrite Hstart.
  rewrite (zoned_construct_fixed zone offset _ _ _ _ Hz Hstart).
  2:{ unfold JsDate.Day, JsDate.msPerDay in *.
      Z.to_euclidean_division_equations. lia. }
  (* the target *)
  pose proof (fields_range (day * JsDate.msPerDay)) as [Hmonth Hdate].
  assert (Hty : 0 <= JsDate.getFullYear (day * JsDate.msPerDay) <= 10500).
  { unfold JsDate.getFullYear, JsDate.Day.
    rewrite Z.div_mul by discriminate. now apply year_range. }
  assert (Hmonth' : -1 <= JsDate.getMonth (day * JsDate.msPerDay) <= 98)
    by lia.
  assert (Hdate' : 0 <= JsDate.getDate (day * JsDate.msPerDay) <= 99) by lia.
  destruct (construct_bounded _ _ _ Hty Hmonth' Hdate')
    as (target & Htarget & Hbound).
  rewrite Htarget.
  rewrite (zoned_construct_fixed zone offset _ _ _ _ Hz Htarget).
  2:{ unfold JsDate.msPerDay in *. lia. }
  do 2 f_equal. lia.
Qed.

Lemma fixed_offset_alerts (zone : Zoned.TimeZone) (offset now : Z)
      (units : list PortfolioUnit) :
  FixedOffset zone offset -> Z.abs offset <= JsDate.msPerDay ->
  Z.abs now <= 8640000000000000 ->
  0 <= now + offset <= 8640000000000000 ->
  Zoned.buildRenewalAlerts zone now units
  = buildRenewalAlerts (now + offset) units.
Proof.
  intros Hz Hk Hnow Hlocal.
  unfold Zoned.buildRenewalAlerts, buildRenewalAlerts,
    Zoned.pushedAlerts, pushedAlerts.
  f_equal. apply flat_map_ext. intros unit.
  unfold Zoned.alertsOfUnit, alertsOfUnit.
  now rewrite !(fixed_offset_days_left zone offset now _ Hz Hk Hnow Hlocal).
Qed.

(** In a zone of fixed offset the days left are the whole days between the
    local day of [now] and the local day of the parsed date. *)
Lemma fixed_offset_whole_days (zone : Zoned.TimeZone) (offset now : Z)
      (raw : jsstring) (parsed : Z) :
  FixedOffset zone offset -> Z.abs offset <= JsDate.msPerDay ->
  Z.abs now <= 8640000000000000 ->
  0 <= now + offset <= 8640000000000000 ->
  Zoned.parseKoreanDate zone raw = Some parsed ->
  100 <= Zoned.getFullYear zone parsed ->
  Zoned.calculateDaysLeft zone now raw
  = Some (JsDate.Day (Zoned.LocalTime zone parsed)
          - JsDate.Day (Zoned.LocalTime zone now)).
Proof.
  intros Hz Hk Hnow Hlocal Hp Hy.
  rewrite (fixed_offset_days_left zone offset now raw Hz Hk Hnow Hlocal).
  rewrite (parse_fixed zone offset raw Hz Hk) in Hp.
  destruct (parseKoreanDate raw) as [local|] eqn:El; [|discriminate].
  injection Hp as <-.
  unfold Zoned.getFullYear, Zoned.LocalTime in *.
  rewrite !(proj1 Hz) in *.
  replace (local - offset + offset) with local in * by lia.
  apply calculateDaysLeft_days; [lia| |exact El|exact Hy].
  unfold JsDate.getFullYear. apply year_ge_100.
  unfold JsDate.Day, JsDate.msPerDay.
  Z.to_euclidean_division_equations. lia.
Qed.

Lemma fixedZone_fixed (offset : Z) : FixedOffset (Zoned.fixedZone offset) offset.
Proof. split; intros t; reflexivity. Qed.

Lemma alertsOfUnit_due (zone : Zoned.TimeZone) (today : Z)
      (unit : PortfolioUnit) :
  Zoned.alertsOfUnit zone today unit
  = dueAlertOf (Zoned.calculateDaysLeft zone today (contractRenewalRaw unit))
               (contractAlert unit)
    ++ dueAlertOf (Zoned.calculateDaysLeft zone today (loanRenewalRaw unit))
                  (loanAlert unit).
Proof. reflexivity. Qed.

Lemma In_dueAlertOf (days : option Z) (mk : Z -> RenewalAlert)
      (a : RenewalAlert) :
  In a (dueAlertOf days mk)
  <-> exists d, days = Some d /\ 0 <= d <= 120 /\ a = mk d.
Proof.
  unfold dueAlertOf. split.
  - destruct days as [d|]; [|intros []].
    destruct ((0 <=? d) && (d <=? 120)) eqn:E; [|intros []].
    apply andb_true_iff in E. destruct E as [E1 E2].
    apply Z.leb_le in E1. apply Z.leb_le in E2.
    intros [<-|[]]. exists d. split; [reflexivity|]. split; [lia | reflexivity].
  - intros (d & -> & [H0 H1] & ->).
    apply Z.leb_le in H0. apply Z.leb_le in H1. rewrite H0, H1. now left.
Qed.

Lemma In_zoned_pushed (zone : Zoned.TimeZone) (today : Z)
      (units : list PortfolioUnit) (a : RenewalAlert) :
  In a (Zoned.pushedAlerts zone today units)
  <-> exists unit days,
      In unit units /\ 0 <= days <= 120
      /\ ((Zoned.calculateDaysLeft zone today (contractRenewalRaw unit)
           = Some days /\ a = contractAlert unit days)
          \/ (Zoned.calculateDaysLeft zone today (loanRenewalRaw unit)
              = Some days /\ a = loanAlert unit days)).
Proof.
  unfold Zoned.pushedAlerts. rewrite in_flat_map. split.
  - intros (unit & Hin & Ha). rewrite alertsOfUnit_due in Ha.
    apply in_app_or in Ha. destruct Ha as [Ha|Ha];
      apply In_dueAlertOf in Ha; destruct Ha as (d & Hd & Hw & ->);
      exists unit, d; auto.
  - intros (unit & d & Hin & Hw & Hcase). exists unit. split; [exact Hin|].
    rewrite alertsOfUnit_due. apply in_or_app.
    destruct Hcase as [[Hd ->]|[Hd ->]]; [left|right];
      apply In_dueAlertOf; exists d; auto.
Qed.

Lemma In_zoned_alerts (zone : Zoned.TimeZone) (today : Z)
      (units : list PortfolioUnit) (a : RenewalAlert) :
  In a (Zoned.buildRenewalAlerts zone today units)
  <-> In a (Zoned.pushedAlerts zone today units).
Proof.
  unfold Zoned.buildRenewalAlerts. split; apply Permutation_in.
  - symmetry. apply (sort_perm daysLeft).
  - apply (sort_perm daysLeft).
Qed.

(** C5.  In every time zone [buildRenewalAlerts] holds a contract-renewal
    alert for a unit exactly when the days left of its contract date are
    between 0 and 120, both included, and independently a loan-renewal alert
    exactly when the days left of its loan date are: days left of 120 give an
    alert, days left of 121 or of -1 give none.  The alerts are those pushed
    in encounter order (unit by unit, contract before loan), sorted
    ascending by days left, and alerts with equal days left keep their
    encounter order.  In a zone of fixed offset the days left are the whole
    days from the local day of [today] to the local day of the parsed date:
    there a date 120 days ahead is included, one 121 days ahead or 1 day
    past is not. *)
Theorem renewal_alerts (zone : Zoned.TimeZone) (today : Z)
        (units : list PortfolioUnit) :
  let daysOf := Zoned.calculateDaysLeft zone today in
  let pushed := Zoned.pushedAlerts zone today units in
  let alerts := Zoned.buildRenewalAlerts zone today units in
  pushed
  = flat_map (fun unit =>
                dueAlertOf (daysOf (contractRenewalRaw unit)) (contractAlert unit)
                ++ dueAlertOf (daysOf (loanRenewalRaw unit)) (loanAlert unit))
             units
  /\ (forall a,
         In a alerts
         <-> exists unit days,
             In unit units /\ 0 <= days <= 120
             /\ ((daysOf (contractRenewalRaw unit) = Some days
                  /\ a = contractAlert unit days)
                 \/ (daysOf (loanRenewalRaw unit) = Some days
                     /\ a = loanAlert unit days)))
  /\ (forall unit days,
         In unit units ->
         (daysOf (contractRenewalRaw unit) = Some days ->
          (In (contractAlert unit days) alerts <-> 0 <= days <= 120))
         /\ (daysOf (loanRenewalRaw unit) = Some days ->
             (In (loanAlert unit days) alerts <-> 0 <= days <= 120)))
  /\ Permutation pushed alerts
  /\ StronglySorted (fun a b => daysLeft a <= daysLeft b) alerts
  /\ (forall k, filter (fun a => daysLeft a =? k) alerts
                = filter (fun a => daysLeft a =? k) pushed)
  /\ (forall offset,
         FixedOffset zone offset -> Z.abs offset <= JsDate.msPerDay ->
         Z.abs today <= 8640000000000000 ->
         0 <= today + offset <= 8640000000000000 ->
         (forall raw parsed,
             Zoned.parseKoreanDate zone raw = Some parsed ->
             100 <= Zoned.getFullYear zone parsed ->
             daysOf raw
             = Some (JsDate.Day (Zoned.LocalTime zone parsed)
                     - JsDate.Day (Zoned.LocalTime zone today)))
         /\ (today + offset = AlertFixtures.today ->
             List.map daysOf
                      [js "2026년 5월 1일"; js "2026-05-02"; js "2025.12.31"]
             = [Some 120; Some 121; Some (-1)]
             /\ List.map (fun a => (alertId a, daysLeft a))
                         (Zoned.buildRenewalAlerts zone today
                                                   AlertFixtures.units)
                = [(js "unit-1-loan", 0); (js "unit-2-contract", 60);
                   (js "unit-0-contract", 120); (js "unit-2-loan", 120)])).
Proof.
  intros daysOf pushed alerts.
  assert (Hmem : forall a,
             In a alerts
             <-> exists unit days,
                 In unit units /\ 0 <= days <= 120
                 /\ ((daysOf (contractRenewalRaw unit) = Some days
                      /\ a = contractAlert unit days)
                     \/ (daysOf (loanRenewalRaw unit) = Some days
                         /\ a = loanAlert unit days))).
  { intros a. unfold alerts. rewrite In_zoned_alerts. apply In_zoned_pushed. }
  assert (Hwindow : forall a, In a alerts -> 0 <= daysLeft a <= 120).
  { intros a Ha. apply Hmem in Ha.
    destruct Ha as (unit & d & _ & Hw & [[_ ->]|[_ ->]]); exact Hw. }
  split; [reflexivity|].
  split; [exact Hmem|].
  split.
  { intros unit days Hin. split; intros Hd; split.
    - intros Ha. exact (Hwindow _ Ha).
    - intros Hw. apply Hmem. exists unit, days. auto.
    - intros Ha. exact (Hwindow _ Ha).
    - intros Hw. apply Hmem. exists unit, days. auto. }
  split; [apply (sort_perm daysLeft)|].
  split; [apply (sort_strongly_sorted daysLeft)|].
  split; [intros k; apply (sort_stable daysLeft)|].
  intros offset Hz Hk Hnow Hlocal. split.
  { intros raw parsed Hp Hy.
    now apply (fixed_offset_whole_days zone offset). }
  intros Htoday. split.
  - unfold daysOf. simpl.
    rewrite !(fixed_offset_days_left zone offset today _ Hz Hk Hnow Hlocal).
    rewrite Htoday. vm_compute. reflexivity.
  - rewrite (fixed_offset_alerts zone offset today _ Hz Hk Hnow Hlocal).
    rewrite Htoday. vm_compute. reflexivity.
Qed.

(** Across a change of offset the days left are not the calendar days.  In
    New York on 1 January 2026 the date 1 May 2026, 120 days ahead, has 119
    days left, and 2 May 2026, 121 days ahead, has 120 and is alerted: the
    clock moves forward by an hour in between, and the difference of the two
    local midnights is an hour short of whole days. *)
Lemma offset_change_shortens_days_left :
  List.map (Zoned.calculateDaysLeft ZoneFixtures.newYork2026
                                    ZoneFixtures.newYorkToday)
           [js "2026년 5월 1일"; js "2026-05-02"; js "2026-03-07"; js "2026-03-09"]
  = [Some 119; Some 120; Some 65; Some 66]
  /\ List.map (fun a => (alertId a, daysLeft a))
              (Zoned.buildRenewalAlerts
                 ZoneFixtures.newYork2026 ZoneFixtures.newYorkToday
                 [AlertFixtures.datedUnit 0 "2026-05-02" "2026-05-03"])
     = [(js "unit-0-contract", 120)].
Proof. split; vm_compute; reflexivity. Qed.
End ZonedDates.

(** Evaluation of [renewal_alerts] in Seoul on 1 January 2026, 15:30 local
    time: the contract date 1 May 2026 is 120 days ahead and alerted. *)
Lemma renewal_alerts_witness :
  Zoned.calculateDaysLeft ZoneFixtures.seoul
                          (AlertFixtures.today - 32400000) (js "2026년 5월 1일")
  = Some (JsDate.Day 1777593600000 - JsDate.Day AlertFixtures.today)
  /\ List.map (Zoned.calculateDaysLeft ZoneFixtures.seoul
                                       (AlertFixtures.today - 32400000))
              [js "2026년 5월 1일"; js "2026-05-02"; js "2025.12.31"]
     = [Some 120; Some 121; Some (-1)]
  /\ In (contractAlert (AlertFixtures.datedUnit 0 "2026년 5월 1일" "2026-05-02")
                       120)
        (Zoned.buildRenewalAlerts ZoneFixtures.seoul
                                  (AlertFixtures.today - 32400000)
                                  AlertFixtures.units).
Proof.
  pose proof (renewal_alerts ZoneFixtures.seoul
                             (AlertFixtures.today - 32400000)
                             AlertFixtures.units) as Hr.
  cbv zeta in Hr. destruct Hr as (_ & _ & Hbound & _ & _ & _ & Hfixed).
  assert (Hk : Z.abs 32400000 <= JsDate.msPerDay)
    by (vm_compute; discriminate).
  assert (Hnow : Z.abs (AlertFixtures.today - 32400000) <= 8640000000000000)
    by (vm_compute; discriminate).
  assert (Hlocal : 0 <= AlertFixtures.today - 32400000 + 32400000
                   <= 8640000000000000)
    by (split; vm_compute; discriminate).
  destruct (Hfixed 32400000 (fixedZone_fixed 32400000) Hk Hnow Hlocal)
    as [Hdays Hsample].
  split; [|split].
  - refine (Hdays (js "2026년 5월 1일") (1777593600000 - 32400000) eq_refl _).
    vm_compute. discriminate.
  - exact (proj1 (Hsample eq_refl)).
  - refine (proj2 (proj1 (Hbound (AlertFixtures.datedUnit 0 "2026년 5월 1일"
                                                          "2026-05-02")
                                 120 _) _) _).
    + left. reflexivity.
    + vm_compute. reflexivity.
    + split; discriminate.
Defined.

(** ** Scenario rows *)

Section ScenarioFacts.
Context `{JSBuiltins}.
Import Detail.

Lemma scenarios_eq (table : GvizTable) :
  scenarios (parseDetail table)
  = List.map toScenario (filter isScenarioRow (rows table)).
Proof. reflexivity. Qed.

Lemma includes_truthy (s needle : jsstring) :
  needle <> [] -> JsStr.includes s needle = true -> truthy s = true.
Proof.
  intros Hn. destruct s as [|u s]; [|reflexivity].
  destruct needle; [contradiction | discriminate].
Qed.

Lemma ltv_of_scenario_row (gr : GvizRow) :
  isScenarioRow gr = true ->
  ltv (toScenario gr) = cellToString (cellAt (c gr) 1).
Proof.
  intros Hs. unfold toScenario. simpl.
  rewrite (includes_truthy _ (js "%")); [reflexivity | discriminate | exact Hs].
Qed.

(** C9.  The scenarios of a detail table are its rows whose cell at index 1
    contains "%", in table order, each mapped by [toScenario]: the tier text
    from offset 1, the loan amount from offset 2 and the fields equity,
    deposit, fixedCost, investedTotal, monthlyRent, monthlyInterest,
    monthlyNet, monthlyRoi, annualProfit, annualRoi from offsets 3 to 12 in
    that order.  Rows of another kind do not matter, wherever they stand; a
    table with three such rows gives three scenarios. *)
Theorem scenario_extraction (table : GvizTable) :
  let selected := filter isScenarioRow (rows table) in
  scenarios (parseDetail table) = List.map toScenario selected
  /\ (forall gr, In gr selected <-> In gr (rows table) /\ HasPercent gr)
  /\ List.length (scenarios (parseDetail table)) = List.length selected
  /\ (forall gr,
         scenarioNumbers (toScenario gr)
         = toNumber (Str (cellToString (cellAt (c gr) 2)))
           :: List.map (fun i => toNumber (rawValue (cellAt (c gr) i)))
                       (seq 3 10))
  /\ (forall gr, HasPercent gr ->
                 ltv (toScenario gr) = cellToString (cellAt (c gr) 1))
  /\ (forall before after gr,
         rows table = before ++ gr :: after ->
         isScenarioRow gr = false ->
         scenarios (parseDetail table)
         = scenarios (parseDetail {| cols := cols table;
                                     rows := before ++ after |}))
  /\ (List.length selected = 3%nat ->
      List.length (scenarios (parseDetail table)) = 3%nat).
Proof.
  intros selected.
  split; [reflexivity|].
  split.
  { intros gr. unfold selected. rewrite filter_In. reflexivity. }
  split; [rewrite scenarios_eq; apply length_map|].
  split; [reflexivity|].
  split; [exact ltv_of_scenario_row|].
  split.
  { intros before after gr Hrows Hno. rewrite !scenarios_eq. simpl rows.
    rewrite Hrows, !filter_app. simpl. now rewrite Hno. }
  intros Hthree. rewrite scenarios_eq, length_map. exact Hthree.
Qed.
End ScenarioFacts.

(** Evaluation of [scenario_extraction] on a table with three scenario
    rows among others. *)
Lemma scenario_extraction_witness :
  List.length (Detail.scenarios
                 (Detail.parseDetail (H := Sample.builtins)
                                     DetailFixtures.threeScenarios)) = 3%nat
  /\ Detail.ltv (Detail.toScenario (H := Sample.builtins)
                                   (DetailFixtures.scenarioRow "60%" 200))
     = js "60%".
Proof.
  split.
  - exact (proj2 (proj2 (proj2 (proj2 (proj2 (proj2
             (scenario_extraction (H := Sample.builtins)
                                  DetailFixtures.threeScenarios))))))
             eq_refl).
  - exact (proj1 (proj2 (proj2 (proj2 (proj2
             (scenario_extraction (H := Sample.builtins)
                                  DetailFixtures.threeScenarios)))))
             (DetailFixtures.scenarioRow "60%" 200) eq_refl).
Defined.

(** ** Anchors *)

Section AnchorSearch.
Context `{JSBuiltins}.
Import Detail.

Lemma findInCells_some (target : jsstring) (cells : list (option GvizCell))
      (c0 k : nat) :
  findInCells target cells c0 = Some k ->
  (c0 <= k)%nat
  /\ (exists cell, nth_error cells (k - c0) = Some cell
                   /\ JsStr.includes (normalize (cellToString cell)) target = true)
  /\ (forall j cell, (j < k - c0)%nat -> nth_error cells j = Some cell ->
                     JsStr.includes (normalize (cellToString cell)) target = false).
Proof.
  revert c0. induction cells as [|cell cells IH]; intros c0; simpl; [discriminate|].
  destruct (JsStr.includes (normalize (cellToString cell)) target) eqn:E.
  - intros [= <-]. rewrite Nat.sub_diag. split; [lia|]. split.
    + exists cell. split; [reflexivity | exact E].
    + intros j cell' Hj. lia.
  - intros Hk. destruct (IH _ Hk) as (Hle & (found & Hnth & Hfound) & Hbefore).
    split; [lia|]. replace (k - c0)%nat with (S (k - S c0)) by lia. split.
    + exists found. split; [exact Hnth | exact Hfound].
    + intros [|j] cell' Hj; simpl.
      * intros [= <-]. exact E.
      * apply Hbefore. lia.
Qed.

Lemma findInCells_none (target : jsstring) (cells : list (option GvizCell))
      (c0 : nat) :
  findInCells target cells c0 = None ->
  forall j cell, nth_error cells j = Some cell ->
                 JsStr.includes (normalize (cellToString cell)) target = false.
Proof.
  revert c0. induction cells as [|cell cells IH]; intros c0; simpl.
  - intros _ [|j] cell'; discriminate.
  - destruct (JsStr.includes (normalize (cellToString cell)) target) eqn:E;
      [discriminate|].
    intros Hn [|j] cell'; simpl.
    + intros [= <-]. exact E.
    + apply (IH _ Hn).
Qed.

Lemma findInRows_some (target : jsstring) (rs : list GvizRow) (r : nat)
      (anchor : Anchor) :
  findInRows target rs r = Some anchor ->
  (r <= row anchor)%nat
  /\ (exists gr, nth_error rs (row anchor - r) = Some gr
                 /\ findInCells target (c gr) 0 = Some (col anchor))
  /\ (forall j gr, (j < row anchor - r)%nat -> nth_error rs j = Some gr ->
                   findInCells target (c gr) 0 = None).
Proof.
  revert r. induction rs as [|gr rs IH]; intros r; simpl; [discriminate|].
  destruct (findInCells target (c gr) 0) as [k|] eqn:E.
  - intros [= <-]. simpl. rewrite Nat.sub_diag. split; [lia|]. split.
    + exists gr. split; [reflexivity | exact E].
    + intros j gr' Hj. lia.
  - intros Ha. destruct (IH _ Ha) as (Hle & (found & Hnth & Hfound) & Hbefore).
    split; [lia|].
    replace (row anchor - r)%nat with (S (row anchor - S r)) by lia. split.
    + exists found. split; [exact Hnth | exact Hfound].
    + intros [|j] gr' Hj; simpl.
      * intros [= <-]. exact E.
      * apply Hbefore. lia.
Qed.

Lemma findInRows_none (target : jsstring) (rs : list GvizRow) (r : nat) :
  findInRows target rs r = None ->
  forall j gr, nth_error rs j = Some gr -> findInCells target (c gr) 0 = None.
Proof.
  revert r. induction rs as [|gr rs IH]; intros r; simpl.
  - intros _ [|j] gr'; discriminate.
  - destruct (findInCells target (c gr) 0) as [k|] eqn:E; [discriminate|].
    intros Hn [|j] gr'; simpl.
    + intros [= <-]. exact E.
    + apply (IH _ Hn).
Qed.

(** The anchor of a keyword is the first cell that matches it. *)
Lemma findCellByKeyword_FirstMatch (table : GvizTable) (keyword : jsstring) :
  FirstMatch table (normalize keyword) (findCellByKeyword table keyword).
Proof.
  unfold findCellByKeyword, FirstMatch.
  set (target := normalize keyword).
  destruct (findInRows target (rows table) 0) as [anchor|] eqn:E.
  - destruct (findInRows_some _ _ _ _ E)
      as (_ & (gr & Hgr & Hcells) & Hrows).
    rewrite Nat.sub_0_r in Hgr, Hrows.
    destruct (findInCells_some _ _ _ _ Hcells)
      as (_ & (cell & Hcell & Hmatch) & Hbefore).
    rewrite Nat.sub_0_r in Hcell, Hbefore.
    split.
    + unfold matchesAt. now rewrite Hgr, Hcell.
    + intros r c0 [Hr|[-> Hc]]; unfold matchesAt.
      * destruct (nth_error (rows table) r) as [gr'|] eqn:Er; [|reflexivity].
        destruct (nth_error (c gr') c0) as [cell'|] eqn:Ec; [|reflexivity].
        exact (findInCells_none _ _ _ (Hrows r gr' Hr Er) c0 cell' Ec).
      * rewrite Hgr.
        destruct (nth_error (c gr) c0) as [cell'|] eqn:Ec; [|reflexivity].
        exact (Hbefore c0 cell' Hc Ec).
  - intros r c0. unfold matchesAt.
    destruct (nth_error (rows table) r) as [gr'|] eqn:Er; [|reflexivity].
    destruct (nth_error (c gr') c0) as [cell'|] eqn:Ec; [|reflexivity].
    exact (findInCells_none _ _ _ (findInRows_none _ _ _ E r gr' Er) c0 cell' Ec).
Qed.
End AnchorSearch.

(** ** Registration cost *)

Section RegistrationFacts.
Context `{JSBuiltins}.
Import Detail.

Lemma thirdOrLast_eq (numbers : list number) :
  match numbers with
  | [] => None
  | _ =>
    if (3 <=? List.length numbers)%nat then nth_error numbers 2
    else nth_error numbers (List.length numbers - 1)
  end
  = thirdOrLast numbers.
Proof.
  destruct numbers as [|a [|b [|third rest]]]; reflexivity.
Qed.

Lemma getRegistrationHeuristic_eq (table : GvizTable) (anchor : Anchor) :
  getRegistrationHeuristic table (Some anchor)
  = thirdOrLast (collectNumbers (cellsBelow table anchor)).
Proof.
  unfold getRegistrationHeuristic, cellsBelow. apply thirdOrLast_eq.
Qed.

Lemma collectNumbers_flat_map (cells : list (option GvizCell)) :
  collectNumbers cells
  = flat_map (fun cell => match numericOfCell cell with
                          | Some value => [value]
                          | None => []
                          end) cells.
Proof.
  induction cells as [|cell cells IH]; simpl; [reflexivity|].
  destruct (numericOfCell cell); simpl; now rewrite IH.
Qed.

Lemma getNumericBelowFrom_some (table : GvizTable) (anchor : Anchor)
      (offset steps : nat) (value : number) :
  getNumericBelowFrom table anchor offset steps = Some value
  <-> exists k,
      (k < steps)%nat
      /\ getNumericAt table (row anchor + (offset + k)) (col anchor) = Some value
      /\ forall j, (j < k)%nat ->
                   getNumericAt table (row anchor + (offset + j)) (col anchor)
                   = None.
Proof.
  revert offset. induction steps as [|steps IH]; intros offset; simpl.
  - split; [discriminate | intros (k & Hk & _); lia].
  - destruct (getNumericAt table (row anchor + offset) (col anchor))
      as [found|] eqn:E.
    + split.
      * intros [= <-]. exists 0%nat. rewrite Nat.add_0_r.
        split; [lia|]. split; [exact E | intros j Hj; lia].
      * intros (k & Hk & Hv & Hnone). destruct k as [|k].
        -- rewrite Nat.add_0_r in Hv. congruence.
        -- specialize (Hnone 0%nat ltac:(lia)).
           rewrite Nat.add_0_r in Hnone. congruence.
    + rewrite IH. split.
      * intros (k & Hk & Hv & Hnone). exists (S k).
        split; [lia|]. split.
        -- now rewrite Nat.add_succ_r.
        -- intros [|j] Hj; [now rewrite Nat.add_0_r|].
           rewrite Nat.add_succ_r. apply Hnone. lia.
      * intros (k & Hk & Hv & Hnone). destruct k as [|k].
        -- rewrite Nat.add_0_r in Hv. congruence.
        -- exists k. split; [lia|]. split.
           ++ now rewrite Nat.add_succ_r in Hv.
           ++ intros j Hj. specialize (Hnone (S j) ltac:(lia)).
              now rewrite Nat.add_succ_r in Hnone.
Qed.

(** The value below an anchor is the first numeric one among the rows
    [row + 1] to [row + maxDepth]. *)
Lemma getNumericBelow_some (table : GvizTable) (anchor : Anchor)
      (maxDepth : nat) (value : number) :
  getNumericBelow table anchor maxDepth = Some value
  <-> exists k,
      (1 <= k <= maxDepth)%nat
      /\ getNumericAt table (row anchor + k) (col anchor) = Some value
      /\ forall j, (1 <= j < k)%nat ->
                   getNumericAt table (row anchor + j) (col anchor) = None.
Proof.
  unfold getNumericBelow. rewrite getNumericBelowFrom_some. split.
  - intros (k & Hk & Hv & Hnone). exists (S k). split; [lia|].
    split; [exact Hv|]. intros [|j] Hj; [lia|]. apply (Hnone j). lia.
  - intros (k & Hk & Hv & Hnone). destruct k as [|k]; [lia|].
    exists k. split; [lia|]. split; [exact Hv|].
    intros j Hj. apply (Hnone (S j)). lia.
Qed.

(** C10.  The registration cost of [parseDetail] is, in this order: the
    first numeric value in the four rows directly below the "취등록세"
    anchor, when the anchor exists and one of these rows has a numeric value
    in the anchor's column; else the fixedCost (column offset 5) of the first
    scenario row, when it is not [null]; else the heuristic of the "등기비용"
    label, which collects the numeric cells of the row directly below the
    label from the label's column rightwards and takes the third when there
    are at least three, else the last, else [null] (also when the label is
    missing).  The anchor of either keyword is the first cell of the table,
    row by row and from left to right, whose normalized string contains the
    normalized keyword, and there is none exactly when no cell does. *)
Theorem registration_cost (table : GvizTable) :
  let acquisitionTaxLabel := findCellByKeyword table (js "취등록세") in
  let registrationLabel := findCellByKeyword table (js "등기비용") in
  let fromAcquisitionTax :=
    match acquisitionTaxLabel with
    | Some anchor => getNumericBelow table anchor 4
    | None => None
    end in
  let fromScenario :=
    match filter isScenarioRow (rows table) with
    | first :: _ => toNumber (rawValue (cellAt (c first) 5))
    | [] => None
    end in
  FirstMatch table (normalize (js "취등록세")) acquisitionTaxLabel
  /\ FirstMatch table (normalize (js "등기비용")) registrationLabel
  /\ registration (otherCosts (parseDetail table))
  = match fromAcquisitionTax with
    | Some value => Some value
    | None =>
      match fromScenario with
      | Some value => Some value
      | None => getRegistrationHeuristic table registrationLabel
      end
    end
  /\ (forall anchor,
         getNumericBelow table anchor 4
         = match getNumericAt table (row anchor + 1) (col anchor) with
           | Some value => Some value
           | None =>
             match getNumericAt table (row anchor + 2) (col anchor) with
             | Some value => Some value
             | None =>
               match getNumericAt table (row anchor + 3) (col anchor) with
               | Some value => Some value
               | None => getNumericAt table (row anchor + 4) (col anchor)
               end
             end
           end)
  /\ (forall anchor value,
         getNumericBelow table anchor 4 = Some value
         <-> exists k,
             (1 <= k <= 4)%nat
             /\ getNumericAt table (row anchor + k) (col anchor) = Some value
             /\ forall j, (1 <= j < k)%nat ->
                          getNumericAt table (row anchor + j) (col anchor)
                          = None)
  /\ (forall anchor,
         getRegistrationHeuristic table (Some anchor)
         = thirdOrLast (collectNumbers (cellsBelow table anchor)))
  /\ getRegistrationHeuristic table None = None
  /\ (forall cells,
         collectNumbers cells
         = flat_map (fun cell =>
                       match toNumber (rawValue cell) with
                       | Some value => [value]
                       | None =>
                         match toNumber (Str (cellToString cell)) with
                         | Some value => [value]
                         | None => []
                         end
                       end) cells).
Proof.
  intros acquisitionTaxLabel registrationLabel fromAcquisitionTax fromScenario.
  split; [apply findCellByKeyword_FirstMatch|].
  split; [apply findCellByKeyword_FirstMatch|].
  split.
  { unfold parseDetail, registration, otherCosts, orElse.
    fold acquisitionTaxLabel registrationLabel.
    unfold fromAcquisitionTax, fromScenario, defaultMaxDepth.
    destruct acquisitionTaxLabel as [anchor|];
      [destruct (getNumericBelow table anchor 4); [reflexivity|]|];
      destruct (filter isScenarioRow (rows table)) as [|first rest];
      reflexivity. }
  split.
  { intros anchor. unfold getNumericBelow. simpl.
    destruct (getNumericAt table (row anchor + 1) (col anchor)); [reflexivity|].
    destruct (getNumericAt table (row anchor + 2) (col anchor)); [reflexivity|].
    destruct (getNumericAt table (row anchor + 3) (col anchor)); [reflexivity|].
    destruct (getNumericAt table (row anchor + 4) (col anchor)); reflexivity. }
  split; [intros anchor value; apply getNumericBelow_some|].
  split; [exact (getRegistrationHeuristic_eq table)|].
  split; [reflexivity|].
  intros cells. rewrite collectNumbers_flat_map.
  apply flat_map_ext. intros cell. unfold numericOfCell.
  destruct (toNumber (rawValue cell)); [reflexivity|].
  destruct (toNumber (Str (cellToString cell))); reflexivity.
Qed.
End RegistrationFacts.

(** The stages of [registration_cost] on sample tables: the value below the
    acquisition-tax label wins over the scenario and the heuristic, also when
    the label lies inside the table; without that label the fixed cost of
    the first scenario wins; without either the heuristic takes the last of
    two numbers, the third of three and the third of five. *)
Lemma registration_cost_examples :
  List.map (fun table =>
              Detail.registration
                (Detail.otherCosts (Detail.parseDetail (H := Sample.builtins) table)))
           [DetailFixtures.withAcquisitionTax; DetailFixtures.labelsInside;
            DetailFixtures.withScenarioOnly;
            DetailFixtures.withLabelOnly; DetailFixtures.labelOver 0;
            DetailFixtures.labelOver 1; DetailFixtures.labelOver 2;
            DetailFixtures.labelOver 3; DetailFixtures.labelOver 5]
  = [Some (Num.ofZ 4600); Some (Num.ofZ 4600); Some (Num.ofZ 505);
     Some (Num.ofZ 20); None;
     Some (Num.ofZ 10); Some (Num.ofZ 20); Some (Num.ofZ 30);
     Some (Num.ofZ 30)]
  /\ List.map (fun keyword =>
                 Detail.findCellByKeyword (H := Sample.builtins)
                                          DetailFixtures.labelsInside (js keyword))
              ["취등록세"; "등기비용"; "없음"]%string
     = [Some {| Detail.row := 1; Detail.col := 1 |};
        Some {| Detail.row := 1; Detail.col := 2 |}; None].
Proof. split; vm_compute; reflexivity. Qed.

(** Evaluation of [registration_cost] on the table whose labels lie inside
    it: the acquisition-tax anchor is the cell in row 1, column 1, which
    matches the keyword while the cells before it do not, and the value is
    found two rows below it. *)
Lemma registration_cost_witness :
  Detail.registration
    (Detail.otherCosts
       (Detail.parseDetail (H := Sample.builtins)
                           DetailFixtures.labelsInside))
  = Some (Num.ofZ 4600)
  /\ matchesAt (H := Sample.builtins) DetailFixtures.labelsInside
               (Detail.normalize (H := Sample.builtins) (js "취등록세")) 1 1
     = true
  /\ matchesAt (H := Sample.builtins) DetailFixtures.labelsInside
               (Detail.normalize (H := Sample.builtins) (js "취등록세")) 0 0
     = false
  /\ matchesAt (H := Sample.builtins) DetailFixtures.labelsInside
               (Detail.normalize (H := Sample.builtins) (js "등기비용")) 1 1
     = false
  /\ exists k,
      (1 <= k <= 4)%nat
      /\ Detail.getNumericAt (H := Sample.builtins)
                             DetailFixtures.labelsInside (1 + k) 1
         = Some (Num.ofZ 4600).
Proof.
  pose proof (registration_cost (H := Sample.builtins)
                                DetailFixtures.labelsInside) as Hr.
  cbv zeta in Hr. destruct Hr as (Hacq & Hlabel & Hreg & _ & Hbelow & _).
  assert (Ea : Detail.findCellByKeyword (H := Sample.builtins)
                 DetailFixtures.labelsInside (js "취등록세")
               = Some {| Detail.row := 1; Detail.col := 1 |})
    by (vm_compute; reflexivity).
  assert (El : Detail.findCellByKeyword (H := Sample.builtins)
                 DetailFixtures.labelsInside (js "등기비용")
               = Some {| Detail.row := 1; Detail.col := 2 |})
    by (vm_compute; reflexivity).
  rewrite Ea in Hacq. rewrite El in Hlabel.
  destruct Hacq as [Hat Hbefore]. destruct Hlabel as [_ Hbefore'].
  split; [exact (eq_trans Hreg eq_refl)|].
  split; [exact Hat|].
  split; [apply Hbefore; left; simpl; lia|].
  split; [apply Hbefore'; right; simpl; split; [reflexivity | lia]|].
  destruct (proj1 (Hbelow {| Detail.row := 1; Detail.col := 1 |}
                          (Num.ofZ 4600)) eq_refl)
    as (k & Hk & Hv & _).
  exists k. split; [exact Hk | exact Hv].
Defined.

(* ================================================================== *)
(** * Further properties of the code *)

(** ** Numeric coercion and separators *)

(** X1.  Numeric coercion ignores every code unit that is not a digit, '.'
    or '-': two strings that differ only by such code units, wherever they
    stand (thousands separators, currency text, spaces), coerce to the same
    result. *)
Theorem coercion_ignores_separators (before after : jsstring) (u : N) :
  isNumericChar u = false ->
  parseNumericValue (Str (before ++ u :: after))
  = parseNumericValue (Str (before ++ after))
  /\ toNumber (Str (before ++ u :: after)) = toNumber (Str (before ++ after)).
Proof.
  intros Hu.
  assert (E : stripNonNumeric (before ++ u :: after)
              = stripNonNumeric (before ++ after)).
  { unfold stripNonNumeric. rewrite !filter_app. simpl. now rewrite Hu. }
  split; simpl; now rewrite E.
Qed.

Lemma coercion_ignores_separators_witness :
  parseNumericValue (Str (js "1" ++ 44%N :: js "234"))
  = parseNumericValue (Str (js "1" ++ js "234")).
Proof.
  exact (proj1 (coercion_ignores_separators (js "1") (js "234") 44%N eq_refl)).
Defined.

(** ** Column resolver *)

Section ResolverFacts.
Context `{JSBuiltins}.
Import Portfolio.

Lemma find_lowered_none (key : jsstring) (columns : list jsstring) :
  (forall column, In column columns -> labelMatches key column = false) ->
  find (fun column : jsstring * jsstring => JsStr.includes (snd column) key)
       (List.map (fun column => (column, toLowerCase column)) columns)
  = None.
Proof.
  induction columns as [|col columns IH]; intros Hno; simpl; [reflexivity|].
  pose proof (Hno col (or_introl eq_refl)) as Hc. unfold labelMatches in Hc.
  rewrite Hc. apply IH. intros c0 Hin. apply Hno. now right.
Qed.

Lemma find_lowered_first (key : jsstring) (front back : list jsstring)
      (column : jsstring) :
  (forall c0, In c0 front -> labelMatches key c0 = false) ->
  labelMatches key column = true ->
  find (fun column : jsstring * jsstring => JsStr.includes (snd column) key)
       (List.map (fun column => (column, toLowerCase column))
                 (front ++ column :: back))
  = Some (column, toLowerCase column).
Proof.
  intros Hfront Hcol. induction front as [|c0 front IH]; simpl.
  - unfold labelMatches in Hcol. now rewrite Hcol.
  - pose proof (Hfront c0 (or_introl eq_refl)) as Hc. unfold labelMatches in Hc.
    rewrite Hc. apply IH. intros c1 Hin. apply Hfront. now right.
Qed.

Lemma find_lowered_in (key : jsstring) (columns : list jsstring)
      (found : jsstring * jsstring) :
  find (fun column : jsstring * jsstring => JsStr.includes (snd column) key)
       (List.map (fun column => (column, toLowerCase column)) columns)
  = Some found ->
  In (fst found) columns.
Proof.
  intros Hf. apply find_some in Hf. destruct Hf as [Hin _].
  apply in_map_iff in Hin. destruct Hin as (col & <- & Hcol). exact Hcol.
Qed.

(** X2.  The column resolver returns either the empty string or one of the
    given columns.  It returns the empty string when no candidate keyword
    occurs in any lower-cased label; otherwise it returns, for the first
    candidate that occurs in some label, the first column in column order
    whose lower-cased label contains it, even when a later candidate also
    matches. *)
Theorem findLikelyColumn_resolves (columns keys : list jsstring) :
  (findLikelyColumn columns keys = [] \/ In (findLikelyColumn columns keys) columns)
  /\ ((forall key column, In key keys -> In column columns ->
                          labelMatches key column = false) ->
      findLikelyColumn columns keys = [])
  /\ (forall earlier key later front column back,
         keys = earlier ++ key :: later ->
         columns = front ++ column :: back ->
         (forall k c0, In k earlier -> In c0 columns ->
                       labelMatches k c0 = false) ->
         (forall c0, In c0 front -> labelMatches key c0 = false) ->
         labelMatches key column = true ->
         findLikelyColumn columns keys = column).
Proof.
  unfold findLikelyColumn. split; [|split].
  - induction keys as [|key keys IH]; simpl; [now left|].
    destruct (find _ _) as [found|] eqn:E; [|exact IH].
    right. exact (find_lowered_in key columns found E).
  - induction keys as [|key keys IH]; intros Hno; simpl; [reflexivity|].
    rewrite find_lowered_none.
    + apply IH. intros k c0 Hk Hc. apply Hno; [now right | exact Hc].
    + intros c0 Hc. apply Hno; [now left | exact Hc].
  - intros earlier key later front column back -> Hcols Hearlier Hfront Hcol.
    induction earlier as [|k earlier IH]; simpl.
    + rewrite Hcols, (find_lowered_first key front back column Hfront Hcol).
      reflexivity.
    + rewrite find_lowered_none.
      * apply IH. intros k' c0 Hk Hc. apply Hearlier; [now right | exact Hc].
      * intros c0 Hc. apply Hearlier; [now left | exact Hc].
Qed.
End ResolverFacts.

(** Evaluation of [findLikelyColumn_resolves]: over the labels 호실명 and 명의
    the candidates 현장, 호실, site resolve to 호실명, by the second candidate. *)
Lemma findLikelyColumn_resolves_witness :
  Portfolio.findLikelyColumn (H := Sample.builtins)
                             [js "호실명"; js "명의"] siteKeys
  = js "호실명".
Proof.
  refine (proj2 (proj2 (findLikelyColumn_resolves (H := Sample.builtins)
                          [js "호실명"; js "명의"] siteKeys))
                [js "현장"] (js "호실") [js "site"] [] (js "호실명") [js "명의"]
                eq_refl eq_refl _ _ eq_refl).
  - intros k c0 [<-|[]] [<-|[<-|[]]]; reflexivity.
  - intros c0 [].
Defined.

(** ** Units built from the rows *)

Section UnitFacts.
Context `{JSBuiltins}.
Import Portfolio.

Lemma mapiFrom_index_only {A B : Type} (g : nat -> B) (l : list A) (i : nat) :
  mapiFrom (fun _ k => g k) l i = List.map g (seq i (List.length l)).
Proof.
  revert i. induction l as [|x l IH]; intros i; simpl; [reflexivity|].
  now rewrite IH.
Qed.

Lemma in_mapiFrom {A B : Type} (g : A -> nat -> B) (l : list A) (i : nat)
      (y : B) :
  In y (mapiFrom g l i) -> exists x k, In x l /\ y = g x k.
Proof.
  revert i. induction l as [|x l IH]; intros i; simpl; [intros []|].
  intros [<-|Hin].
  - exists x, i. split; [now left | reflexivity].
  - destruct (IH _ Hin) as (x' & k & Hx & ->).
    exists x', k. split; [now right | reflexivity].
Qed.

Lemma ofUint_inj (d d' : Decimal.uint) :
  JsStr.ofUint d = JsStr.ofUint d' -> d = d'.
Proof.
  revert d'. induction d; intros d'; destruct d'; simpl; intros E;
    try reflexivity; try discriminate E;
    injection E as E; f_equal; now apply IHd.
Qed.

Lemma ofNat_inj (n n' : nat) : JsStr.ofNat n = JsStr.ofNat n' -> n = n'.
Proof.
  unfold JsStr.ofNat. intros E. apply ofUint_inj in E.
  now apply DecimalNat.Unsigned.to_uint_inj.
Qed.

Lemma NoDup_map_inj {A B : Type} (g : A -> B) (l : list A) :
  (forall x y, g x = g y -> x = y) -> NoDup l -> NoDup (List.map g l).
Proof.
  intros Hinj Hl. induction Hl as [|x l Hx _ IH]; simpl; constructor.
  - intros Hin. apply in_map_iff in Hin. destruct Hin as (y & Hy & Hyl).
    apply Hinj in Hy. subst y. contradiction.
  - exact IH.
Qed.

Lemma filter_length_le_rows (p : SheetRow -> bool) (l : list SheetRow) :
  (List.length (filter p l) <= List.length l)%nat.
Proof.
  induction l as [|x l IH]; simpl; [lia|]. destruct (p x); simpl; lia.
Qed.

Lemma dataRegion_length_le (p : SheetRow -> bool) (l : list SheetRow) :
  (List.length (dataRegion p l) <= List.length l)%nat.
Proof.
  induction l as [|x l IH]; simpl; [lia|]. destruct (p x); simpl; lia.
Qed.

(** X3.  The units of [toPortfolioUnits] are numbered in order: their ids
    are "unit-0", "unit-1", ... by position among the surviving rows, so no
    two units share an id; and there are never more units than rows. *)
Theorem unit_ids_sequential (rows : list SheetRow) :
  List.map id (toPortfolioUnits rows)
  = List.map (fun i => js "unit-" ++ JsStr.ofNat i)
             (seq 0 (List.length (toPortfolioUnits rows)))
  /\ NoDup (List.map id (toPortfolioUnits rows))
  /\ (List.length (toPortfolioUnits rows) <= List.length rows)%nat.
Proof.
  assert (Hids : List.map id (toPortfolioUnits rows)
                 = List.map (fun i => js "unit-" ++ JsStr.ofNat i)
                            (seq 0 (List.length (toPortfolioUnits rows)))).
  { destruct rows as [|row0 rows']; [reflexivity|].
    unfold toPortfolioUnits, mapi.
    rewrite map_mapiFrom, mapiFrom_length. simpl id.
    apply mapiFrom_index_only. }
  split; [exact Hids|]. split.
  - rewrite Hids. apply NoDup_map_inj; [|apply seq_NoDup].
    intros x y E. apply app_inv_head in E. now apply ofNat_inj.
  - rewrite toPortfolioUnits_length. unfold keptRows.
    etransitivity; [apply filter_length_le_rows | apply dataRegion_length_le].
Qed.

(** X4.  Every numeric field of every unit is either [null] or a finite
    number: [toPortfolioUnits] never yields [NaN] or an infinity, whatever
    the cells hold. *)
Theorem unit_numbers_finite (rows : list SheetRow) :
  Forall (fun unit =>
            finiteOrNull (supplyPrice unit) /\ finiteOrNull (loanAmount unit)
            /\ finiteOrNull (interestRate unit)
            /\ finiteOrNull (monthlyInterest unit)
            /\ finiteOrNull (monthlyRent unit)
            /\ finiteOrNull (buildingTax unit) /\ finiteOrNull (landTax unit)
            /\ finiteOrNull (trafficInducementCharge unit))
         (toPortfolioUnits rows).
Proof.
  apply Forall_forall. intros unit Hin.
  destruct rows as [|row0 rows']; [destruct Hin|].
  unfold toPortfolioUnits, mapi in Hin.
  apply in_mapiFrom in Hin. destruct Hin as (row & k & _ & ->).
  simpl. repeat split; apply parseNumericValue_finite.
Qed.

Lemma filter_length_le_units (p : PortfolioUnit -> bool) (l : list PortfolioUnit) :
  (List.length (filter p l) <= List.length l)%nat.
Proof.
  induction l as [|x l IH]; simpl; [lia|]. destruct (p x); simpl; lia.
Qed.

(** X5.  The summary is consistent for every unit list, the empty one
    included: the unit count is the length of the list, the leased count
    never exceeds it, the equity is supply price minus loan, the monthly net
    cash flow is rent minus interest and the annual one twelve times that,
    the return on equity is present exactly when the equity is positive and
    the loan-to-value exactly when the supply price is. *)
Theorem summary_consistent (units : list PortfolioUnit) :
  let s := summarizePortfolio units in
  totalUnits s = List.length units
  /\ (leasedUnits s <= totalUnits s)%nat
  /\ totalEquity s = Num.sub (totalSupplyPrice s) (totalLoanAmount s)
  /\ monthlyNetCashflow s
     = Num.sub (monthlyRentIncome s) (monthlyInterestCost s)
  /\ annualNetCashflow s = Num.mul (monthlyNetCashflow s) (Num.ofZ 12)
  /\ annualReturnOnEquity s
     = (if Num.gtb (totalEquity s) Num.zero
        then Some (Num.div (annualNetCashflow s) (totalEquity s)) else None)
  /\ loanToValue s
     = (if Num.gtb (totalSupplyPrice s) Num.zero
        then Some (Num.div (totalLoanAmount s) (totalSupplyPrice s)) else None).
Proof.
  destruct units as [|unit units].
  - cbv zeta. simpl. repeat split; reflexivity.
  - cbv zeta. unfold summarizePortfolio. cbn [totalUnits leasedUnits totalEquity
      totalSupplyPrice totalLoanAmount monthlyNetCashflow monthlyRentIncome
      monthlyInterestCost annualNetCashflow annualReturnOnEquity loanToValue].
    repeat split; try reflexivity.
    apply filter_length_le_units.
Qed.
End UnitFacts.

(** ** Cell text *)

Section TrimFacts.

Lemma trimStart_idem (s : jsstring) :
  JsStr.trimStart (JsStr.trimStart s) = JsStr.trimStart s.
Proof.
  induction s as [|u s IH]; simpl; [reflexivity|].
  destruct (JsStr.isSpace u) eqn:E; [exact IH|]. simpl. now rewrite E.
Qed.

Lemma trimStart_snoc (s : jsstring) (u : N) :
  JsStr.isSpace u = false ->
  exists front, JsStr.trimStart (s ++ [u]) = front ++ [u].
Proof.
  intros Hu. induction s as [|x s IH]; simpl.
  - rewrite Hu. now exists [].
  - destruct (JsStr.isSpace x); [exact IH|]. now exists (x :: s).
Qed.

Lemma trimStart_head (s : jsstring) :
  JsStr.trimStart s = []
  \/ exists u rest, JsStr.trimStart s = u :: rest /\ JsStr.isSpace u = false.
Proof.
  induction s as [|x s IH]; simpl; [now left|].
  destruct (JsStr.isSpace x) eqn:E; [exact IH|].
  right. now exists x, s.
Qed.

(** Trimming the end of a text without leading whitespace leaves it
    without leading whitespace. *)
Lemma trimStart_trimEnd (s : jsstring) :
  JsStr.trimStart s = s -> JsStr.trimStart (JsStr.trimEnd s) = JsStr.trimEnd s.
Proof.
  intros Hs. destruct (trimStart_head s) as [E|(u & rest & E & Hu)].
  - rewrite Hs in E. subst s. reflexivity.
  - rewrite Hs in E. subst s. unfold JsStr.trimEnd.
    simpl rev. destruct (trimStart_snoc (rev rest) u Hu) as (front & ->).
    rewrite rev_app_distr. simpl. now rewrite Hu.
Qed.

Lemma trimEnd_idem (s : jsstring) :
  JsStr.trimEnd (JsStr.trimEnd s) = JsStr.trimEnd s.
Proof.
  unfold JsStr.trimEnd. now rewrite rev_involutive, trimStart_idem.
Qed.

Lemma trim_idem (s : jsstring) : JsStr.trim (JsStr.trim s) = JsStr.trim s.
Proof.
  unfold JsStr.trim.
  rewrite (trimStart_trimEnd (JsStr.trimStart s) (trimStart_idem s)).
  apply trimEnd_idem.
Qed.
End TrimFacts.

Section CellFacts.
Context `{JSBuiltins}.
Import Detail.

(** X6.  The text of a cell is always trimmed: [cellToString] returns a
    string that [trim] leaves unchanged, whether it comes from the formatted
    string or from the raw value; an empty cell, and a cell without a usable
    formatted string whose raw value is [null], give the empty string. *)
Theorem cellToString_trimmed (cell : option GvizCell) :
  JsStr.trim (cellToString cell) = cellToString cell
  /\ cellToString None = []
  /\ (forall fs, JsStr.trim fs = [] ->
                 cellToString (Some {| v := Null; f := Some fs |}) = [])
  /\ cellToString (Some {| v := Null; f := None |}) = [].
Proof.
  split; [|split; [reflexivity|split; [|reflexivity]]].
  - destruct cell as [[value formatted]|]; [|reflexivity].
    unfold cellToString. simpl.
    destruct formatted as [fs|].
    + destruct (truthy fs && truthy (JsStr.trim fs)); [apply trim_idem|].
      destruct value; try reflexivity; apply trim_idem.
    + destruct value; try reflexivity; apply trim_idem.
  - intros fs Hfs. unfold cellToString. simpl. rewrite Hfs. simpl.
    now rewrite andb_false_r.
Qed.

End CellFacts.

Lemma cellToString_trimmed_witness :
  Detail.cellToString (H := Sample.builtins)
                      (Some {| v := Null; f := Some (js "  ") |})
  = [].
Proof.
  exact (proj1 (proj2 (proj2 (cellToString_trimmed (H := Sample.builtins) None)))
               (js "  ") eq_refl).
Defined.

(** ** Anchors of the detail sheet *)

Section AnchorFacts.
Context `{JSBuiltins}.
Import Detail.

(** X7.  [findCellByKeyword] scans the table row by row and each row from
    left to right: when it returns an anchor, the cell there contains the
    normalized keyword and no cell in an earlier row, nor earlier in the same
    row, does; when it returns [null], no cell of the table contains it. *)
Theorem findCellByKeyword_first (table : GvizTable) (keyword : jsstring) :
  let target := normalize keyword in
  match findCellByKeyword table keyword with
  | Some anchor =>
    matchesAt table target (row anchor) (col anchor) = true
    /\ forall r c0,
        (r < row anchor)%nat \/ (r = row anchor /\ (c0 < col anchor)%nat) ->
        matchesAt table target r c0 = false
  | None => forall r c0, matchesAt table target r c0 = false
  end.
Proof.
  intros target. unfold findCellByKeyword. fold target.
  destruct (findInRows target (rows table) 0) as [anchor|] eqn:E.
  - destruct (findInRows_some _ _ _ _ E)
      as (_ & (gr & Hgr & Hcells) & Hrows).
    rewrite Nat.sub_0_r in Hgr, Hrows.
    destruct (findInCells_some _ _ _ _ Hcells)
      as (_ & (cell & Hcell & Hmatch) & Hbefore).
    rewrite Nat.sub_0_r in Hcell, Hbefore.
    split.
    + unfold matchesAt. now rewrite Hgr, Hcell.
    + intros r c0 [Hr|[-> Hc]]; unfold matchesAt.
      * destruct (nth_error (rows table) r) as [gr'|] eqn:Er; [|reflexivity].
        destruct (nth_error (c gr') c0) as [cell'|] eqn:Ec; [|reflexivity].
        exact (findInCells_none _ _ _ (Hrows r gr' Hr Er) c0 cell' Ec).
      * rewrite Hgr.
        destruct (nth_error (c gr) c0) as [cell'|] eqn:Ec; [|reflexivity].
        exact (Hbefore c0 cell' Hc Ec).
  - intros r c0. unfold matchesAt.
    destruct (nth_error (rows table) r) as [gr'|] eqn:Er; [|reflexivity].
    destruct (nth_error (c gr') c0) as [cell'|] eqn:Ec; [|reflexivity].
    exact (findInCells_none _ _ _ (findInRows_none _ _ _ E r gr' Er) c0 cell' Ec).
Qed.

Lemma getNumericAt_of_no_cell (table : GvizTable) (r c0 : nat) :
  getCell table r c0 = None -> getNumericAt table r c0 = None.
Proof. unfold getNumericAt. intros ->. reflexivity. Qed.

Lemma getCell_beyond_rows (table : GvizTable) (r c0 : nat) :
  (List.length (rows table) <= r)%nat -> getCell table r c0 = None.
Proof.
  intros Hr. unfold getCell.
  now rewrite (proj2 (nth_error_None (rows table) r) Hr).
Qed.

Lemma getNumericBelowFrom_none (table : GvizTable) (anchor : Anchor)
      (offset steps : nat) :
  getNumericBelowFrom table anchor offset steps = None
  <-> forall k, (k < steps)%nat ->
                getNumericAt table (row anchor + (offset + k)) (col anchor)
                = None.
Proof.
  revert offset. induction steps as [|steps IH]; intros offset; simpl.
  - split; [intros _ k Hk; lia | reflexivity].
  - destruct (getNumericAt table (row anchor + offset) (col anchor)) eqn:E.
    + split; [discriminate|]. intros Hall.
      specialize (Hall 0%nat ltac:(lia)). rewrite Nat.add_0_r in Hall.
      congruence.
    + rewrite IH. split.
      * intros Hall [|k] Hk; [now rewrite Nat.add_0_r|].
        rewrite Nat.add_succ_r. apply Hall. lia.
      * intros Hall k Hk. specialize (Hall (S k) ltac:(lia)).
        now rewrite Nat.add_succ_r in Hall.
Qed.

(** X8.  Reads outside the table give [null] instead of failing: a numeric
    read at a missing or empty cell is [null]; the value below an anchor is
    [null] exactly when none of the rows [row + 1 .. row + maxDepth] has a
    numeric value in the anchor's column, in particular when the anchor
    stands in the last row; and the registration heuristic is [null] for
    an anchor in the last row. *)
Theorem reads_outside_table (table : GvizTable) (anchor : Anchor)
        (maxDepth : nat) :
  (forall r c0, getCell table r c0 = None -> getNumericAt table r c0 = None)
  /\ (forall r c0, (List.length (rows table) <= r)%nat ->
                   getNumericAt table r c0 = None)
  /\ (getNumericBelow table anchor maxDepth = None
      <-> forall k, (1 <= k <= maxDepth)%nat ->
                    getNumericAt table (row anchor + k) (col anchor) = None)
  /\ ((List.length (rows table) <= row anchor + 1)%nat ->
      getNumericBelow table anchor maxDepth = None
      /\ getRegistrationHeuristic table (Some anchor) = None).
Proof.
  split; [exact (getNumericAt_of_no_cell table)|].
  assert (Hbeyond : forall r c0, (List.length (rows table) <= r)%nat ->
                                 getNumericAt table r c0 = None).
  { intros r c0 Hr. apply getNumericAt_of_no_cell.
    now apply getCell_beyond_rows. }
  split; [exact Hbeyond|].
  assert (Hnone : getNumericBelow table anchor maxDepth = None
                  <-> forall k, (1 <= k <= maxDepth)%nat ->
                                getNumericAt table (row anchor + k) (col anchor)
                                = None).
  { unfold getNumericBelow. rewrite getNumericBelowFrom_none. split.
    - intros Hall [|k] Hk; [lia|]. apply (Hall k). lia.
    - intros Hall k Hk. apply (Hall (S k)). lia. }
  split; [exact Hnone|].
  intros Hlast. split.
  - apply Hnone. intros k Hk. apply Hbeyond. lia.
  - unfold getRegistrationHeuristic.
    rewrite (proj2 (nth_error_None (rows table) (row anchor + 1)) Hlast).
    now rewrite skipn_nil.
Qed.
End AnchorFacts.

(** Evaluation of [reads_outside_table] on an anchor in the last row. *)
Lemma reads_outside_table_witness :
  Detail.getNumericBelow (H := Sample.builtins) DetailFixtures.bothTable
                         {| Detail.row := 0; Detail.col := 0 |} 4 = None
  /\ Detail.getNumericAt (H := Sample.builtins) DetailFixtures.bothTable 7 0
     = None.
Proof.
  pose proof (reads_outside_table (H := Sample.builtins) DetailFixtures.bothTable
                {| Detail.row := 0; Detail.col := 0 |} 4) as (_ & Hb & _ & Hl).
  split.
  - refine (proj1 (Hl _)). simpl. lia.
  - apply Hb. simpl. lia.
Defined.

(** ** Numbers of the detail model *)

Section DetailNumbers.
Context `{JSBuiltins}.
Import Detail.

Lemma toNumber_finite (value : jsval) : finiteOrNull (toNumber value).
Proof.
  rewrite toNumber_parseNumericValue. apply parseNumericValue_finite.
Qed.

Lemma numericOfCell_finite (cell : option GvizCell) :
  finiteOrNull (numericOfCell cell).
Proof.
  unfold numericOfCell.
  pose proof (toNumber_finite (rawValue cell)) as Hraw.
  destruct (toNumber (rawValue cell)); [exact Hraw | apply toNumber_finite].
Qed.

Lemma getNumericAt_finite (table : GvizTable) (r c0 : nat) :
  finiteOrNull (getNumericAt table r c0).
Proof. apply numericOfCell_finite. Qed.

Lemma getNumericBelowFrom_finite (table : GvizTable) (anchor : Anchor)
      (offset steps : nat) :
  finiteOrNull (getNumericBelowFrom table anchor offset steps).
Proof.
  revert offset. induction steps as [|steps IH]; intros offset; simpl; [exact I|].
  pose proof (getNumericAt_finite table (row anchor + offset) (col anchor)) as Hat.
  destruct (getNumericAt table (row anchor + offset) (col anchor));
    [exact Hat | apply IH].
Qed.

Lemma collectNumbers_finite (cells : list (option GvizCell)) :
  Forall (fun n => Num.isFinite n = true) (collectNumbers cells).
Proof.
  induction cells as [|cell cells IH]; simpl; [constructor|].
  pose proof (numericOfCell_finite cell) as Hc.
  destruct (numericOfCell cell); [constructor; assumption | exact IH].
Qed.

Lemma nth_error_finite (numbers : list number) (i : nat) :
  Forall (fun n => Num.isFinite n = true) numbers ->
  finiteOrNull (nth_error numbers i).
Proof.
  intros Hall. destruct (nth_error numbers i) as [n|] eqn:E; [|exact I].
  apply nth_error_In in E. exact (proj1 (Forall_forall _ _) Hall n E).
Qed.

Lemma getRegistrationHeuristic_finite (table : GvizTable)
      (anchor : option Anchor) :
  finiteOrNull (getRegistrationHeuristic table anchor).
Proof.
  destruct anchor as [anchor|]; [|exact I].
  unfold getRegistrationHeuristic.
  set (numbers := collectNumbers _).
  assert (Hall : Forall (fun n => Num.isFinite n = true) numbers)
    by apply collectNumbers_finite.
  destruct numbers as [|n numbers'] eqn:E; [exact I|].
  destruct (3 <=? List.length (n :: numbers'))%nat;
    apply nth_error_finite; exact Hall.
Qed.

Lemma orElse_finite (a b : option number) :
  finiteOrNull a -> finiteOrNull b -> finiteOrNull (orElse a b).
Proof. destruct a; simpl; auto. Qed.

(** X9.  Every number of the detail model is either [null] or finite: the
    lease figures, the other costs (the registration cost by any of its
    three sources), the building figures and all numeric fields of every
    scenario.  [parseDetail] never yields [NaN] or an infinity. *)
Theorem detail_numbers_finite (table : GvizTable) :
  let d := parseDetail table in
  (finiteOrNull (leaseDeposit (lease d))
   /\ finiteOrNull (leaseMonthlyRent (lease d))
   /\ finiteOrNull (monthlyRentPerPyeong (lease d)))
  /\ (finiteOrNull (registration (otherCosts d))
      /\ finiteOrNull (brokerage (otherCosts d))
      /\ finiteOrNull (propertyBuildingTax (otherCosts d))
      /\ finiteOrNull (propertyLandTax (otherCosts d)))
  /\ (finiteOrNull (exclusiveRatio (building d))
      /\ finiteOrNull (landPrice (building d))
      /\ finiteOrNull (buildingPrice (building d))
      /\ finiteOrNull (pricePerPyeong (building d))
      /\ finiteOrNull (supplyAmount (building d))
      /\ finiteOrNull (vat (building d))
      /\ finiteOrNull (totalAcquisition (building d)))
  /\ Forall (fun s => Forall finiteOrNull (scenarioNumbers s)) (scenarios d).
Proof.
  intros d. unfold d, parseDetail.
  cbn [lease otherCosts building scenarios leaseDeposit leaseMonthlyRent
       monthlyRentPerPyeong registration brokerage propertyBuildingTax
       propertyLandTax exclusiveRatio landPrice buildingPrice pricePerPyeong
       supplyAmount vat totalAcquisition].
  split; [|split; [|split]].
  - repeat split.
    + destruct (findCellByKeyword table (js "보증금"));
        [apply getNumericBelowFrom_finite | apply toNumber_finite].
    + destruct (findCellByKeyword table (js "월세"));
        [apply getNumericBelowFrom_finite|].
      destruct (findCellByKeyword table (js "보증금"));
        [apply getNumericAt_finite | apply toNumber_finite].
    + destruct (findCellByKeyword table (js "평당월세"));
        [apply getNumericBelowFrom_finite|].
      destruct (findCellByKeyword table (js "월세"));
        [apply getNumericAt_finite|].
      destruct (findCellByKeyword table (js "보증금"));
        [apply getNumericAt_finite | exact I].
  - repeat split; try apply toNumber_finite.
    apply orElse_finite; [|apply orElse_finite].
    + destruct (findCellByKeyword table (js "취등록세"));
        [apply getNumericBelowFrom_finite | exact I].
    + destruct (List.map toScenario (filter isScenarioRow (rows table)))
        as [|first rest] eqn:E; [exact I|].
      destruct (filter isScenarioRow (rows table)) as [|gr grs];
        [discriminate|].
      simpl in E. injection E as <- _. apply toNumber_finite.
    + apply getRegistrationHeuristic_finite.
  - repeat split; apply toNumber_finite.
  - apply Forall_forall. intros s Hs. apply in_map_iff in Hs.
    destruct Hs as (gr & <- & _).
    unfold scenarioNumbers, toScenario.
    cbn [loanAmount equity deposit fixedCost investedTotal monthlyRent
         monthlyInterest monthlyNet monthlyRoi annualProfit annualRoi].
    repeat (constructor; [apply toNumber_finite|]). constructor.
Qed.
End DetailNumbers.

(** ** Days left *)

Section DaysLeftFacts.
Import Portfolio.

Lemma getFullYear_next_day (t : Z) :
  100 <= JsDate.getFullYear t ->
  100 <= JsDate.getFullYear (t + JsDate.msPerDay).
Proof.
  unfold JsDate.getFullYear. rewrite !year_ge_100.
  unfold JsDate.Day, JsDate.msPerDay.
  replace (t + 86400000) with (t + 1 * 86400000) by lia.
  rewrite Z.div_add by discriminate. lia.
Qed.

Lemma calculateDaysLeft_same_day (today today' : Z) (raw : jsstring) :
  JsDate.Day today' = JsDate.Day today ->
  calculateDaysLeft today' raw = calculateDaysLeft today raw.
Proof.
  intros Hd. unfold calculateDaysLeft, JsDate.getFullYear, JsDate.getMonth,
               JsDate.getDate.
  now rewrite Hd.
Qed.

(** X10.  The days left depend only on the calendar day of [today], not on
    the time of day; and for a valid [today] from the year 100 on they go
    down by exactly one when [today] moves to the next day, whatever the
    date string. *)
Theorem days_left_countdown (today : Z) (raw : jsstring) (days : Z)
        (Hvalid : Z.abs today <= 8640000000000000)
        (Hnext : today + JsDate.msPerDay <= 8640000000000000)
        (Hyear : 100 <= JsDate.getFullYear today)
        (Hdays : calculateDaysLeft today raw = Some days) :
  calculateDaysLeft (today + JsDate.msPerDay) raw = Some (days - 1)
  /\ (forall today', JsDate.Day today' = JsDate.Day today ->
                     calculateDaysLeft today' raw = Some days).
Proof.
  split.
  - unfold calculateDaysLeft in *.
    destruct (parseKoreanDate raw) as [parsed|]; [|discriminate].
    assert (Hvalid' : Z.abs (today + JsDate.msPerDay) <= 8640000000000000)
      by (unfold JsDate.msPerDay in *; lia).
    rewrite (construct_fields _ Hvalid' (getFullYear_next_day _ Hyear)).
    rewrite (construct_fields _ Hvalid Hyear) in Hdays.
    destruct (JsDate.construct (JsDate.getFullYear parsed)
                               (JsDate.getMonth parsed) (JsDate.getDate parsed))
      as [target|]; [|discriminate].
    injection Hdays as <-. f_equal.
    unfold JsDate.Day, JsDate.msPerDay.
    replace (today + 86400000) with (today + 1 * 86400000) by lia.
    rewrite Z.div_add by discriminate.
    replace (target - (today / 86400000 + 1) * 86400000)
      with (target - today / 86400000 * 86400000 + -1 * 86400000) by lia.
    rewrite Z.div_add by discriminate. lia.
  - intros today' Hd. now rewrite (calculateDaysLeft_same_day today today' raw Hd).
Qed.
End DaysLeftFacts.

(** Evaluation of [days_left_countdown]: on 2 January 2026 the date
    1 May 2026 is 119 days ahead. *)
Lemma days_left_countdown_witness :
  Portfolio.calculateDaysLeft AlertFixtures.today (js "2026년 5월 1일") = Some 120
  /\ Portfolio.calculateDaysLeft (AlertFixtures.today + JsDate.msPerDay)
                                 (js "2026년 5월 1일")
     = Some (120 - 1).
Proof.
  split; [reflexivity|].
  refine (proj1 (days_left_countdown AlertFixtures.today (js "2026년 5월 1일") 120
                   _ _ _ eq_refl)).
  - vm_compute. discriminate.
  - vm_compute. discriminate.
  - vm_compute. discriminate.
Defined.

(** ** Alerts *)

Section SortedInput.
Context {A : Type} (key : A -> Z).

Lemma sortInsert_head (x : A) (l : list A) :
  HdRel (fun a b => key a <= key b) x l ->
  sortInsert (fun a b => key a - key b) x l = x :: l.
Proof.
  intros Hhd. destruct l as [|y l]; [reflexivity|]. simpl.
  inversion Hhd as [|? ? Hxy]; subst.
  destruct (0 <? key x - key y) eqn:E; [|reflexivity].
  apply Z.ltb_lt in E. lia.
Qed.

Lemma sort_of_sorted (l : list A) :
  Sorted (fun a b => key a <= key b) l ->
  sort (fun a b => key a - key b) l = l.
Proof.
  induction 1 as [|x l Hl IH Hhd]; simpl; [reflexivity|].
  rewrite IH. now apply sortInsert_head.
Qed.
End SortedInput.

Section AlertBounds.
Import Portfolio.

Lemma dueAlert_length (today : Z) (raw : jsstring) (mk : Z -> RenewalAlert) :
  (List.length (dueAlert today raw mk) <= 1)%nat.
Proof.
  unfold dueAlert. destruct (calculateDaysLeft today raw) as [d|]; simpl; [|lia].
  destruct ((0 <=? d) && (d <=? 120)); simpl; lia.
Qed.

Lemma pushedAlerts_length (today : Z) (units : list PortfolioUnit) :
  (List.length (pushedAlerts today units) <= 2 * List.length units)%nat.
Proof.
  unfold pushedAlerts. induction units as [|unit units IH]; simpl; [lia|].
  rewrite length_app, alertsOfUnit_eq, length_app.
  pose proof (dueAlert_length today (contractRenewalRaw unit) (contractAlert unit)).
  pose proof (dueAlert_length today (loanRenewalRaw unit) (loanAlert unit)).
  lia.
Qed.

(** X11.  Every alert of [buildRenewalAlerts] has between 0 and 120 days
    left; a unit gives at most two alerts, so there are at most twice as
    many alerts as units and none for an empty list; and the returned list
    is already in its final order: sorting it again changes nothing. *)
Theorem alerts_bounded (today : Z) (units : list PortfolioUnit) :
  Forall (fun a => 0 <= daysLeft a <= 120) (buildRenewalAlerts today units)
  /\ (List.length (buildRenewalAlerts today units) <= 2 * List.length units)%nat
  /\ sort (fun a b => daysLeft a - daysLeft b) (buildRenewalAlerts today units)
     = buildRenewalAlerts today units
  /\ buildRenewalAlerts today [] = [].
Proof.
  split; [|split; [|split; [|reflexivity]]].
  - apply Forall_forall. intros a Hin. unfold buildRenewalAlerts in Hin.
    apply (Permutation_in _ (Permutation_sym (sort_perm daysLeft _))) in Hin.
    apply In_pushedAlerts in Hin.
    destruct Hin as (unit & d & _ & [[[_ Hd] ->]|[[_ Hd] ->]]); exact Hd.
  - unfold buildRenewalAlerts.
    rewrite <- (Permutation_length (sort_perm daysLeft _)).
    apply pushedAlerts_length.
  - apply (sort_of_sorted daysLeft). unfold buildRenewalAlerts.
    apply (sort_sorted daysLeft).
Qed.
End AlertBounds.

(** ** Rows of the summary sheet *)

Section EntryFacts.
Import Sheets.

Lemma eqb_eq (a b : jsstring) : JsStr.eqb a b = true <-> a = b.
Proof.
  unfold JsStr.eqb. destruct (list_eq_dec N.eq_dec a b); split;
    congruence.
Qed.

Lemma eqb_refl (a : jsstring) : JsStr.eqb a a = true.
Proof. now apply eqb_eq. Qed.

Lemma eqb_neq (a b : jsstring) : a <> b -> JsStr.eqb a b = false.
Proof.
  intros Hne. destruct (JsStr.eqb a b) eqn:E; [|reflexivity].
  apply eqb_eq in E. contradiction.
Qed.

Lemma hasProp_iff (row : SheetRow) (key : jsstring) :
  hasProp row key = true <-> In key (Object_keys row).
Proof.
  induction row as [|[k x] row IH]; simpl; [split; [discriminate | tauto]|].
  rewrite orb_true_iff, eqb_eq, IH. tauto.
Qed.

Lemma keys_replaceProp (row : SheetRow) (key : jsstring) (value : jsval) :
  Object_keys (replaceProp row key value) = Object_keys row.
Proof.
  induction row as [|[k x] row IH]; simpl; [reflexivity|].
  destruct (JsStr.eqb k key); simpl; [reflexivity | now rewrite IH].
Qed.

Lemma keys_insertIndexProp (row row' : SheetRow) (key : jsstring)
      (value value' : jsval) :
  Object_keys row = Object_keys row' ->
  Object_keys (insertIndexProp row key value)
  = Object_keys (insertIndexProp row' key value').
Proof.
  revert row'. induction row as [|[k x] row IH]; intros [|[k' x'] row'];
    simpl; try discriminate; [reflexivity|].
  intros [= <- Hk].
  destruct (isIndexKey k && (Num.digitsValue 0 k <? Num.digitsValue 0 key));
    simpl; [now rewrite (IH row' Hk) | now rewrite Hk].
Qed.

(** The property names after an assignment depend only on the names
    before it. *)
Lemma keys_setProp (row row' : SheetRow) (key : jsstring)
      (value value' : jsval) :
  Object_keys row = Object_keys row' ->
  Object_keys (setProp row key value) = Object_keys (setProp row' key value').
Proof.
  intros Hk. unfold setProp.
  assert (Hhas : hasProp row key = hasProp row' key).
  { destruct (hasProp row key) eqn:E.
    - symmetry. apply hasProp_iff. rewrite <- Hk. now apply hasProp_iff.
    - destruct (hasProp row' key) eqn:E'; [|reflexivity].
      apply hasProp_iff in E'. rewrite <- Hk in E'.
      apply hasProp_iff in E'. congruence. }
  rewrite <- Hhas. destruct (hasProp row key).
  - now rewrite !keys_replaceProp.
  - destruct (isIndexKey key); [now apply keys_insertIndexProp|].
    unfold Object_keys in *. now rewrite !map_app, Hk.
Qed.

Lemma in_keys_insertIndexProp (row : SheetRow) (key : jsstring)
      (value : jsval) (name : jsstring) :
  In name (Object_keys (insertIndexProp row key value))
  <-> name = key \/ In name (Object_keys row).
Proof.
  induction row as [|[k x] row IH]; simpl; [intuition congruence|].
  destruct (isIndexKey k && (Num.digitsValue 0 k <? Num.digitsValue 0 key));
    simpl; [rewrite IH|]; intuition congruence.
Qed.

Lemma in_keys_setProp (row : SheetRow) (key : jsstring) (value : jsval)
      (name : jsstring) :
  In name (Object_keys (setProp row key value))
  <-> name = key \/ In name (Object_keys row).
Proof.
  unfold setProp. destruct (hasProp row key) eqn:E.
  - rewrite keys_replaceProp. apply hasProp_iff in E.
    split; [tauto|]. intros [->|Hin]; assumption.
  - destruct (isIndexKey key); [apply in_keys_insertIndexProp|].
    unfold Object_keys. rewrite map_app, in_app_iff. simpl.
    intuition congruence.
Qed.

Lemma getProp_replaceProp (row : SheetRow) (key : jsstring) (value : jsval)
      (name : jsstring) :
  hasProp row key = true ->
  getProp (replaceProp row key value) name
  = if JsStr.eqb key name then value else getProp row name.
Proof.
  induction row as [|[k x] row IH]; simpl; [discriminate|].
  destruct (JsStr.eqb k key) eqn:E; simpl.
  - intros _. apply eqb_eq in E. subst k. now destruct (JsStr.eqb key name).
  - intros Hhas. rewrite (IH Hhas).
    destruct (JsStr.eqb k name) eqn:En; [|reflexivity].
    apply eqb_eq in En. subst k.
    destruct (JsStr.eqb key name) eqn:Ek; [|reflexivity].
    apply eqb_eq in Ek. subst key. now rewrite eqb_refl in E.
Qed.

Lemma getProp_insertIndexProp (row : SheetRow) (key : jsstring) (value : jsval)
      (name : jsstring) :
  hasProp row key = false ->
  getProp (insertIndexProp row key value) name
  = if JsStr.eqb key name then value else getProp row name.
Proof.
  induction row as [|[k x] row IH]; simpl; [intros _; reflexivity|].
  intros Hhas. apply orb_false_iff in Hhas. destruct Hhas as [Hk Hrow].
  destruct (isIndexKey k && (Num.digitsValue 0 k <? Num.digitsValue 0 key));
    simpl; [|reflexivity].
  rewrite (IH Hrow).
  destruct (JsStr.eqb k name) eqn:En; [|reflexivity].
  apply eqb_eq in En. subst k.
  rewrite (eqb_neq key name); [reflexivity|].
  intros ->. now rewrite eqb_refl in Hk.
Qed.

Lemma getProp_app_new (row : SheetRow) (key : jsstring) (value : jsval)
      (name : jsstring) :
  hasProp row key = false ->
  getProp (row ++ [(key, value)]) name
  = if JsStr.eqb key name then value else getProp row name.
Proof.
  induction row as [|[k x] row IH]; simpl.
  - intros _. now destruct (JsStr.eqb key name).
  - intros Hhas. apply orb_false_iff in Hhas. destruct Hhas as [Hk Hrow].
    rewrite (IH Hrow).
    destruct (JsStr.eqb k name) eqn:En; [|reflexivity].
    apply eqb_eq in En. subst k.
    rewrite (eqb_neq key name); [reflexivity|].
    intros ->. now rewrite eqb_refl in Hk.
Qed.

(** Reading after an assignment: the assigned name reads the new value,
    every other name reads what it read before. *)
Lemma getProp_setProp (row : SheetRow) (key : jsstring) (value : jsval)
      (name : jsstring) :
  getProp (setProp row key value) name
  = if JsStr.eqb key name then value else getProp row name.
Proof.
  unfold setProp. destruct (hasProp row key) eqn:E.
  - now apply getProp_replaceProp.
  - destruct (isIndexKey key);
      [now apply getProp_insertIndexProp | now apply getProp_app_new].
Qed.

Lemma assign_ordinary (entry : Entry) (key : jsstring) (value : jsval) :
  key <> protoKey ->
  assign entry key value
  = {| props := setProp (props entry) key value; plain := plain entry |}.
Proof.
  intros Hne. unfold assign. now rewrite (eqb_neq _ _ Hne).
Qed.

(** An assignment adds no other name than its own, and removes none. *)
Lemma in_keys_assign (entry : Entry) (key : jsstring) (value : jsval)
      (name : jsstring) :
  In name (Object_keys (props (assign entry key value))) ->
  name = key \/ In name (Object_keys (props entry)).
Proof.
  unfold assign.
  destruct (JsStr.eqb key protoKey && negb (hasProp (props entry) key)
            && plain entry).
  - destruct value; simpl; tauto.
  - simpl. now rewrite in_keys_setProp.
Qed.

Lemma keys_assign_mono (entry : Entry) (key : jsstring) (value : jsval)
      (name : jsstring) :
  In name (Object_keys (props entry)) ->
  In name (Object_keys (props (assign entry key value))).
Proof.
  intros Hin. unfold assign.
  destruct (JsStr.eqb key protoKey && negb (hasProp (props entry) key)
            && plain entry).
  - destruct value; simpl; exact Hin.
  - simpl. rewrite in_keys_setProp. now right.
Qed.

(** An assignment to another name leaves what a name reads. *)
Lemma getProp_assign_other (entry : Entry) (key : jsstring) (value : jsval)
      (name : jsstring) :
  key <> name ->
  getProp (props (assign entry key value)) name = getProp (props entry) name.
Proof.
  intros Hne. unfold assign.
  destruct (JsStr.eqb key protoKey && negb (hasProp (props entry) key)
            && plain entry).
  - destruct value; reflexivity.
  - simpl. now rewrite getProp_setProp, (eqb_neq _ _ Hne).
Qed.

Lemma keys_fillFrom (gr gr' : GvizRow) (headers : list jsstring) (i i' : nat)
      (entry entry' : Entry) :
  ~ In protoKey headers ->
  Object_keys (props entry) = Object_keys (props entry') ->
  Object_keys (props (fillFrom gr headers i entry))
  = Object_keys (props (fillFrom gr' headers i' entry')).
Proof.
  revert i i' entry entry'.
  induction headers as [|header headers IH]; intros i i' entry entry' Hno Hk;
    simpl; [exact Hk|].
  assert (Hne : header <> protoKey) by (intros ->; apply Hno; now left).
  apply IH; [intros Hin; apply Hno; now right|].
  rewrite !(assign_ordinary _ _ _ Hne). simpl. now apply keys_setProp.
Qed.

Lemma in_keys_fillFrom (gr : GvizRow) (headers : list jsstring) (i : nat)
      (entry : Entry) (name : jsstring) :
  In name (Object_keys (props (fillFrom gr headers i entry))) ->
  In name headers \/ In name (Object_keys (props entry)).
Proof.
  revert i entry. induction headers as [|header headers IH]; intros i entry;
    simpl; [tauto|].
  intros Hin. apply IH in Hin. destruct Hin as [Hin|Hin]; [tauto|].
  apply in_keys_assign in Hin. intuition congruence.
Qed.

Lemma keys_fillFrom_mono (gr : GvizRow) (headers : list jsstring) (i : nat)
      (entry : Entry) (name : jsstring) :
  In name (Object_keys (props entry)) ->
  In name (Object_keys (props (fillFrom gr headers i entry))).
Proof.
  revert i entry. induction headers as [|header headers IH]; intros i entry;
    simpl; [tauto|].
  intros Hin. apply IH. now apply keys_assign_mono.
Qed.

(** Every header other than [__proto__] becomes a property. *)
Lemma headers_in_keys (gr : GvizRow) (headers : list jsstring) (i : nat)
      (entry : Entry) (name : jsstring) :
  In name headers -> name <> protoKey ->
  In name (Object_keys (props (fillFrom gr headers i entry))).
Proof.
  revert i entry. induction headers as [|header headers IH]; intros i entry;
    simpl; [tauto|].
  intros [->|Hin] Hne; [|now apply IH].
  apply keys_fillFrom_mono. rewrite (assign_ordinary _ _ _ Hne). simpl.
  rewrite in_keys_setProp. now left.
Qed.

Lemma getProp_fillFrom_other (gr : GvizRow) (headers : list jsstring) (i : nat)
      (entry : Entry) (name : jsstring) :
  ~ In name headers ->
  getProp (props (fillFrom gr headers i entry)) name
  = getProp (props entry) name.
Proof.
  revert i entry. induction headers as [|header headers IH]; intros i entry Hn;
    simpl; [reflexivity|].
  rewrite IH by (intros Hin; apply Hn; now right).
  apply getProp_assign_other. intros ->. apply Hn. now left.
Qed.

(** The last column that carries a header decides what the header reads. *)
Lemma getProp_fillFrom_last (gr : GvizRow) (front back : list jsstring)
      (key : jsstring) (i : nat) (entry : Entry) :
  ~ In key back -> key <> protoKey ->
  getProp (props (fillFrom gr (front ++ key :: back) i entry)) key
  = nullish (Detail.rawValue (Detail.cellAt (c gr) (i + List.length front))) Null.
Proof.
  intros Hback Hne. revert i entry.
  induction front as [|header front IH]; intros i entry; simpl.
  - rewrite getProp_fillFrom_other by exact Hback.
    rewrite (assign_ordinary _ _ _ Hne). simpl.
    now rewrite getProp_setProp, eqb_refl, Nat.add_0_r.
  - rewrite IH. now rewrite Nat.add_succ_r.
Qed.

Lemma headerOf_nonempty (column : GvizCol) (index : nat) :
  headerOf column index <> [].
Proof.
  unfold headerOf. destruct (label column) as [l|]; [|discriminate].
  destruct (Detail.truthy l && Detail.truthy (JsStr.trim l)) eqn:E;
    [|discriminate].
  apply andb_true_iff in E. destruct E as [_ E].
  destruct (JsStr.trim l); [discriminate E | discriminate].
Qed.

Lemma headersOf_nonempty (table : GvizTable) : ~ In [] (headersOf table).
Proof.
  unfold headersOf, mapi. generalize 0%nat.
  induction (cols table) as [|column columns IH]; intros i; simpl; [tauto|].
  intros [E|Hin]; [exact (headerOf_nonempty column i E) | exact (IH _ Hin)].
Qed.

Lemma nullish_defined (value : jsval) : nullish value Null <> Undefined.
Proof. destruct value; discriminate. Qed.

(** X12.  The rows handed to the page have one shape: there is one row per
    table row; the property names of a row are headers, every header other
    than [__proto__] is a property name of every row, and no name is the
    empty string; when no column is labelled [__proto__] all rows list the
    same names in the same order; a header other than [__proto__] reads the
    raw value of the cell in the last column that carries it, or [null] when
    that cell is empty or missing, and never [undefined].  A column labelled
    [__proto__] is the exception: assigning to it runs the setter of
    [Object.prototype], so a sheet with that single column yields rows
    without any property, and a second column of that label becomes a
    property only after a [null] in the first has taken the prototype
    away. *)
Theorem sheet_rows_shape (table : GvizTable) :
  List.length (sheetRowsOf table) = List.length (rows table)
  /\ Forall (fun row =>
               (forall name, In name (Object_keys row) ->
                             In name (headersOf table))
               /\ (forall name, In name (headersOf table) ->
                                name <> protoKey ->
                                In name (Object_keys row))
               /\ ~ In [] (Object_keys row))
            (sheetRowsOf table)
  /\ (~ In protoKey (headersOf table) ->
      forall row row', In row (sheetRowsOf table) ->
                       In row' (sheetRowsOf table) ->
                       Object_keys row = Object_keys row')
  /\ (forall gr front key back,
         headersOf table = front ++ key :: back -> ~ In key back ->
         key <> protoKey ->
         getProp (toEntry (headersOf table) gr) key
         = nullish (Detail.rawValue (Detail.cellAt (c gr) (List.length front)))
                   Null
         /\ getProp (toEntry (headersOf table) gr) key <> Undefined)
  /\ (forall gr, toEntry [protoKey] gr = [])
  /\ (forall text,
         toEntry [protoKey; protoKey]
                 {| c := [None; Some {| v := Str text; f := None |}] |}
         = [(protoKey, Str text)]
         /\ toEntry [protoKey; protoKey]
                    {| c := [Some {| v := Str text; f := None |};
                             Some {| v := Str text; f := None |}] |}
            = []).
Proof.
  unfold sheetRowsOf. split; [apply length_map|].
  split; [|split; [|split; [|split]]].
  - apply Forall_forall. intros row Hin. apply in_map_iff in Hin.
    destruct Hin as (gr & <- & _).
    assert (Hnames : forall name,
               In name (Object_keys (toEntry (headersOf table) gr))
               -> In name (headersOf table)).
    { intros name Hn. unfold toEntry in Hn. apply in_keys_fillFrom in Hn.
      simpl in Hn. tauto. }
    split; [exact Hnames|]. split.
    + intros name Hin Hne. unfold toEntry. now apply headers_in_keys.
    + intros Hin. apply Hnames in Hin. exact (headersOf_nonempty table Hin).
  - intros Hno row row' Hin Hin'. apply in_map_iff in Hin, Hin'.
    destruct Hin as (gr & <- & _). destruct Hin' as (gr' & <- & _).
    unfold toEntry. now apply keys_fillFrom.
  - intros gr front key back Hh Hback Hne.
    assert (E : getProp (toEntry (headersOf table) gr) key
                = nullish (Detail.rawValue
                             (Detail.cellAt (c gr) (List.length front))) Null).
    { unfold toEntry. rewrite Hh.
      now rewrite (getProp_fillFrom_last gr front back key 0 emptyObject
                                         Hback Hne). }
    split; [exact E|]. rewrite E. apply nullish_defined.
  - intros gr. unfold toEntry. simpl. unfold assign. simpl.
    now destruct (nullish (Detail.rawValue (Detail.cellAt (c gr) 0)) Null).
  - intros text. split; reflexivity.
Qed.
End EntryFacts.

(** Evaluation of [sheet_rows_shape]: the first header of the sample table
    reads the raw value of the first cell. *)
Lemma sheet_rows_shape_witness :
  getProp (Sheets.toEntry (Sheets.headersOf SheetFixtures.summaryTable)
                          {| c := [DetailFixtures.textCell "A동 102호"] |})
          (js "현장")
  = Str (js "A동 102호").
Proof.
  pose proof (sheet_rows_shape SheetFixtures.summaryTable)
    as (_ & _ & _ & Hread & _).
  refine (proj1 (Hread {| c := [DetailFixtures.textCell "A동 102호"] |}
                       [] (js "현장")
                       [js "column_2"; js "column_3"; js "대출금"]
                       eq_refl _ _)).
  - intros [E|[E|[E|[]]]]; discriminate E.
  - intros E; discriminate E.
Defined.

(** ** From the decoded table to the units *)

Section TableToUnits.
Context `{JSBuiltins}.
Import Portfolio Sheets.

Lemma findLikelyColumn_no_match (columns keys : list jsstring) :
  (forall key column, In key keys -> In column columns ->
                      labelMatches key column = false) ->
  findLikelyColumn columns keys = [].
Proof.
  unfold findLikelyColumn.
  induction keys as [|key keys IH]; intros Hno; simpl; [reflexivity|].
  rewrite find_lowered_none.
  - apply IH. intros k c0 Hk Hc. apply Hno; [now right | exact Hc].
  - intros c0 Hc. apply Hno; [now left | exact Hc].
Qed.

Lemma no_units_of_blank_sites (rows : list SheetRow) :
  siteColumnOf rows = [] ->
  Forall (fun row => ~ In [] (Object_keys row)) rows ->
  toPortfolioUnits rows = [].
Proof.
  intros Hsite Hkeys.
  apply length_zero_iff_nil. rewrite toPortfolioUnits_length.
  unfold keptRows. rewrite Hsite.
  assert (Hblank : Forall (fun row => hasSite [] row = false) rows).
  { eapply Forall_impl; [|exact Hkeys]. intros row Hrow.
    unfold hasSite, field. now rewrite (getProp_absent _ _ Hrow). }
  generalize (isSumRow []). intros p. clear Hsite Hkeys.
  induction Hblank as [|row l Hrow _ IH]; simpl; [reflexivity|].
  destruct (p row); simpl; [reflexivity|]. rewrite Hrow. exact IH.
Qed.

Lemma sheetRows_keys (table : GvizTable) (row : SheetRow) :
  In row (sheetRowsOf table) ->
  (forall name, In name (Object_keys row) -> In name (headersOf table))
  /\ ~ In [] (Object_keys row).
Proof.
  intros Hin. apply in_map_iff in Hin. destruct Hin as (gr & <- & _).
  assert (Hnames : forall name,
             In name (Object_keys (toEntry (headersOf table) gr)) ->
             In name (headersOf table)).
  { intros name Hn. unfold toEntry in Hn. apply in_keys_fillFrom in Hn.
    simpl in Hn. tauto. }
  split; [exact Hnames|].
  intros Hin. exact (headersOf_nonempty table (Hnames _ Hin)).
Qed.

(** X13.  A sheet none of whose headers contains a site keyword yields no
    units at all: the rows built from the decoded table have no property
    for the unresolved site column, so every row reads a blank site and is
    dropped. *)
Theorem no_site_header_no_units (table : GvizTable) :
  (forall key header, In key siteKeys -> In header (headersOf table) ->
                      labelMatches key header = false) ->
  toPortfolioUnits (sheetRowsOf table) = [].
Proof.
  intros Hno. apply no_units_of_blank_sites.
  - destruct (sheetRowsOf table) as [|row0 rest] eqn:E; [reflexivity|].
    assert (Hin0 : In row0 (sheetRowsOf table)) by (rewrite E; now left).
    simpl. apply findLikelyColumn_no_match.
    intros key column Hkey Hcol. apply Hno; [exact Hkey|].
    exact (proj1 (sheetRows_keys table row0 Hin0) column Hcol).
  - apply Forall_forall. intros row Hin.
    exact (proj2 (sheetRows_keys table row Hin)).
Qed.
End TableToUnits.

(** Evaluation of [no_site_header_no_units] on a table whose headers are
    명의 and column_2. *)
Lemma no_site_header_no_units_witness :
  List.length (Sheets.sheetRowsOf SheetFixtures.unnamedTable) = 2%nat
  /\ Portfolio.toPortfolioUnits (H := Sample.builtins)
                                (Sheets.sheetRowsOf SheetFixtures.unnamedTable)
     = [].
Proof.
  split; [reflexivity|].
  apply (no_site_header_no_units (H := Sample.builtins)).
  intros key header [<-|[<-|[<-|[]]]] [<-|[<-|[]]]; reflexivity.
Defined.

(** ** Routing table *)

Section SlugFacts.
Import Routes.

Lemma slugs_distinct : NoDup (List.map slug UNIT_DETAIL_ROUTES).
Proof.
  repeat (constructor;
          [simpl; intros Hin;
           repeat (destruct Hin as [Hin|Hin]; [discriminate Hin|]);
           exact Hin|]).
  constructor.
Qed.

Lemma gids_distinct : NoDup (List.map gid UNIT_DETAIL_ROUTES).
Proof.
  repeat (constructor;
          [simpl; intros Hin;
           repeat (destruct Hin as [Hin|Hin]; [discriminate Hin|]);
           exact Hin|]).
  constructor.
Qed.

(** X14.  A slug resolves to the route that carries it and to no other:
    [getUnitDetailBySlug] returns a route of the table with exactly that slug,
    or [null] when no route has it; every route of the table is found by its
    own slug, and no two routes share a slug or a sheet tab. *)
Theorem route_by_slug (slug0 : jsstring) :
  match getUnitDetailBySlug slug0 with
  | Some route => In route UNIT_DETAIL_ROUTES /\ slug route = slug0
  | None => forall route, In route UNIT_DETAIL_ROUTES -> slug route <> slug0
  end
  /\ (forall route, In route UNIT_DETAIL_ROUTES ->
                    getUnitDetailBySlug (slug route) = Some route)
  /\ NoDup (List.map slug UNIT_DETAIL_ROUTES)
  /\ NoDup (List.map gid UNIT_DETAIL_ROUTES).
Proof.
  split; [|split; [|split; [exact slugs_distinct | exact gids_distinct]]].
  - unfold getUnitDetailBySlug.
    destruct (find _ UNIT_DETAIL_ROUTES) as [route|] eqn:E.
    + apply find_some in E. destruct E as [Hin Heq].
      split; [exact Hin | now apply eqb_eq].
    + intros route Hin Heq.
      pose proof (find_none _ _ E route Hin) as Hf. simpl in Hf.
      rewrite Heq, eqb_refl in Hf. discriminate.
  - intros route Hin. unfold UNIT_DETAIL_ROUTES in Hin. simpl in Hin.
    repeat (destruct Hin as [<-|Hin]; [reflexivity|]). destruct Hin.
Qed.
End SlugFacts.

Section SiteFacts.
Context `{JSBuiltins}.
Import Routes.

Lemma find_ext_in {A : Type} (p q : A -> bool) (l : list A) :
  (forall x, In x l -> p x = q x) -> find p l = find q l.
Proof.
  induction l as [|x l IH]; intros Hpq; simpl; [reflexivity|].
  rewrite (Hpq x (or_introl eq_refl)). destruct (q x); [reflexivity|].
  apply IH. intros y Hy. apply Hpq. now right.
Qed.

Lemma existsb_ext_in {A : Type} (p q : A -> bool) (l : list A) :
  (forall x, In x l -> p x = q x) -> existsb p l = existsb q l.
Proof.
  induction l as [|x l IH]; intros Hpq; simpl; [reflexivity|].
  rewrite (Hpq x (or_introl eq_refl)). f_equal.
  apply IH. intros y Hy. apply Hpq. now right.
Qed.

Lemma normalize_agree (value : jsstring) :
  toLowerCase value = List.map Sample.lowerUnit value ->
  normalize value = normalize (H := Sample.builtins) value.
Proof. unfold normalize. intros ->. reflexivity. Qed.

Lemma bySite_agree (site : jsstring) :
  (forall route alias, In route UNIT_DETAIL_ROUTES -> In alias (aliases route) ->
                       toLowerCase alias = List.map Sample.lowerUnit alias) ->
  toLowerCase site = List.map Sample.lowerUnit site ->
  getUnitDetailBySite site = getUnitDetailBySite (H := Sample.builtins) site.
Proof.
  intros Hlow Hsite. unfold getUnitDetailBySite.
  rewrite (normalize_agree site Hsite).
  apply find_ext_in. intros route Hroute.
  apply existsb_ext_in. intros alias Halias.
  now rewrite (normalize_agree alias (Hlow route alias Hroute Halias)).
Qed.

(** X15.  A site name resolves through its normalized form (lower-cased,
    without whitespace and hyphens): [getUnitDetailBySite] returns a route
    one of whose aliases has the same normalized form as the site, or [null]
    when no alias of any route has; two names with the same normalized form
    resolve alike.  Every alias of the table resolves to some route, and to
    its own route when lower-casing leaves its Hangul, digits and spaces alone
    and lowers its Latin capitals. *)
Theorem route_by_site (site : jsstring) :
  match getUnitDetailBySite site with
  | Some route =>
    In route UNIT_DETAIL_ROUTES
    /\ exists alias, In alias (aliases route)
                     /\ normalize alias = normalize site
  | None =>
    forall route alias, In route UNIT_DETAIL_ROUTES ->
                        In alias (aliases route) ->
                        normalize alias <> normalize site
  end
  /\ (forall site', normalize site' = normalize site ->
                    getUnitDetailBySite site' = getUnitDetailBySite site)
  /\ (forall route alias, In route UNIT_DETAIL_ROUTES ->
                          In alias (aliases route) ->
                          getUnitDetailBySite alias <> None)
  /\ ((forall route alias, In route UNIT_DETAIL_ROUTES ->
                           In alias (aliases route) ->
                           toLowerCase alias = List.map Sample.lowerUnit alias) ->
      forall route alias, In route UNIT_DETAIL_ROUTES ->
                          In alias (aliases route) ->
                          getUnitDetailBySite alias = Some route).
Proof.
  split; [|split; [|split]].
  - unfold getUnitDetailBySite.
    destruct (find _ UNIT_DETAIL_ROUTES) as [route|] eqn:E.
    + apply find_some in E. destruct E as [Hin Hex].
      split; [exact Hin|]. apply existsb_exists in Hex.
      destruct Hex as (alias & Halias & Heq).
      exists alias. split; [exact Halias | now apply eqb_eq].
    + intros route alias Hroute Halias Heq.
      pose proof (find_none _ _ E route Hroute) as Hf. simpl in Hf.
      assert (Ht : existsb (fun a => JsStr.eqb (normalize a) (normalize site))
                           (aliases route) = true).
      { apply existsb_exists. exists alias. split; [exact Halias|].
        now apply eqb_eq. }
      congruence.
  - intros site' Heq. unfold getUnitDetailBySite. now rewrite Heq.
  - intros route alias Hroute Halias. unfold getUnitDetailBySite.
    destruct (find _ UNIT_DETAIL_ROUTES) as [found|] eqn:E; [discriminate|].
    pose proof (find_none _ _ E route Hroute) as Hf. simpl in Hf.
    assert (Ht : existsb (fun a => JsStr.eqb (normalize a) (normalize alias))
                         (aliases route) = true).
    { apply existsb_exists. exists alias. split; [exact Halias|].
      apply eqb_refl. }
    congruence.
  - intros Hlow route alias Hroute Halias.
    rewrite (bySite_agree alias Hlow (Hlow route alias Hroute Halias)).
    unfold UNIT_DETAIL_ROUTES in Hroute. simpl in Hroute.
    repeat (destruct Hroute as [<-|Hroute];
            [simpl in Halias;
             repeat (destruct Halias as [<-|Halias];
                     [vm_compute; reflexivity|]);
             destruct Halias|]).
    destruct Hroute.
Qed.
End SiteFacts.

(** Evaluation of [route_by_site]: a name written in lower case and
    without spaces or hyphen resolves like the alias it normalizes to. *)
Lemma route_by_site_witness :
  Routes.getUnitDetailBySite (H := Sample.builtins) (js "gl메트로시티한강aa509호")
  = Routes.getUnitDetailBySite (H := Sample.builtins)
                               (js "GL메트로시티 한강 AA-509호").
Proof.
  pose proof (route_by_site (H := Sample.builtins)
                            (js "GL메트로시티 한강 AA-509호")) as (_ & Hsame & _).
  apply Hsame. vm_compute. reflexivity.
Defined.

(** ** Response envelope *)

Section EnvelopeFacts.
Import Sheets.

Lemma matchToEnd_pieces (items : list Regex.item) (s : jsstring)
      (pieces : list jsstring) :
  matchToEnd items s = Some pieces ->
  Forall2 Consumed items pieces /\ List.concat pieces = s.
Proof.
  revert s pieces. induction items as [|it rest IH]; intros s pieces; simpl.
  - destruct s; [|discriminate]. intros [= <-]. split; [constructor | reflexivity].
  - destruct (Regex.run it s 0 <? Regex.lo it)%nat eqn:El; [discriminate|].
    apply Nat.ltb_ge in El. intros Hm.
    apply tryDown_some in Hm. destruct Hm as (k & Hk & Hg).
    destruct (matchToEnd rest (skipn k s)) as [pieces'|] eqn:Er; [|discriminate].
    injection Hg as <-.
    destruct (IH _ _ Er) as [Hrest Hcat].
    assert (Hpre : Forall (fun u => Regex.cls it u = true) (firstn k s))
      by (apply (run_prefix it s 0 k); lia).
    pose proof (run_le it s 0) as Hlen.
    split.
    + constructor; [|exact Hrest].
      split; [exact Hpre|]. rewrite length_firstn. split; [lia|].
      destruct (Regex.hi it) as [h|] eqn:Eh; [|exact I].
      pose proof (run_bound it h s 0 Eh ltac:(lia)). lia.
    + simpl. rewrite Hcat. apply firstn_skipn.
Qed.

Lemma searchToEnd_pieces (items : list Regex.item) (s : jsstring)
      (pieces : list jsstring) :
  searchToEnd items s = Some pieces ->
  Forall2 Consumed items pieces /\ exists before, s = before ++ List.concat pieces.
Proof.
  induction s as [|u s IH]; simpl.
  - destruct (matchToEnd items []) eqn:E; [|discriminate].
    intros [= <-]. destruct (matchToEnd_pieces _ _ _ E) as [Hc Hcat].
    split; [exact Hc|]. exists []. now rewrite Hcat.
  - destruct (matchToEnd items (u :: s)) eqn:E.
    + intros [= <-]. destruct (matchToEnd_pieces _ _ _ E) as [Hc Hcat].
      split; [exact Hc|]. exists []. now rewrite Hcat.
    + intros Hs. destruct (IH Hs) as [Hc (before & ->)].
      split; [exact Hc|]. now exists (u :: before).
Qed.

Lemma tryDown_first {R : Type} (g : nat -> option R) (base extra k : nat)
      (r : R) :
  (base <= k <= base + extra)%nat -> g k = Some r ->
  (forall j, (k < j <= base + extra)%nat -> g j = None) ->
  Regex.tryDown g base extra = Some r.
Proof.
  induction extra as [|extra IH]; intros Hk Hg Hnone; simpl.
  - replace (base + 0)%nat with k by lia. now rewrite Hg.
  - destruct (Nat.eq_dec k (base + S extra)) as [->|Hne].
    + now rewrite Hg.
    + rewrite (Hnone (base + S extra)%nat) by lia.
      apply IH; [lia | exact Hg |]. intros j Hj. apply Hnone. lia.
Qed.

Lemma run_any (s : jsstring) (k : nat) :
  Regex.run anyStar s k = (k + List.length s)%nat.
Proof.
  revert k. induction s as [|u s IH]; intros k; simpl; [lia|].
  rewrite IH. lia.
Qed.

Lemma matchToEnd_lit (u : N) (rest : list Regex.item) (s : jsstring) :
  matchToEnd ({| Regex.cls := N.eqb u; Regex.lo := 1; Regex.hi := Some 1%nat |}
                :: rest) s
  = match s with
    | c0 :: s' =>
      if (u =? c0)%N
      then match matchToEnd rest s' with
           | Some pieces => Some ([c0] :: pieces)
           | None => None
           end
      else None
    | [] => None
    end.
Proof.
  destruct s as [|c0 s']; [reflexivity|].
  cbn [matchToEnd Regex.run Regex.cls Regex.lo Regex.hi Regex.within].
  destruct (u =? c0)%N; [|reflexivity].
  assert (Hrun : Regex.run {| Regex.cls := N.eqb u; Regex.lo := 1;
                              Regex.hi := Some 1%nat |} s' 1 = 1%nat).
  { destruct s' as [|c1 s'']; [reflexivity|].
    cbn [Regex.run Regex.cls Regex.hi Regex.within].
    now rewrite andb_false_r. }
  cbn [andb Nat.ltb Nat.leb]. rewrite Hrun. simpl.
  destruct (matchToEnd rest s'); reflexivity.
Qed.

Lemma matchToEnd_literal (text : jsstring) (rest : list Regex.item)
      (s : jsstring) :
  matchToEnd (literal text ++ rest) s
  = if JsStr.prefixb text s
    then match matchToEnd rest (skipn (List.length text) s) with
         | Some pieces => Some (List.map (fun u => [u]) text ++ pieces)
         | None => None
         end
    else None.
Proof.
  revert s. induction text as [|u text IH]; intros s.
  - simpl. now destruct (matchToEnd rest s).
  - cbn [literal List.map app]. rewrite matchToEnd_lit.
    destruct s as [|c0 s']; [reflexivity|]. cbn [JsStr.prefixb].
    destruct (u =? c0)%N eqn:E; [|reflexivity].
    apply N.eqb_eq in E. subst c0. cbn [andb].
    fold (literal text). rewrite IH.
    destruct (JsStr.prefixb text s'); [|reflexivity].
    cbn [List.length skipn].
    now destruct (matchToEnd rest (skipn (List.length text) s')).
Qed.

Lemma includes_false_prefixb (s needle : jsstring) (i : nat) :
  JsStr.includes s needle = false ->
  JsStr.prefixb needle (skipn i s) = false.
Proof.
  revert s. induction i as [|i IH]; intros s Hs.
  - destruct s; simpl in *; apply orb_false_iff in Hs; tauto.
  - destruct s as [|u s]; simpl in *.
    + apply orb_false_iff in Hs. tauto.
    + apply orb_false_iff in Hs. apply IH. tauto.
Qed.

Lemma prefixb_app_short (p x y : jsstring) :
  (List.length p <= List.length x)%nat ->
  JsStr.prefixb p (x ++ y) = JsStr.prefixb p x.
Proof.
  revert x. induction p as [|a p IH]; intros x Hl; [now destruct x|].
  destruct x as [|b x]; simpl in *; [lia|].
  rewrite IH by lia. reflexivity.
Qed.

Lemma searchToEnd_skip (items : list Regex.item) (before rest : jsstring) :
  (forall i, (i < List.length before)%nat ->
             matchToEnd items (skipn i (before ++ rest)) = None) ->
  searchToEnd items (before ++ rest) = searchToEnd items rest.
Proof.
  induction before as [|u before IH]; intros Hnone; [reflexivity|].
  cbn [app searchToEnd].
  pose proof (Hnone 0%nat ltac:(simpl; lia)) as H0. simpl in H0. rewrite H0.
  apply IH. intros i Hi. apply (Hnone (S i)). simpl. lia.
Qed.

Lemma searchToEnd_of_match (items : list Regex.item) (s : jsstring)
      (pieces : list jsstring) :
  matchToEnd items s = Some pieces -> searchToEnd items s = Some pieces.
Proof. intros Hm. destruct s; simpl; now rewrite Hm. Qed.
End EnvelopeFacts.

Section EnvelopeClaims.
Import Sheets.
Variable JSON_parse : jsstring -> jsstring + GvizResponse.

Lemma matchToEnd_star (rest : list Regex.item) (s : jsstring) (k : nat)
      (pieces : list jsstring) :
  (k <= List.length s)%nat ->
  matchToEnd rest (skipn k s) = Some pieces ->
  (forall j, (k < j <= List.length s)%nat ->
             matchToEnd rest (skipn j s) = None) ->
  matchToEnd (anyStar :: rest) s = Some (firstn k s :: pieces).
Proof.
  intros Hk Hm Hnone. cbn [matchToEnd]. rewrite run_any.
  cbn [Regex.lo anyStar Nat.ltb Nat.leb]. rewrite Nat.sub_0_r.
  apply (tryDown_first _ 0 (0 + List.length s) k); [lia| |].
  - now rewrite Hm.
  - intros j Hj. rewrite (Hnone j) by lia. reflexivity.
Qed.

Lemma prefixb_app_self (p y : jsstring) : JsStr.prefixb p (p ++ y) = true.
Proof.
  induction p as [|a p IH]; simpl; [now destruct y|].
  now rewrite N.eqb_refl, IH.
Qed.

Lemma skipn_app_exact (x y : jsstring) : skipn (List.length x) (x ++ y) = y.
Proof. induction x as [|a x IH]; simpl; [reflexivity | exact IH]. Qed.

Lemma firstn_app_exact (x y : jsstring) : firstn (List.length x) (x ++ y) = x.
Proof. induction x as [|a x IH]; simpl; [reflexivity | now rewrite IH]. Qed.

Lemma skipn_app_beyond (x y : jsstring) (d : nat) :
  skipn (List.length x + d) (x ++ y) = skipn d y.
Proof. induction x as [|a x IH]; simpl; [reflexivity | exact IH]. Qed.

Lemma match_after_literal (payload terminator : jsstring) :
  terminator = js ")" \/ terminator = js ");" ->
  matchToEnd ([anyStar] ++ literal (js ")") ++ [optional 59])
             (payload ++ terminator)
  = Some (payload :: List.map (fun u => [u]) (js ")") ++ [tl terminator]).
Proof.
  intros Hterm.
  rewrite <- (firstn_app_exact payload terminator) at 2.
  apply matchToEnd_star.
  - rewrite length_app. lia.
  - rewrite skipn_app_exact. destruct Hterm as [->| ->]; reflexivity.
  - intros j Hj. rewrite length_app in Hj.
    replace j with (List.length payload + (j - List.length payload))%nat by lia.
    rewrite skipn_app_beyond.
    destruct Hterm as [->| ->]; simpl in Hj.
    + destruct (j - List.length payload)%nat as [|[|d]] eqn:E; [lia| |];
        reflexivity.
    + destruct (j - List.length payload)%nat as [|[|[|d]]] eqn:E; [lia| | |];
        reflexivity.
Qed.

(** X16.  Decoding strips exactly the envelope: for a response made of any
    text in which "setResponse(" does not occur earlier, then
    "setResponse(", a payload, and ")" or ");" at the very end, the decoder
    hands the payload, unchanged, to [JSON.parse] and returns its result; an
    empty payload is a decode error. *)
Theorem envelope_round_trip (before payload terminator : jsstring)
        (Hfirst : JsStr.includes (before ++ js "setResponse")
                                 (js "setResponse(") = false)
        (Hterm : terminator = js ")" \/ terminator = js ");") :
  let rawText := before ++ js "setResponse(" ++ payload ++ terminator in
  envelopePayload rawText = Some payload
  /\ parseGoogleVisualizationResponse JSON_parse rawText
     = match payload with
       | [] => inl parseErrorMessage
       | _ => JSON_parse payload
       end.
Proof.
  intros rawText.
  assert (Hpay : envelopePayload rawText = Some payload).
  { unfold envelopePayload, rawText.
    rewrite searchToEnd_skip.
    - unfold envelopePattern.
      rewrite (searchToEnd_of_match _ _
                 (List.map (fun u => [u]) (js "setResponse(")
                  ++ payload :: List.map (fun u => [u]) (js ")")
                  ++ [tl terminator])).
      + rewrite nth_error_app2 by (rewrite length_map; lia).
        rewrite length_map, Nat.sub_diag. reflexivity.
      + rewrite matchToEnd_literal, prefixb_app_self, skipn_app_exact.
        now rewrite (match_after_literal payload terminator Hterm).
    - intros i Hi. unfold envelopePattern. rewrite matchToEnd_literal.
      replace (before ++ js "setResponse(" ++ payload ++ terminator)
        with ((before ++ js "setResponse") ++ (40%N :: payload ++ terminator))
        by (rewrite <- app_assoc; reflexivity).
      rewrite skipn_app.
      replace (i - List.length (before ++ js "setResponse"))%nat with 0%nat
        by (rewrite length_app; lia).
      cbn [skipn]. rewrite prefixb_app_short.
      + now rewrite (includes_false_prefixb _ _ i Hfirst).
      + rewrite length_skipn, length_app.
        change (List.length (js "setResponse(")) with 12%nat.
        change (List.length (js "setResponse")) with 11%nat. lia. }
  split; [exact Hpay|].
  unfold parseGoogleVisualizationResponse. rewrite Hpay.
  destruct payload; reflexivity.
Qed.

Lemma consumed_one (u : N) (piece : jsstring) :
  Consumed {| Regex.cls := N.eqb u; Regex.lo := 1; Regex.hi := Some 1%nat |}
           piece ->
  piece = [u].
Proof.
  intros (Hall & Hlo & Hhi). simpl in *.
  destruct piece as [|a [|b piece]]; simpl in *; try lia.
  inversion Hall as [|? ? Ha _]; subst. apply N.eqb_eq in Ha. now subst.
Qed.

Lemma consumed_optional (u : N) (piece : jsstring) :
  Consumed (optional u) piece -> piece = [] \/ piece = [u].
Proof.
  intros (Hall & _ & Hhi). simpl in *.
  destruct piece as [|a [|b piece]]; simpl in *; try lia; [now left|].
  right. inversion Hall as [|? ? Ha _]; subst. apply N.eqb_eq in Ha. now subst.
Qed.

Lemma consumed_literal (text : jsstring) (rest : list Regex.item)
      (pieces : list jsstring) :
  Forall2 Consumed (literal text ++ rest) pieces ->
  exists pieces',
    pieces = List.map (fun u => [u]) text ++ pieces'
    /\ Forall2 Consumed rest pieces'.
Proof.
  revert pieces. induction text as [|u text IH]; intros pieces Hc.
  - exists pieces. split; [reflexivity | exact Hc].
  - cbn [literal List.map app] in Hc.
    inversion Hc as [|? piece ? pieces0 Hone Hrest]; subst.
    apply consumed_one in Hone. subst piece.
    destruct (IH _ Hrest) as (pieces' & -> & Hc').
    exists pieces'. split; [reflexivity | exact Hc'].
Qed.

Lemma concat_singletons (text : jsstring) :
  List.concat (List.map (fun u => [u]) text) = text.
Proof.
  induction text as [|u text IH]; simpl; [reflexivity | now rewrite IH].
Qed.

Lemma envelopePayload_shape (rawText payload : jsstring) :
  envelopePayload rawText = Some payload ->
  exists before terminator,
    rawText = before ++ js "setResponse(" ++ payload ++ terminator
    /\ (terminator = js ")" \/ terminator = js ");").
Proof.
  unfold envelopePayload.
  destruct (searchToEnd envelopePattern rawText) as [pieces|] eqn:E;
    [|discriminate].
  apply searchToEnd_pieces in E. destruct E as [Hc (before & ->)].
  unfold envelopePattern in Hc.
  apply consumed_literal in Hc. destruct Hc as (p1 & -> & Hc).
  cbn [app] in Hc.
  inversion Hc as [|? star ? p2 _ Hc2]; subst. clear Hc.
  inversion Hc2 as [|? closing ? p3 Hclosing Hc3]; subst. clear Hc2.
  apply consumed_one in Hclosing. subst closing.
  inversion Hc3 as [|? opt ? p4 Hopt Hc4]; subst. clear Hc3.
  inversion Hc4; subst. clear Hc4.
  rewrite nth_error_app2 by (rewrite length_map; lia).
  rewrite length_map, Nat.sub_diag. cbn [nth_error]. intros [= <-].
  exists before, (41%N :: opt). split.
  - rewrite concat_app, concat_singletons. cbn [List.concat app].
    now rewrite app_nil_r.
  - apply consumed_optional in Hopt. destruct Hopt as [->| ->];
      [left | right]; reflexivity.
Qed.

Lemma includes_app_self (before needle rest : jsstring) :
  JsStr.includes (before ++ needle ++ rest) needle = true.
Proof.
  induction before as [|u before IH].
  - destruct (needle ++ rest) eqn:E; simpl.
    + destruct needle; [reflexivity | discriminate].
    + rewrite <- E, prefixb_app_self. reflexivity.
  - simpl. rewrite IH. apply orb_true_r.
Qed.

(** X17.  The decoder accepts only a text that ends with ")" or ");" after a
    "setResponse(": whenever a payload is extracted, the text is some prefix,
    "setResponse(", that payload and one of the two endings.  A text without
    "setResponse(", or one that ends otherwise (a trailing line break
    included), is a decode error and [JSON.parse] is not consulted. *)
Theorem envelope_rejects (rawText : jsstring) :
  match envelopePayload rawText with
  | Some payload =>
    exists before terminator,
      rawText = before ++ js "setResponse(" ++ payload ++ terminator
      /\ (terminator = js ")" \/ terminator = js ");")
  | None =>
    parseGoogleVisualizationResponse JSON_parse rawText = inl parseErrorMessage
  end
  /\ (JsStr.includes rawText (js "setResponse(") = false ->
      parseGoogleVisualizationResponse JSON_parse rawText
      = inl parseErrorMessage)
  /\ ((forall front, rawText <> front ++ js ")") ->
      (forall front, rawText <> front ++ js ");") ->
      parseGoogleVisualizationResponse JSON_parse rawText
      = inl parseErrorMessage).
Proof.
  split; [|split].
  - destruct (envelopePayload rawText) as [payload|] eqn:E.
    + exact (envelopePayload_shape rawText payload E).
    + unfold parseGoogleVisualizationResponse. now rewrite E.
  - intros Hno. unfold parseGoogleVisualizationResponse.
    destruct (envelopePayload rawText) as [payload|] eqn:E; [|reflexivity].
    destruct (envelopePayload_shape rawText payload E)
      as (before & terminator & -> & _).
    rewrite includes_app_self in Hno. discriminate.
  - intros Hparen Hsemi. unfold parseGoogleVisualizationResponse.
    destruct (envelopePayload rawText) as [payload|] eqn:E; [|reflexivity].
    destruct (envelopePayload_shape rawText payload E)
      as (before & terminator & -> & [->| ->]); exfalso.
    + apply (Hparen (before ++ js "setResponse(" ++ payload)).
      now rewrite <- !app_assoc.
    + apply (Hsemi (before ++ js "setResponse(" ++ payload)).
      now rewrite <- !app_assoc.
Qed.
End EnvelopeClaims.

(** Evaluation of [envelope_round_trip] on the body the endpoint sends. *)
Lemma envelope_round_trip_witness :
  Sheets.envelopePayload SheetFixtures.responseText = Some (js "{'table':{}}").
Proof.
  exact (proj1 (envelope_round_trip (fun payload => inl payload)
                  (js "/*O_o*/
google.visualization.Query.") (js "{'table':{}}") (js ");")
                  eq_refl (or_intror eq_refl))).
Defined.

(** Evaluation of [envelope_rejects] on a body that is not an envelope. *)
Lemma envelope_rejects_witness :
  Sheets.parseGoogleVisualizationResponse (fun payload => inl payload)
                                          (js "<html>Sign in</html>")
  = inl Sheets.parseErrorMessage.
Proof.
  exact (proj1 (proj2 (envelope_rejects (fun payload => inl payload)
                         (js "<html>Sign in</html>"))) eq_refl).
Defined.

(** ** Text that is not a date or a number *)

Section ProseFacts.
Import Portfolio.

Lemma matchHere_digits_first (lo0 hi0 : nat) (rest : list Regex.item)
      (u : N) (s : jsstring) :
  JsStr.isDigit u = false -> (0 < lo0)%nat ->
  Regex.matchHere (Regex.digits lo0 hi0 :: rest) (u :: s) = None.
Proof.
  intros Hu Hlo. unfold Regex.digits.
  cbn [Regex.matchHere Regex.run Regex.cls Regex.lo].
  rewrite Hu. cbn [andb].
  destruct (0 <? lo0)%nat eqn:E; [reflexivity|].
  apply Nat.ltb_ge in E. lia.
Qed.

Lemma search_skips_prose (prose raw : jsstring) :
  Forall (fun u => JsStr.isDigit u = false) prose ->
  Regex.search koreanDatePattern (prose ++ raw)
  = Regex.search koreanDatePattern raw.
Proof.
  induction 1 as [|u prose Hu _ IH]; [reflexivity|].
  cbn [app Regex.search]. unfold koreanDatePattern at 1.
  rewrite (matchHere_digits_first 2 4 _ u (prose ++ raw) Hu) by lia.
  exact IH.
Qed.

(** X18.  Text in front of a date does not matter as long as it holds no
    digit: the date parser, and with it the days left, give the same result
    for the date string with and without such a prefix (a label, spaces, a
    bracket). *)
Theorem date_ignores_leading_prose (today : Z) (prose raw : jsstring) :
  Forall (fun u => JsStr.isDigit u = false) prose ->
  parseKoreanDate (prose ++ raw) = parseKoreanDate raw
  /\ calculateDaysLeft today (prose ++ raw) = calculateDaysLeft today raw.
Proof.
  intros Hprose.
  assert (E : parseKoreanDate (prose ++ raw) = parseKoreanDate raw).
  { unfold parseKoreanDate. now rewrite (search_skips_prose prose raw Hprose). }
  split; [exact E|]. unfold calculateDaysLeft. now rewrite E.
Qed.

Lemma date_ignores_leading_prose_witness :
  parseKoreanDate (js "갱신일: " ++ js "2026-01-05")
  = parseKoreanDate (js "2026-01-05").
Proof.
  refine (proj1 (date_ignores_leading_prose 0 (js "갱신일: ") (js "2026-01-05") _)).
  repeat constructor.
Defined.

Lemma spanDigits_no_digit (s : jsstring) :
  Forall (fun u => JsStr.isDigit u = false) s -> Num.spanDigits s = ([], s).
Proof.
  intros Hs. destruct Hs as [|u s Hu _]; [reflexivity|].
  simpl. now rewrite Hu.
Qed.

Lemma unsignedLiteral_no_digit (neg : bool) (s : jsstring) :
  Forall (fun u => JsStr.isDigit u = false) s ->
  Num.unsignedLiteral neg s = S754_nan.
Proof.
  intros Hs. unfold Num.unsignedLiteral. rewrite (spanDigits_no_digit s Hs).
  destruct Hs as [|u s Hu Hrest]; [reflexivity|].
  destruct (u =? 46)%N; [|reflexivity].
  rewrite (spanDigits_no_digit s Hrest). now destruct s.
Qed.

Lemma stripNonNumeric_no_digit (s : jsstring) :
  Forall (fun u => JsStr.isDigit u = false) s ->
  Forall (fun u => JsStr.isDigit u = false) (stripNonNumeric s).
Proof.
  intros Hs. apply Forall_forall. intros u Hin.
  apply filter_In in Hin. destruct Hin as [Hin _].
  exact (proj1 (Forall_forall _ _) Hs u Hin).
Qed.

(** X19.  A string without any digit never coerces to a number: whatever
    signs, points, letters or symbols it holds ("-", ".", "-.", "미정"),
    numeric coercion returns [null], not 0. *)
Theorem no_digit_no_number (s : jsstring) :
  Forall (fun u => JsStr.isDigit u = false) s ->
  parseNumericValue (Str s) = None /\ toNumber (Str s) = None.
Proof.
  intros Hs.
  assert (E : parseNumericValue (Str s) = None).
  { simpl. pose proof (stripNonNumeric_no_digit s Hs) as Hstrip.
    destruct (stripNonNumeric s) as [|u t] eqn:Et; [reflexivity|].
    assert (Hnan : Num.ofString (u :: t) = S754_nan).
    { unfold Num.ofString. inversion Hstrip as [|? ? Hu Ht]; subst.
      destruct (u =? 45)%N;
        [now apply unsignedLiteral_no_digit
        | apply unsignedLiteral_no_digit; now constructor]. }
    now rewrite Hnan. }
  split; [exact E|]. now rewrite toNumber_parseNumericValue.
Qed.

Lemma no_digit_no_number_witness :
  parseNumericValue (Str (js "-.")) = None.
Proof.
  refine (proj1 (no_digit_no_number (js "-.") _)). repeat constructor.
Defined.
End ProseFacts.

(** ** Taxes *)

Section TaxFacts.
Import Portfolio.

Lemma sum_of_unknown (figure : PortfolioUnit -> option number)
      (units : list PortfolioUnit) :
  (forall unit, In unit units -> figure unit = None) ->
  reduce (fun acc unit => Num.add acc (orZero (figure unit))) Num.zero units
  = Num.zero.
Proof.
  unfold reduce. induction units as [|unit units IH]; intros Hall;
    [reflexivity|].
  simpl. rewrite (Hall unit (or_introl eq_refl)). simpl.
  apply IH. intros u Hu. apply Hall. now right.
Qed.

(** X20.  Unknown tax figures count as zero and are not an error: for a
    list of units none of which has a building tax, a land tax or a traffic
    charge (the empty list included), every total of [summarizeTaxes], and
    their grand total, is 0. *)
Theorem taxes_of_unknown (units : list PortfolioUnit) :
  (forall unit, In unit units ->
                buildingTax unit = None /\ landTax unit = None
                /\ trafficInducementCharge unit = None) ->
  summarizeTaxes units
  = {| buildingTaxTotal := Num.zero; landTaxTotal := Num.zero;
       trafficChargeTotal := Num.zero; annualTaxTotal := Num.zero |}.
Proof.
  intros Hall. unfold summarizeTaxes.
  rewrite (sum_of_unknown buildingTax), (sum_of_unknown landTax),
    (sum_of_unknown trafficInducementCharge);
    [reflexivity | | |]; intros unit Hin; apply (Hall unit Hin).
Qed.

Lemma taxes_of_unknown_witness :
  annualTaxTotal (summarizeTaxes Fixtures.twoLoans) = Num.zero.
Proof.
  rewrite (taxes_of_unknown Fixtures.twoLoans); [reflexivity|].
  intros unit [<-|[<-|[]]]; repeat split.
Defined.
End TaxFacts.
